(** * PostgresStore: a shallow embedding of src/infra/db/postgres/postgres-store.ts

    The store keeps AgentInfo, Messages, ToolCallRecords and Snapshots in four
    PostgreSQL relations.  The embedding has three layers:

    - documents: the values the store serialises with [JSON.stringify] and the
      canonical form a JSONB column keeps of them;
    - the server: the four relations with their keys, foreign keys, CHECK and
      range constraints, and the transaction state of one client session;
    - the store: every method of the class, written in a small state-and-error
      monad over a client session, statement for statement as in the source.

    Modelling conventions.  JavaScript numbers are integers ([Z]); a value that
    may be [undefined] or SQL NULL is an [option].  A row holds, column by
    column, the value the store bound to it.  What the driver returns for a
    column goes by its SQL type: TEXT, INTEGER, BOOLEAN and JSONB come back as
    the string, number, boolean and document they hold, BIGINT as the string
    of its digits, TIMESTAMP as a [Date].  [created_at] of [agents] and
    [snapshots] holds the text bound, a [Date.prototype.toISOString] string,
    whose byte order is the order in time.  The file-system half of the store
    (events, todos, history, media cache) is delegated to [JSONStore] and is
    not part of this development. *)

From Stdlib Require Import List String Ascii ZArith Bool Lia Permutation Sorted.
From Stdlib Require Import DecimalString DecimalZ.
Import ListNotations.
Set Warnings "-register-all".
Local Open Scope string_scope.
Local Open Scope Z_scope.

(* ================================================================== *)
(** * Documents *)

(** A JSON document, as [JSON.stringify] writes it and a JSONB column returns
    it.  Object members are kept in insertion order, as JavaScript does. *)
Inductive json : Type :=
| JNull
| JBool (b : bool)
| JNum (n : Z)
| JStr (s : string)
| JArr (items : list json)
| JObj (members : list (string * json)).

(** JavaScript truthiness of a document ([x ? a : b], [x || y]). *)
Definition truthy (v : json) : bool :=
  match v with
  | JNull => false
  | JBool b => b
  | JNum n => negb (n =? 0)
  | JStr s => negb (s =? "")%string
  | JArr _ | JObj _ => true
  end.

(** JSONB orders the keys of an object by length, then bytewise. *)
Definition key_cmp (a b : string) : comparison :=
  match Nat.compare (String.length a) (String.length b) with
  | Eq => String.compare a b
  | c => c
  end.

(** Adding a member to an ordered object; a key that is already there stays. *)
Fixpoint kv_add (k : string) (v : json) (l : list (string * json))
  : list (string * json) :=
  match l with
  | [] => [(k, v)]
  | (k', v') :: r =>
      match key_cmp k k' with
      | Lt => (k, v) :: l
      | Eq => l
      | Gt => (k', v') :: kv_add k v r
      end
  end.

(** The members of a JSONB object: keys ordered, the last of equal keys kept. *)
Definition obj_of (l : list (string * json)) : list (string * json) :=
  fold_right (fun kv acc => kv_add (fst kv) (snd kv) acc) [] l.

Definition on_values (f : json -> json) (l : list (string * json))
  : list (string * json) :=
  map (fun kv => (fst kv, f (snd kv))) l.

(** [jsonb v] is what a JSONB column holds after it was given
    [JSON.stringify(v)], and what a SELECT returns of it. *)
Fixpoint jsonb (v : json) : json :=
  match v with
  | JArr items => JArr (map jsonb items)
  | JObj members => JObj (obj_of (on_values jsonb members))
  | _ => v
  end.

(** The keys of a JSONB object are strictly ordered. *)
Definition key_lt (a b : string * json) : Prop :=
  key_cmp (fst a) (fst b) = Lt.

(** Structural identity of documents, key order irrelevant: the same
    canonical form. *)
Definition json_eqv (a b : json) : Prop := jsonb a = jsonb b.

(** [x ? JSON.stringify(x) : null], for an optional document. *)
Definition stringify_if_truthy (x : option json) : option json :=
  match x with
  | Some v => if truthy v then Some (jsonb v) else None
  | None => None
  end.

(** [x || null] on the way in and [x || undefined] on the way out. *)
Definition or_null_json (x : option json) : option json :=
  match x with
  | Some v => if truthy v then Some v else None
  | None => None
  end.

Definition or_null_str (x : option string) : option string :=
  match x with
  | Some s => if (s =? "")%string then None else Some s
  | None => None
  end.

Definition or_null_num (x : option Z) : option Z :=
  match x with
  | Some n => if n =? 0 then None else Some n
  | None => None
  end.

(* ================================================================== *)
(** * ORDER BY *)

Section OrderBy.
Context {A : Type} (le : A -> A -> bool).

Fixpoint insert_by (x : A) (l : list A) : list A :=
  match l with
  | [] => [x]
  | y :: r => if le x y then x :: l else y :: insert_by x r
  end.

(** A stable insertion sort: rows with equal keys keep their table order. *)
Definition order_by (l : list A) : list A := fold_right insert_by [] l.
End OrderBy.

(* ================================================================== *)
(** * The values the store is given *)

(** A [Date] as node-postgres makes it of a TIMESTAMP column: the date and
    time the column holds, which carry no zone, read in the time zone of the
    process.  [timestamp] is the column. *)
Record Date : Type := local_time { timestamp : string }.

(** Modelled from the spec: the declarations of core/types.ts ([Message],
    [AgentInfo], [ToolCallRecord], [Snapshot]) are not among the sources; the
    fields are the ones the store reads, typed as section 3 of the
    specification and the unit tests give them.  Document-valued fields are
    [json]; optional fields are [option]s. *)
Module Message.
Record t : Type := mk {
  role : string;
  content : json;
  metadata : option json
}.
End Message.

(** Modelled from the spec: [AgentInfo] of core/types.ts.  The declared type
    of [createdAt] is [string]; a value read back holds a [Date] there.  [t]
    is the type of the values the store is given, [loaded] the type of the
    values it returns. *)
Module AgentInfo.
Record with_date (D : Type) : Type := mk {
  agentId : string;
  templateId : string;
  createdAt : D;
  configVersion : string;
  lineage : json;
  messageCount : Z;
  lastSfpIndex : Z;
  lastBookmark : option json;
  breakpoint : option string;
  metadata : json
}.
Arguments mk {D}.
Arguments agentId {D}.
Arguments templateId {D}.
Arguments createdAt {D}.
Arguments configVersion {D}.
Arguments lineage {D}.
Arguments messageCount {D}.
Arguments lastSfpIndex {D}.
Arguments lastBookmark {D}.
Arguments breakpoint {D}.
Arguments metadata {D}.
Definition t : Type := with_date string.
Definition loaded : Type := with_date Date.
End AgentInfo.

(** Modelled from the spec: [ToolCallRecord] of core/types.ts.  The declared
    type of the four times of a record is [number]; a value read back holds
    the text of a BIGINT column there. *)
Module ToolCallRecord.
Record with_time (N : Type) : Type := mk {
  id : string;
  name : string;
  input : json;
  state : string;
  approval : json;
  result : option json;
  error : option string;
  isError : option bool;
  startedAt : option N;
  completedAt : option N;
  durationMs : option Z;
  createdAt : N;
  updatedAt : N;
  auditTrail : json
}.
Arguments mk {N}.
Arguments id {N}.
Arguments name {N}.
Arguments input {N}.
Arguments state {N}.
Arguments approval {N}.
Arguments result {N}.
Arguments error {N}.
Arguments isError {N}.
Arguments startedAt {N}.
Arguments completedAt {N}.
Arguments durationMs {N}.
Arguments createdAt {N}.
Arguments updatedAt {N}.
Arguments auditTrail {N}.
Definition t : Type := with_time Z.
Definition loaded : Type := with_time string.
End ToolCallRecord.

(** Modelled from the spec: [Snapshot] of core/types.ts, its [createdAt] as
    the one of [AgentInfo]. *)
Module Snapshot.
Record with_date (D : Type) : Type := mk {
  id : string;
  messages : json;
  lastSfpIndex : Z;
  lastBookmark : json;
  createdAt : D;
  metadata : option json
}.
Arguments mk {D}.
Arguments id {D}.
Arguments messages {D}.
Arguments lastSfpIndex {D}.
Arguments lastBookmark {D}.
Arguments createdAt {D}.
Arguments metadata {D}.
Definition t : Type := with_date string.
Definition loaded : Type := with_date Date.
End Snapshot.

(** [AgentStats] of store.ts; a [Record<string, number>] is the list of its
    own properties in insertion order. *)
Record AgentStats : Type := mkAgentStats {
  totalMessages : Z;
  totalToolCalls : Z;
  totalSnapshots : Z;
  avgMessagesPerSession : Z;
  toolCallsByName : list (string * Z);
  toolCallsByState : list (string * Z)
}.

(* ================================================================== *)
(** * The relations of [createTables] *)

Module AgentRow.
Record t : Type := mk {
  agent_id : string;          (* TEXT PRIMARY KEY *)
  template_id : string;       (* TEXT NOT NULL *)
  created_at : string;        (* TIMESTAMP NOT NULL *)
  config_version : string;    (* TEXT NOT NULL *)
  lineage : json;             (* JSONB NOT NULL *)
  message_count : Z;          (* INTEGER NOT NULL *)
  last_sfp_index : Z;         (* INTEGER NOT NULL *)
  last_bookmark : option json;(* JSONB *)
  breakpoint : option string; (* TEXT *)
  metadata : json             (* JSONB NOT NULL *)
}.
End AgentRow.

Module MessageRow.
Record t : Type := mk {
  id : string;                (* TEXT PRIMARY KEY *)
  agent_id : string;          (* TEXT NOT NULL, REFERENCES agents *)
  role : string;              (* TEXT NOT NULL CHECK (role IN ...) *)
  content : json;             (* JSONB NOT NULL *)
  seq : Z;                    (* INTEGER NOT NULL *)
  metadata : option json;     (* JSONB *)
  created_at : Z              (* BIGINT NOT NULL *)
}.
End MessageRow.

Module ToolCallRow.
Record t : Type := mk {
  id : string;                (* TEXT PRIMARY KEY *)
  agent_id : string;          (* TEXT NOT NULL, REFERENCES agents *)
  name : string;              (* TEXT NOT NULL *)
  input : json;               (* JSONB NOT NULL *)
  state : string;             (* TEXT NOT NULL *)
  approval : json;            (* JSONB NOT NULL *)
  result : option json;       (* JSONB *)
  error : option string;      (* TEXT *)
  is_error : option bool;     (* BOOLEAN DEFAULT FALSE *)
  started_at : option Z;      (* BIGINT *)
  completed_at : option Z;    (* BIGINT *)
  duration_ms : option Z;     (* INTEGER *)
  created_at : Z;             (* BIGINT NOT NULL *)
  updated_at : Z;             (* BIGINT NOT NULL *)
  audit_trail : json          (* JSONB NOT NULL *)
}.
End ToolCallRow.

Module SnapshotRow.
Record t : Type := mk {
  agent_id : string;          (* TEXT NOT NULL, REFERENCES agents *)
  snapshot_id : string;       (* TEXT NOT NULL; key with agent_id *)
  messages : json;            (* JSONB NOT NULL *)
  last_sfp_index : Z;         (* INTEGER NOT NULL *)
  last_bookmark : json;       (* JSONB NOT NULL *)
  created_at : string;        (* TIMESTAMP NOT NULL *)
  metadata : option json      (* JSONB *)
}.
End SnapshotRow.

(** What [createTables] and [createIndexes] create.  Of the indexes only the
    unique one constrains the data. *)
Inductive Relation : Type :=
| agents_rel
| messages_rel
| tool_calls_rel
| snapshots_rel
| idx_messages_agent_seq.

Definition Relation_eqb (a b : Relation) : bool :=
  match a, b with
  | agents_rel, agents_rel
  | messages_rel, messages_rel
  | tool_calls_rel, tool_calls_rel
  | snapshots_rel, snapshots_rel
  | idx_messages_agent_seq, idx_messages_agent_seq => true
  | _, _ => false
  end.

(** The state of the database server. *)
Record Db : Type := mkDb {
  relations : list Relation;
  agents : list AgentRow.t;
  messages : list MessageRow.t;
  tool_calls : list ToolCallRow.t;
  snapshots : list SnapshotRow.t
}.

Definition empty_db : Db := mkDb [] [] [] [] [].

Definition has_relation (r : Relation) (db : Db) : bool :=
  existsb (Relation_eqb r) (relations db).

(** The errors of the server, by SQLSTATE. *)
Inductive PgError : Type :=
| undefined_table (r : Relation)              (* 42P01 *)
| unique_violation (constraint : string)      (* 23505 *)
| foreign_key_violation (constraint : string) (* 23503 *)
| check_violation (constraint : string)       (* 23514 *)
| numeric_value_out_of_range                  (* 22003 *)
| in_failed_sql_transaction.                  (* 25P02 *)

Inductive Outcome (A : Type) : Type :=
| Ok (a : A)
| Throw (e : PgError).
Arguments Ok {A} a.
Arguments Throw {A} e.

Definition int4 (n : Z) : bool := (-2147483648 <=? n) && (n <=? 2147483647).
Definition int8 (n : Z) : bool :=
  (-9223372036854775808 <=? n) && (n <=? 9223372036854775807).

Definition opt_all (p : Z -> bool) (x : option Z) : bool :=
  match x with Some n => p n | None => true end.

Definition agent_exists (agentId : string) (db : Db) : bool :=
  existsb (fun a => (AgentRow.agent_id a =? agentId)%string) (agents db).

Definition role_check (r : string) : bool :=
  (r =? "user")%string || (r =? "assistant")%string || (r =? "system")%string.

(* ================================================================== *)
(** * Statements

    One function for each SQL statement of the source.  A statement either
    returns the new state of the relations or raises; constraints are checked
    in the order of the server: parameter conversion, CHECK, unique indexes,
    then foreign keys. *)

Definition require (r : Relation) (db : Db) (k : Outcome Db) : Outcome Db :=
  if has_relation r db then k else Throw (undefined_table r).

Definition with_agents (db : Db) (l : list AgentRow.t) : Db :=
  mkDb (relations db) l (messages db) (tool_calls db) (snapshots db).
Definition with_messages (db : Db) (l : list MessageRow.t) : Db :=
  mkDb (relations db) (agents db) l (tool_calls db) (snapshots db).
Definition with_tool_calls (db : Db) (l : list ToolCallRow.t) : Db :=
  mkDb (relations db) (agents db) (messages db) l (snapshots db).
Definition with_snapshots (db : Db) (l : list SnapshotRow.t) : Db :=
  mkDb (relations db) (agents db) (messages db) (tool_calls db) l.

Definition messages_of (agentId : string) (db : Db) : list MessageRow.t :=
  filter (fun m => (MessageRow.agent_id m =? agentId)%string) (messages db).
Definition tool_calls_of (agentId : string) (db : Db) : list ToolCallRow.t :=
  filter (fun c => (ToolCallRow.agent_id c =? agentId)%string) (tool_calls db).
Definition snapshots_of (agentId : string) (db : Db) : list SnapshotRow.t :=
  filter (fun s => (SnapshotRow.agent_id s =? agentId)%string) (snapshots db).

(** [CREATE TABLE IF NOT EXISTS] and [CREATE [UNIQUE] INDEX IF NOT EXISTS]. *)
Definition add_relation (r : Relation) (db : Db) : Db :=
  if has_relation r db then db
  else mkDb (relations db ++ [r]) (agents db) (messages db) (tool_calls db)
            (snapshots db).

Definition create_table (r : Relation) (db : Db) : Outcome Db :=
  match r with
  | agents_rel => Ok (add_relation r db)
  | _ => require agents_rel db (Ok (add_relation r db))
  end.

Fixpoint has_dup_agent_seq (l : list MessageRow.t) : bool :=
  match l with
  | [] => false
  | m :: r =>
      existsb (fun m' => (MessageRow.agent_id m' =? MessageRow.agent_id m)%string
                         && (MessageRow.seq m' =? MessageRow.seq m)) r
      || has_dup_agent_seq r
  end.

Definition create_messages_indexes (db : Db) : Outcome Db :=
  require messages_rel db
    (if has_relation idx_messages_agent_seq db then Ok db
     else if has_dup_agent_seq (messages db)
          then Throw (unique_violation "idx_messages_agent_seq")
          else Ok (add_relation idx_messages_agent_seq db)).

(** [DELETE FROM messages WHERE agent_id = $1] *)
Definition delete_messages (agentId : string) (db : Db) : Outcome Db :=
  require messages_rel db
    (Ok (with_messages db
           (filter (fun m => negb (MessageRow.agent_id m =? agentId)%string)
                   (messages db)))).

(** [INSERT INTO messages (...) VALUES ($1, ..., $7)] *)
Definition insert_message (r : MessageRow.t) (db : Db) : Outcome Db :=
  require messages_rel db
    (if negb (int4 (MessageRow.seq r) && int8 (MessageRow.created_at r))
     then Throw numeric_value_out_of_range
     else if negb (role_check (MessageRow.role r))
     then Throw (check_violation "messages_role_check")
     else if existsb (fun m => (MessageRow.id m =? MessageRow.id r)%string)
                     (messages db)
     then Throw (unique_violation "messages_pkey")
     else if has_relation idx_messages_agent_seq db
             && existsb (fun m =>
                  (MessageRow.agent_id m =? MessageRow.agent_id r)%string
                  && (MessageRow.seq m =? MessageRow.seq r)) (messages db)
     then Throw (unique_violation "idx_messages_agent_seq")
     else if negb (agent_exists (MessageRow.agent_id r) db)
     then Throw (foreign_key_violation "messages_agent_id_fkey")
     else Ok (with_messages db (messages db ++ [r]))).

Definition set_message_count (n : Z) (agentId : string) (a : AgentRow.t)
  : AgentRow.t :=
  if (AgentRow.agent_id a =? agentId)%string
  then AgentRow.mk (AgentRow.agent_id a) (AgentRow.template_id a)
         (AgentRow.created_at a) (AgentRow.config_version a)
         (AgentRow.lineage a) n (AgentRow.last_sfp_index a)
         (AgentRow.last_bookmark a) (AgentRow.breakpoint a)
         (AgentRow.metadata a)
  else a.

(** [UPDATE agents SET message_count = $1 WHERE agent_id = $2] *)
Definition update_message_count (n : Z) (agentId : string) (db : Db)
  : Outcome Db :=
  require agents_rel db
    (if negb (int4 n) then Throw numeric_value_out_of_range
     else Ok (with_agents db (map (set_message_count n agentId) (agents db)))).

(** [DELETE FROM tool_calls WHERE agent_id = $1] *)
Definition delete_tool_calls (agentId : string) (db : Db) : Outcome Db :=
  require tool_calls_rel db
    (Ok (with_tool_calls db
           (filter (fun c => negb (ToolCallRow.agent_id c =? agentId)%string)
                   (tool_calls db)))).

(** [INSERT INTO tool_calls (...) VALUES ($1, ..., $15)] *)
Definition insert_tool_call (r : ToolCallRow.t) (db : Db) : Outcome Db :=
  require tool_calls_rel db
    (if negb (opt_all int8 (ToolCallRow.started_at r)
              && opt_all int8 (ToolCallRow.completed_at r)
              && opt_all int4 (ToolCallRow.duration_ms r)
              && int8 (ToolCallRow.created_at r)
              && int8 (ToolCallRow.updated_at r))
     then Throw numeric_value_out_of_range
     else if existsb (fun c => (ToolCallRow.id c =? ToolCallRow.id r)%string)
                     (tool_calls db)
     then Throw (unique_violation "tool_calls_pkey")
     else if negb (agent_exists (ToolCallRow.agent_id r) db)
     then Throw (foreign_key_violation "tool_calls_agent_id_fkey")
     else Ok (with_tool_calls db (tool_calls db ++ [r]))).

(** Replacing in place the rows a key selects, or appending a new row. *)
Definition upsert {R : Type} (same_key : R -> bool) (r : R) (l : list R)
  : list R :=
  if existsb same_key l
  then map (fun x => if same_key x then r else x) l
  else l ++ [r].

Definition snapshot_key (agentId snapshotId : string) (s : SnapshotRow.t)
  : bool :=
  (SnapshotRow.agent_id s =? agentId)%string
  && (SnapshotRow.snapshot_id s =? snapshotId)%string.

(** [INSERT INTO snapshots (...) VALUES (...)
     ON CONFLICT (agent_id, snapshot_id) DO UPDATE SET ...] *)
Definition upsert_snapshot (r : SnapshotRow.t) (db : Db) : Outcome Db :=
  let key := snapshot_key (SnapshotRow.agent_id r) (SnapshotRow.snapshot_id r) in
  require snapshots_rel db
    (if negb (int4 (SnapshotRow.last_sfp_index r))
     then Throw numeric_value_out_of_range
     else if negb (existsb key (snapshots db))
             && negb (agent_exists (SnapshotRow.agent_id r) db)
     then Throw (foreign_key_violation "snapshots_agent_id_fkey")
     else Ok (with_snapshots db (upsert key r (snapshots db)))).

Definition agent_key (agentId : string) (a : AgentRow.t) : bool :=
  (AgentRow.agent_id a =? agentId)%string.

(** [INSERT INTO agents (...) VALUES (...)
     ON CONFLICT (agent_id) DO UPDATE SET ...] *)
Definition upsert_agent (r : AgentRow.t) (db : Db) : Outcome Db :=
  require agents_rel db
    (if negb (int4 (AgentRow.message_count r)
              && int4 (AgentRow.last_sfp_index r))
     then Throw numeric_value_out_of_range
     else Ok (with_agents db
                (upsert (agent_key (AgentRow.agent_id r)) r (agents db)))).

(** [DELETE FROM agents WHERE agent_id = $1]: the rows that reference a
    deleted agent go with it (ON DELETE CASCADE); when no agent row is
    deleted nothing cascades. *)
Definition delete_agent (agentId : string) (db : Db) : Outcome Db :=
  require agents_rel db
    (if agent_exists agentId db
     then Ok (mkDb (relations db)
       (filter (fun a => negb (agent_key agentId a)) (agents db))
       (filter (fun m => negb (MessageRow.agent_id m =? agentId)%string)
               (messages db))
       (filter (fun c => negb (ToolCallRow.agent_id c =? agentId)%string)
               (tool_calls db))
       (filter (fun s => negb (SnapshotRow.agent_id s =? agentId)%string)
               (snapshots db)))
     else Ok db).

(** ** LIKE *)

(** [text LIKE pattern] with the default escape character: [%] matches any
    run of characters, [_] any one character, and a backslash takes the
    next pattern character literally. *)
Fixpoint like_match (pattern text : string) : bool :=
  match pattern with
  | EmptyString => match text with EmptyString => true | _ => false end
  | String p rest =>
      if (p =? "%")%char then
        (fix any (t : string) : bool :=
           like_match rest t
           || match t with
              | EmptyString => false
              | String _ t' => any t'
              end) text
      else if (p =? "_")%char then
        match text with
        | EmptyString => false
        | String _ t' => like_match rest t'
        end
      else if (p =? "\")%char then
        match rest with
        | EmptyString => false
        | String q rest' =>
            match text with
            | EmptyString => false
            | String c t' => (q =? c)%char && like_match rest' t'
            end
        end
      else
        match text with
        | EmptyString => false
        | String c t' => (p =? c)%char && like_match rest t'
        end
  end.

(** ** Queries *)

Definition select {A : Type} (r : Relation) (db : Db) (rows : A) : Outcome A :=
  if has_relation r db then Ok rows else Throw (undefined_table r).

(** [GROUP BY key] with [COUNT( * )]: one row for each distinct key. *)
Fixpoint bump (k : string) (groups : list (string * Z)) : list (string * Z) :=
  match groups with
  | [] => [(k, 1)]
  | (k', n) :: r =>
      if (k' =? k)%string then (k', n + 1) :: r else (k', n) :: bump k r
  end.

Definition group_count (keys : list string) : list (string * Z) :=
  fold_left (fun groups k => bump k groups) keys [].

(* ================================================================== *)
(** * A client session *)

(** The transaction state of a session: no transaction, a transaction with
    its uncommitted view of the relations, or a transaction that a failed
    statement has aborted. *)
Inductive TxState : Type :=
| Idle
| InTx (work : Db)
| Aborted.

(** [committed] is what every other session reads; [observed] records it
    after each statement the session has run. *)
Record Session : Type := mkSession {
  committed : Db;
  tx : TxState;
  observed : list Db
}.

Definition seen (db : Db) (t : TxState) (log : list Db) : Session :=
  mkSession db t (log ++ [db]).

(** Code that runs on a client: it may change the session and may throw. *)
Definition Client (A : Type) : Type := Session -> Outcome A * Session.

Definition ret {A : Type} (a : A) : Client A := fun s => (Ok a, s).

Definition throw {A : Type} (e : PgError) : Client A := fun s => (Throw e, s).

Definition bind {A B : Type} (m : Client A) (k : A -> Client B) : Client B :=
  fun s =>
    match m s with
    | (Ok a, s') => k a s'
    | (Throw e, s') => (Throw e, s')
    end.

(** [try { body } catch (err) { handler(err) }] *)
Definition try_catch {A : Type} (body : Client A) (handler : PgError -> Client A)
  : Client A :=
  fun s =>
    match body s with
    | (Ok a, s') => (Ok a, s')
    | (Throw e, s') => handler e s'
    end.

Declare Scope client_scope.
Delimit Scope client_scope with client.
Notation "x <- m ;; k" := (bind m (fun x => k))
  (at level 61, m at next level, right associativity) : client_scope.
Notation "m ;; k" := (bind m (fun _ => k))
  (at level 61, right associativity) : client_scope.
Local Open Scope client_scope.

(** [client.query] of a statement that writes. *)
Definition exec (stmt : Db -> Outcome Db) : Client unit :=
  fun s =>
    match tx s with
    | Idle =>
        match stmt (committed s) with
        | Ok db' => (Ok tt, seen db' Idle (observed s))
        | Throw e => (Throw e, seen (committed s) Idle (observed s))
        end
    | InTx w =>
        match stmt w with
        | Ok w' => (Ok tt, seen (committed s) (InTx w') (observed s))
        | Throw e => (Throw e, seen (committed s) Aborted (observed s))
        end
    | Aborted =>
        (Throw in_failed_sql_transaction,
         seen (committed s) Aborted (observed s))
    end.

(** [client.query] of a SELECT. *)
Definition fetch {A : Type} (q : Db -> Outcome A) : Client A :=
  fun s =>
    match tx s with
    | Idle => (q (committed s), seen (committed s) Idle (observed s))
    | InTx w =>
        match q w with
        | Ok a => (Ok a, seen (committed s) (InTx w) (observed s))
        | Throw e => (Throw e, seen (committed s) Aborted (observed s))
        end
    | Aborted =>
        (Throw in_failed_sql_transaction,
         seen (committed s) Aborted (observed s))
    end.

Definition BEGIN : Client unit :=
  fun s =>
    match tx s with
    | Idle => (Ok tt, seen (committed s) (InTx (committed s)) (observed s))
    | InTx w => (Ok tt, seen (committed s) (InTx w) (observed s))
    | Aborted =>
        (Throw in_failed_sql_transaction,
         seen (committed s) Aborted (observed s))
    end.

Definition COMMIT : Client unit :=
  fun s =>
    match tx s with
    | InTx w => (Ok tt, seen w Idle (observed s))
    | Idle | Aborted => (Ok tt, seen (committed s) Idle (observed s))
    end.

Definition ROLLBACK : Client unit :=
  fun s => (Ok tt, seen (committed s) Idle (observed s)).

(* ================================================================== *)
(** * The store *)

(** The promise the constructor keeps in [initPromise], with [initError]. *)
Inductive InitState : Type :=
| InitPending
| InitDone
| InitFailed (initError : PgError).

(** [pool] stands for the server behind the connection pool. *)
Record PostgresStore : Type := mkStore {
  pool : Db;
  init : InitState
}.

(** [const client = await this.pool.connect(); try { body } finally
    { client.release(); }]: the body runs on a session of its own. *)
Definition connect (st : PostgresStore) : Session :=
  mkSession (pool st) Idle [].

Definition with_client {A : Type} (body : Client A) (st : PostgresStore)
  : Outcome A * PostgresStore :=
  let (r, s) := body (connect st) in
  (r, mkStore (committed s) (init st)).

(** ** Initialisation *)

Definition createTables : Client unit :=
  exec (create_table agents_rel) ;;
  exec (create_table messages_rel) ;;
  exec (create_table tool_calls_rel) ;;
  exec (create_table snapshots_rel).

Definition createIndexes : Client unit :=
  exec (fun db => require agents_rel db (Ok db)) ;;
  exec create_messages_indexes ;;
  exec (fun db => require tool_calls_rel db (Ok db)) ;;
  exec (fun db => require snapshots_rel db (Ok db)).

Definition initialize (st : PostgresStore) : Outcome unit * PostgresStore :=
  match with_client createTables st with
  | (Ok _, st') => with_client createIndexes st'
  | (Throw e, st') => (Throw e, st')
  end.

(** [new PostgresStore(config, dir)] returns at once, the initialisation
    still pending; [settle] is the store once [initPromise] has settled. *)
Definition constructor (server : Db) : PostgresStore :=
  mkStore server InitPending.

Definition settle (st : PostgresStore) : PostgresStore :=
  match initialize st with
  | (Ok _, st') => mkStore (pool st') InitDone
  | (Throw e, st') => mkStore (pool st') (InitFailed e)
  end.

(** ** Messages *)

(** What one turn of the loop of [saveMessages] draws from the clock and
    from [Math.random]. *)
Record Draw : Type := mkDraw {
  id_now : Z;          (* Date.now() in generateMessageId *)
  id_random : string;  (* Math.random().toString(36).substr(2, 9) *)
  row_now : Z          (* Date.now() for created_at *)
}.

Definition generateMessageId (d : Draw) : string :=
  "msg_" ++ NilZero.string_of_int (Z.to_int (id_now d)) ++ "_" ++ id_random d.

Definition message_row (d : Draw) (agentId : string) (index : nat)
  (msg : Message.t) : MessageRow.t :=
  MessageRow.mk (generateMessageId d) agentId (Message.role msg)
    (jsonb (Message.content msg)) (Z.of_nat index)
    (stringify_if_truthy (Message.metadata msg)) (row_now d).

(** [for (let index = ...; index < messages.length; index++)], from [index]. *)
Fixpoint insert_messages (env : nat -> Draw) (agentId : string) (index : nat)
  (messages : list Message.t) : Client unit :=
  match messages with
  | [] => ret tt
  | msg :: rest =>
      exec (insert_message (message_row (env index) agentId index msg)) ;;
      insert_messages env agentId (S index) rest
  end.

(** The [try] block of [saveMessages]. *)
Definition saveMessages_try (env : nat -> Draw) (agentId : string)
  (messages : list Message.t) : Client unit :=
  BEGIN ;;
  exec (delete_messages agentId) ;;
  insert_messages env agentId 0 messages ;;
  exec (update_message_count (Z.of_nat (List.length messages)) agentId) ;;
  COMMIT.

Definition saveMessages_client (env : nat -> Draw) (agentId : string)
  (messages : list Message.t) : Client unit :=
  try_catch (saveMessages_try env agentId messages)
            (fun err => ROLLBACK ;; throw err).

Definition saveMessages (env : nat -> Draw) (agentId : string)
  (messages : list Message.t) : PostgresStore -> Outcome unit * PostgresStore :=
  with_client (saveMessages_client env agentId messages).

(** [SELECT role, content, metadata FROM messages WHERE agent_id = $1
     ORDER BY seq ASC] *)
Definition select_messages (agentId : string) (db : Db)
  : Outcome (list MessageRow.t) :=
  select messages_rel db
    (order_by (fun a b => MessageRow.seq a <=? MessageRow.seq b)
              (messages_of agentId db)).

Definition message_of_row (row : MessageRow.t) : Message.t :=
  Message.mk (MessageRow.role row) (MessageRow.content row)
             (or_null_json (MessageRow.metadata row)).

Definition loadMessages_client (agentId : string) : Client (list Message.t) :=
  rows <- fetch (select_messages agentId) ;;
  ret (map message_of_row rows).

Definition loadMessages (agentId : string)
  : PostgresStore -> Outcome (list Message.t) * PostgresStore :=
  with_client (loadMessages_client agentId).

(** ** Tool-call records *)

Definition tool_call_row (agentId : string) (record : ToolCallRecord.t)
  : ToolCallRow.t :=
  ToolCallRow.mk (ToolCallRecord.id record) agentId
    (ToolCallRecord.name record)
    (jsonb (ToolCallRecord.input record))
    (ToolCallRecord.state record)
    (jsonb (ToolCallRecord.approval record))
    (stringify_if_truthy (ToolCallRecord.result record))
    (or_null_str (ToolCallRecord.error record))
    (ToolCallRecord.isError record)
    (or_null_num (ToolCallRecord.startedAt record))
    (or_null_num (ToolCallRecord.completedAt record))
    (or_null_num (ToolCallRecord.durationMs record))
    (ToolCallRecord.createdAt record)
    (ToolCallRecord.updatedAt record)
    (jsonb (ToolCallRecord.auditTrail record)).

Fixpoint insert_tool_calls (agentId : string) (records : list ToolCallRecord.t)
  : Client unit :=
  match records with
  | [] => ret tt
  | record :: rest =>
      exec (insert_tool_call (tool_call_row agentId record)) ;;
      insert_tool_calls agentId rest
  end.

Definition saveToolCallRecords_try (agentId : string)
  (records : list ToolCallRecord.t) : Client unit :=
  BEGIN ;;
  exec (delete_tool_calls agentId) ;;
  insert_tool_calls agentId records ;;
  COMMIT.

Definition saveToolCallRecords_client (agentId : string)
  (records : list ToolCallRecord.t) : Client unit :=
  try_catch (saveToolCallRecords_try agentId records)
            (fun err => ROLLBACK ;; throw err).

Definition saveToolCallRecords (agentId : string)
  (records : list ToolCallRecord.t)
  : PostgresStore -> Outcome unit * PostgresStore :=
  with_client (saveToolCallRecords_client agentId records).

(** [SELECT ... FROM tool_calls WHERE agent_id = $1 ORDER BY created_at ASC] *)
Definition select_tool_calls (agentId : string) (db : Db)
  : Outcome (list ToolCallRow.t) :=
  select tool_calls_rel db
    (order_by (fun a b => ToolCallRow.created_at a <=? ToolCallRow.created_at b)
              (tool_calls_of agentId db)).

(** The string the driver returns for a BIGINT column: its digits. *)
Definition int8_text (n : Z) : string := NilZero.string_of_int (Z.to_int n).

(** The number the digits of a text stand for. *)
Definition number_of (text : string) : Z :=
  match NilZero.int_of_string text with
  | Some d => Z.of_int d
  | None => 0
  end.

(** The object [rows.map] builds of a row.  [started_at], [completed_at],
    [created_at] and [updated_at] are BIGINT and arrive as strings; a string
    of digits is truthy, so [row.started_at || undefined] is [undefined] for
    NULL only.  [duration_ms] is INTEGER and arrives as a number. *)
Definition tool_call_of_row (row : ToolCallRow.t) : ToolCallRecord.loaded :=
  ToolCallRecord.mk (ToolCallRow.id row) (ToolCallRow.name row)
    (ToolCallRow.input row) (ToolCallRow.state row) (ToolCallRow.approval row)
    (or_null_json (ToolCallRow.result row))
    (or_null_str (ToolCallRow.error row))
    (ToolCallRow.is_error row)
    (option_map int8_text (ToolCallRow.started_at row))
    (option_map int8_text (ToolCallRow.completed_at row))
    (or_null_num (ToolCallRow.duration_ms row))
    (int8_text (ToolCallRow.created_at row))
    (int8_text (ToolCallRow.updated_at row))
    (ToolCallRow.audit_trail row).

Definition loadToolCallRecords_client (agentId : string)
  : Client (list ToolCallRecord.loaded) :=
  rows <- fetch (select_tool_calls agentId) ;;
  ret (map tool_call_of_row rows).

Definition loadToolCallRecords (agentId : string)
  : PostgresStore -> Outcome (list ToolCallRecord.loaded) * PostgresStore :=
  with_client (loadToolCallRecords_client agentId).

(** ** Snapshots *)

Definition snapshot_row (agentId : string) (snapshot : Snapshot.t)
  : SnapshotRow.t :=
  SnapshotRow.mk agentId (Snapshot.id snapshot)
    (jsonb (Snapshot.messages snapshot))
    (Snapshot.lastSfpIndex snapshot)
    (jsonb (Snapshot.lastBookmark snapshot))
    (Snapshot.createdAt snapshot)
    (stringify_if_truthy (Snapshot.metadata snapshot)).

Definition saveSnapshot (agentId : string) (snapshot : Snapshot.t)
  : PostgresStore -> Outcome unit * PostgresStore :=
  with_client (exec (upsert_snapshot (snapshot_row agentId snapshot))).

(** [created_at] is TIMESTAMP and arrives as a [Date]. *)
Definition snapshot_of_row (row : SnapshotRow.t) : Snapshot.loaded :=
  Snapshot.mk (SnapshotRow.snapshot_id row) (SnapshotRow.messages row)
    (SnapshotRow.last_sfp_index row) (SnapshotRow.last_bookmark row)
    (local_time (SnapshotRow.created_at row))
    (or_null_json (SnapshotRow.metadata row)).

(** [SELECT ... FROM snapshots WHERE agent_id = $1 AND snapshot_id = $2] *)
Definition select_snapshot (agentId snapshotId : string) (db : Db)
  : Outcome (list SnapshotRow.t) :=
  select snapshots_rel db
    (filter (snapshot_key agentId snapshotId) (snapshots db)).

Definition loadSnapshot_client (agentId snapshotId : string)
  : Client (option Snapshot.loaded) :=
  rows <- fetch (select_snapshot agentId snapshotId) ;;
  match rows with
  | [] => ret None
  | row :: _ => ret (Some (snapshot_of_row row))
  end.

Definition loadSnapshot (agentId snapshotId : string)
  : PostgresStore -> Outcome (option Snapshot.loaded) * PostgresStore :=
  with_client (loadSnapshot_client agentId snapshotId).

(** [SELECT ... FROM snapshots WHERE agent_id = $1 ORDER BY created_at DESC] *)
Definition select_snapshots (agentId : string) (db : Db)
  : Outcome (list SnapshotRow.t) :=
  select snapshots_rel db
    (order_by (fun a b =>
                 (SnapshotRow.created_at b <=? SnapshotRow.created_at a)%string)
              (snapshots_of agentId db)).

Definition listSnapshots_client (agentId : string)
  : Client (list Snapshot.loaded) :=
  rows <- fetch (select_snapshots agentId) ;;
  ret (map snapshot_of_row rows).

Definition listSnapshots (agentId : string)
  : PostgresStore -> Outcome (list Snapshot.loaded) * PostgresStore :=
  with_client (listSnapshots_client agentId).

(** ** Agent metadata *)

(** The row of [saveInfo]: its key is [info.agentId]; the [agentId] argument
    of the method is not used. *)
Definition agent_row (info : AgentInfo.t) : AgentRow.t :=
  AgentRow.mk (AgentInfo.agentId info) (AgentInfo.templateId info)
    (AgentInfo.createdAt info) (AgentInfo.configVersion info)
    (jsonb (AgentInfo.lineage info))
    (AgentInfo.messageCount info) (AgentInfo.lastSfpIndex info)
    (stringify_if_truthy (AgentInfo.lastBookmark info))
    (or_null_str (AgentInfo.breakpoint info))
    (jsonb (AgentInfo.metadata info)).

Definition saveInfo (agentId : string) (info : AgentInfo.t)
  : PostgresStore -> Outcome unit * PostgresStore :=
  with_client (exec (upsert_agent (agent_row info))).

(** [created_at] is TIMESTAMP and arrives as a [Date]. *)
Definition info_of_row (row : AgentRow.t) : AgentInfo.loaded :=
  AgentInfo.mk (AgentRow.agent_id row) (AgentRow.template_id row)
    (local_time (AgentRow.created_at row)) (AgentRow.config_version row)
    (AgentRow.lineage row)
    (AgentRow.message_count row) (AgentRow.last_sfp_index row)
    (or_null_json (AgentRow.last_bookmark row))
    (or_null_str (AgentRow.breakpoint row))
    (AgentRow.metadata row).

(** [SELECT ... FROM agents WHERE agent_id = $1] *)
Definition select_agent (agentId : string) (db : Db)
  : Outcome (list AgentRow.t) :=
  select agents_rel db (filter (agent_key agentId) (agents db)).

Definition loadInfo_client (agentId : string)
  : Client (option AgentInfo.loaded) :=
  rows <- fetch (select_agent agentId) ;;
  match rows with
  | [] => ret None
  | row :: _ => ret (Some (info_of_row row))
  end.

Definition loadInfo (agentId : string)
  : PostgresStore -> Outcome (option AgentInfo.loaded) * PostgresStore :=
  with_client (loadInfo_client agentId).

(** ** Life cycle *)

Definition exists_client (agentId : string) : Client bool :=
  rows <- fetch (select_agent agentId) ;;
  ret (0 <? Z.of_nat (List.length rows)).

Definition exists_ (agentId : string)
  : PostgresStore -> Outcome bool * PostgresStore :=
  with_client (exists_client agentId).

(** [delete]: the rows of the agent; the files of [fileStore.delete] are
    outside this development. *)
Definition delete (agentId : string)
  : PostgresStore -> Outcome unit * PostgresStore :=
  with_client (exec (delete_agent agentId)).

Definition by_created_at_desc (a b : AgentRow.t) : bool :=
  (AgentRow.created_at b <=? AgentRow.created_at a)%string.

(** [SELECT agent_id FROM agents ORDER BY created_at DESC] *)
Definition select_agent_ids (db : Db) : Outcome (list AgentRow.t) :=
  select agents_rel db (order_by by_created_at_desc (agents db)).

(** [SELECT agent_id FROM agents WHERE agent_id LIKE $1
     ORDER BY created_at DESC] *)
Definition select_agent_ids_like (pattern : string) (db : Db)
  : Outcome (list AgentRow.t) :=
  select agents_rel db
    (order_by by_created_at_desc
       (filter (fun a => like_match pattern (AgentRow.agent_id a))
               (agents db))).

(** [if (prefix)] takes neither [undefined] nor the empty string. *)
Definition list_client (prefix : option string) : Client (list string) :=
  rows <- fetch (match or_null_str prefix with
                 | Some p => select_agent_ids_like (p ++ "%")
                 | None => select_agent_ids
                 end) ;;
  ret (map AgentRow.agent_id rows).

Definition list_ (prefix : option string)
  : PostgresStore -> Outcome (list string) * PostgresStore :=
  with_client (list_client prefix).

(** ** Statistics *)

(** [SELECT COUNT( * ) as total FROM r WHERE agent_id = $1] *)
Definition count_rows {R : Type} (r : Relation) (rows : list R) (db : Db)
  : Outcome Z :=
  select r db (Z.of_nat (List.length rows)).

(** [SELECT key, COUNT( * ) as count FROM tool_calls WHERE agent_id = $1
     GROUP BY key] *)
Definition count_tool_calls_by (key : ToolCallRow.t -> string)
  (agentId : string) (db : Db) : Outcome (list (string * Z)) :=
  select tool_calls_rel db (group_count (map key (tool_calls_of agentId db))).

(** An own property [k] of a plain object set to [n]: replaced where it is,
    added at the end otherwise. *)
Fixpoint define_property (k : string) (n : Z) (acc : list (string * Z))
  : list (string * Z) :=
  match acc with
  | [] => [(k, n)]
  | (k', n') :: r =>
      if (k' =? k)%string then (k', n) :: r
      else (k', n') :: define_property k n r
  end.

(** [acc[k] = n] on an object made by [{}], [n] a number.  The key
    [__proto__] is the accessor of [Object.prototype]: its setter takes the
    assignment, ignores a number, and the object gets no property. *)
Definition set_property (k : string) (n : Z) (acc : list (string * Z))
  : list (string * Z) :=
  if (k =? "__proto__")%string then acc else define_property k n acc.

(** [rows.reduce((acc, row) => { acc[row.key] = parseInt(row.count);
     return acc; }, {})] *)
Definition reduce_counts (rows : list (string * Z)) : list (string * Z) :=
  fold_left (fun acc row => set_property (fst row) (snd row) acc) rows [].

Definition aggregateStats_client (agentId : string) : Client AgentStats :=
  messageStats <-
    fetch (fun db => count_rows messages_rel (messages_of agentId db) db) ;;
  toolCallStats <-
    fetch (fun db => count_rows tool_calls_rel (tool_calls_of agentId db) db) ;;
  snapshotStats <-
    fetch (fun db => count_rows snapshots_rel (snapshots_of agentId db) db) ;;
  toolCallsByName <- fetch (count_tool_calls_by ToolCallRow.name agentId) ;;
  toolCallsByState <- fetch (count_tool_calls_by ToolCallRow.state agentId) ;;
  ret (mkAgentStats messageStats toolCallStats snapshotStats messageStats
         (reduce_counts toolCallsByName) (reduce_counts toolCallsByState)).

Definition aggregateStats (agentId : string)
  : PostgresStore -> Outcome AgentStats * PostgresStore :=
  with_client (aggregateStats_client agentId).

(* ================================================================== *)
(** * The query layer

    [querySessions], [queryMessages] and [queryToolCalls] each send one
    SELECT on a client of their own, built from the filters that are truthy.
    They write nothing, so each is a function of the store; what they throw
    is wider than what the writes throw. *)

(** The filters of store.ts.  [userId] of [SessionFilters] is not read by the
    store and is left out. *)
Inductive SortKey : Type :=
| sort_created_at
| sort_updated_at
| sort_message_count.

Inductive SortOrder : Type :=
| asc
| desc.

Module SessionFilters.
Record t : Type := mk {
  agentId : option string;
  templateId : option string;
  startDate : option Z;
  endDate : option Z;
  limit : option Z;
  offset : option Z;
  sortBy : option SortKey;
  sortOrder : option SortOrder
}.
End SessionFilters.

Module MessageFilters.
Record t : Type := mk {
  agentId : option string;
  role : option string;
  startDate : option Z;
  endDate : option Z;
  limit : option Z;
  offset : option Z
}.
End MessageFilters.

Module ToolCallFilters.
Record t : Type := mk {
  agentId : option string;
  toolName : option string;
  state : option string;
  startDate : option Z;
  endDate : option Z;
  limit : option Z;
  offset : option Z
}.
End ToolCallFilters.

Module SessionInfo.
Record t : Type := mk {
  agentId : string;
  templateId : string;
  createdAt : Date;
  messageCount : Z;
  lastSfpIndex : Z;
  breakpoint : option string
}.
End SessionInfo.

(** What a query can throw: an error of the server, among them those the
    statements of the writes do not meet, or the [RangeError] of
    [Date.prototype.toISOString]. *)
Inductive QueryError : Type :=
| server_error (e : PgError)
| undefined_column (name : string)   (* 42703 *)
| invalid_limit                      (* 2201W: LIMIT must not be negative *)
| invalid_offset                     (* 2201X: OFFSET must not be negative *)
| RangeError.                        (* Invalid time value *)

Inductive Result (A : Type) : Type :=
| Return (a : A)
| Raise (e : QueryError).
Arguments Return {A} a.
Arguments Raise {A} e.

(** ** [new Date(ms).toISOString()] *)

Definition digit (n : Z) : ascii := ascii_of_nat (48 + Z.to_nat (n mod 10)).

(** The last [width] decimal digits of [n], leading zeros kept. *)
Fixpoint digits (width : nat) (n : Z) : string :=
  match width with
  | O => EmptyString
  | S w => (digits w (n / 10) ++ String (digit n) EmptyString)%string
  end.

(** Year, month and day of a day number counted from 1970-01-01, in the
    proleptic Gregorian calendar. *)
Definition civil_from_days (day : Z) : Z * Z * Z :=
  let z := day + 719468 in
  let era := z / 146097 in
  let doe := z - era * 146097 in
  let yoe := (doe - doe / 1460 + doe / 36524 - doe / 146096) / 365 in
  let doy := doe - (365 * yoe + yoe / 4 - yoe / 100) in
  let mp := (5 * doy + 2) / 153 in
  let d := doy - (153 * mp + 2) / 5 + 1 in
  let m := if mp <? 10 then mp + 3 else mp - 9 in
  let y := yoe + era * 400 + (if m <=? 2 then 1 else 0) in
  (y, m, d).

(** [None] is the [RangeError] of a time value outside +-8.64e15. *)
Definition toISOString (ms : Z) : option string :=
  if (ms <? -8640000000000000) || (8640000000000000 <? ms) then None
  else
    let day := ms / 86400000 in
    let t := ms mod 86400000 in
    let '(y, m, d) := civil_from_days day in
    let year :=
      if (0 <=? y) && (y <=? 9999) then digits 4 y
      else if y <? 0 then ("-" ++ digits 6 (- y))%string
      else ("+" ++ digits 6 y)%string in
    Some (year ++ "-" ++ digits 2 m ++ "-" ++ digits 2 d ++ "T"
          ++ digits 2 (t / 3600000) ++ ":" ++ digits 2 (t / 60000 mod 60)
          ++ ":" ++ digits 2 (t / 1000 mod 60) ++ "."
          ++ digits 3 (t mod 1000) ++ "Z")%string.

(** ** Clauses *)

(** [if (filters.x) { sql += ' AND column = $n'; params.push(filters.x) }] *)
Definition where_eq (x : option string) (column : string) : bool :=
  match or_null_str x with
  | Some v => (column =? v)%string
  | None => true
  end.

(** [created_at >= $n] and [created_at <= $n] on a BIGINT column. *)
Definition where_from (x : option Z) (column : Z) : bool :=
  match or_null_num x with Some v => v <=? column | None => true end.

Definition where_until (x : option Z) (column : Z) : bool :=
  match or_null_num x with Some v => column <=? v | None => true end.

(** The same on a TIMESTAMP column, given the date as the text of
    [toISOString]: the order of the texts, as for the [created_at] the store
    writes.  It is the order in time for the years of four digits. *)
Definition where_from_date (x : option string) (column : string) : bool :=
  match x with Some v => (v <=? column)%string | None => true end.

Definition where_until_date (x : option string) (column : string) : bool :=
  match x with Some v => (column <=? v)%string | None => true end.

(** The parameter of a date filter of [querySessions]: none when the filter
    is absent or 0, [None] when [toISOString] throws. *)
Definition date_param (x : option Z) : option (option string) :=
  match or_null_num x with
  | None => Some None
  | Some ms =>
      match toISOString ms with
      | Some text => Some (Some text)
      | None => None
      end
  end.

(** The integer parameters a query binds: the dates it is given and, when
    [filters.limit] is there, the limit and the offset. *)
Definition number_param (x : option Z) : list Z :=
  match or_null_num x with Some n => [n] | None => [] end.

Definition page_params (limit offset : option Z) : list Z :=
  match or_null_num limit with
  | Some n => n :: number_param offset
  | None => []
  end.

(** [if (filters.limit) { LIMIT $n; if (filters.offset) { OFFSET $m } }] *)
Definition paginate {R : Type} (limit offset : option Z) (rows : list R)
  : Result (list R) :=
  match or_null_num limit with
  | None => Return rows
  | Some n =>
      match or_null_num offset with
      | None =>
          if n <? 0 then Raise invalid_limit
          else Return (firstn (Z.to_nat n) rows)
      | Some k =>
          if k <? 0 then Raise invalid_offset
          else if n <? 0 then Raise invalid_limit
          else Return (firstn (Z.to_nat n) (skipn (Z.to_nat k) rows))
      end
  end.

(** A SELECT of the query layer: the relation must exist, the integer
    parameters must fit BIGINT, then the rows are filtered, ordered and
    cut. *)
Definition select_page {R : Type} (relation : Relation) (params : list Z)
  (limit offset : option Z) (rows : list R) (db : Db) : Result (list R) :=
  if negb (has_relation relation db)
  then Raise (server_error (undefined_table relation))
  else if negb (forallb int8 params)
  then Raise (server_error numeric_value_out_of_range)
  else paginate limit offset rows.

(** ** [querySessions] *)

Definition session_matches (f : SessionFilters.t) (from_ until_ : option string)
  (a : AgentRow.t) : bool :=
  where_eq (SessionFilters.agentId f) (AgentRow.agent_id a)
  && where_eq (SessionFilters.templateId f) (AgentRow.template_id a)
  && where_from_date from_ (AgentRow.created_at a)
  && where_until_date until_ (AgentRow.created_at a).

(** [ORDER BY ${sortBy} ${sortOrder.toUpperCase()}], on a column of
    [agents]; there is no column [updated_at]. *)
Definition session_order (key : SortKey) (order : SortOrder)
  : option (AgentRow.t -> AgentRow.t -> bool) :=
  match key, order with
  | sort_created_at, asc =>
      Some (fun a b => (AgentRow.created_at a <=? AgentRow.created_at b)%string)
  | sort_created_at, desc =>
      Some (fun a b => (AgentRow.created_at b <=? AgentRow.created_at a)%string)
  | sort_message_count, asc =>
      Some (fun a b => AgentRow.message_count a <=? AgentRow.message_count b)
  | sort_message_count, desc =>
      Some (fun a b => AgentRow.message_count b <=? AgentRow.message_count a)
  | sort_updated_at, _ => None
  end.

Definition session_of_row (row : AgentRow.t) : SessionInfo.t :=
  SessionInfo.mk (AgentRow.agent_id row) (AgentRow.template_id row)
    (local_time (AgentRow.created_at row)) (AgentRow.message_count row)
    (AgentRow.last_sfp_index row) (AgentRow.breakpoint row).

Definition select_sessions (f : SessionFilters.t) (from_ until_ : option string)
  (db : Db) : Result (list AgentRow.t) :=
  let sortBy :=
    match SessionFilters.sortBy f with Some k => k | None => sort_created_at end in
  let sortOrder :=
    match SessionFilters.sortOrder f with Some o => o | None => desc end in
  if negb (has_relation agents_rel db)
  then Raise (server_error (undefined_table agents_rel))
  else
    match session_order sortBy sortOrder with
    | None => Raise (undefined_column "updated_at")
    | Some le =>
        select_page agents_rel
          (page_params (SessionFilters.limit f) (SessionFilters.offset f))
          (SessionFilters.limit f) (SessionFilters.offset f)
          (order_by le (filter (session_matches f from_ until_) (agents db)))
          db
    end.

Definition querySessions (filters : SessionFilters.t) (st : PostgresStore)
  : Result (list SessionInfo.t) :=
  match date_param (SessionFilters.startDate filters),
        date_param (SessionFilters.endDate filters) with
  | Some from_, Some until_ =>
      match select_sessions filters from_ until_ (pool st) with
      | Return rows => Return (map session_of_row rows)
      | Raise e => Raise e
      end
  | _, _ => Raise RangeError
  end.

(** ** [queryMessages] *)

Definition message_matches (f : MessageFilters.t) (m : MessageRow.t) : bool :=
  where_eq (MessageFilters.agentId f) (MessageRow.agent_id m)
  && where_eq (MessageFilters.role f) (MessageRow.role m)
  && where_from (MessageFilters.startDate f) (MessageRow.created_at m)
  && where_until (MessageFilters.endDate f) (MessageRow.created_at m).

Definition select_messages_where (f : MessageFilters.t) (db : Db)
  : Result (list MessageRow.t) :=
  select_page messages_rel
    (number_param (MessageFilters.startDate f)
     ++ number_param (MessageFilters.endDate f)
     ++ page_params (MessageFilters.limit f) (MessageFilters.offset f))
    (MessageFilters.limit f) (MessageFilters.offset f)
    (order_by (fun a b => MessageRow.created_at b <=? MessageRow.created_at a)
              (filter (message_matches f) (messages db)))
    db.

Definition queryMessages (filters : MessageFilters.t) (st : PostgresStore)
  : Result (list Message.t) :=
  match select_messages_where filters (pool st) with
  | Return rows => Return (map message_of_row rows)
  | Raise e => Raise e
  end.

(** ** [queryToolCalls] *)

Definition tool_call_matches (f : ToolCallFilters.t) (c : ToolCallRow.t)
  : bool :=
  where_eq (ToolCallFilters.agentId f) (ToolCallRow.agent_id c)
  && where_eq (ToolCallFilters.toolName f) (ToolCallRow.name c)
  && where_eq (ToolCallFilters.state f) (ToolCallRow.state c)
  && where_from (ToolCallFilters.startDate f) (ToolCallRow.created_at c)
  && where_until (ToolCallFilters.endDate f) (ToolCallRow.created_at c).

Definition select_tool_calls_where (f : ToolCallFilters.t) (db : Db)
  : Result (list ToolCallRow.t) :=
  select_page tool_calls_rel
    (number_param (ToolCallFilters.startDate f)
     ++ number_param (ToolCallFilters.endDate f)
     ++ page_params (ToolCallFilters.limit f) (ToolCallFilters.offset f))
    (ToolCallFilters.limit f) (ToolCallFilters.offset f)
    (order_by (fun a b => ToolCallRow.created_at b <=? ToolCallRow.created_at a)
              (filter (tool_call_matches f) (tool_calls db)))
    db.

Definition queryToolCalls (filters : ToolCallFilters.t) (st : PostgresStore)
  : Result (list ToolCallRecord.loaded) :=
  match select_tool_calls_where filters (pool st) with
  | Return rows => Return (map tool_call_of_row rows)
  | Raise e => Raise e
  end.

(* ================================================================== *)
(** * Notions the statements below are written with *)

(** The rows the loop of [saveMessages] inserts, from [index] on. *)
Fixpoint message_rows (env : nat -> Draw) (agentId : string) (index : nat)
  (messages : list Message.t) : list MessageRow.t :=
  match messages with
  | [] => []
  | msg :: rest =>
      message_row (env index) agentId index msg
      :: message_rows env agentId (S index) rest
  end.

Fixpoint insert_rows (rows : list MessageRow.t) (db : Db) : Outcome Db :=
  match rows with
  | [] => Ok db
  | r :: rest =>
      match insert_message r db with
      | Ok db' => insert_rows rest db'
      | Throw e => Throw e
      end
  end.

(** What the transaction of [saveMessages] does to the relations when no
    statement fails. *)
Definition saveMessages_plan (env : nat -> Draw) (agentId : string)
  (messages : list Message.t) (db : Db) : Outcome Db :=
  match delete_messages agentId db with
  | Throw e => Throw e
  | Ok db1 =>
      match insert_rows (message_rows env agentId 0 messages) db1 with
      | Throw e => Throw e
      | Ok db2 =>
          update_message_count (Z.of_nat (List.length messages)) agentId db2
      end
  end.

(** A message as the relation keeps it: documents in canonical form. *)
Definition canonical_message (m : Message.t) : Message.t :=
  Message.mk (Message.role m) (jsonb (Message.content m))
             (stringify_if_truthy (Message.metadata m)).

Definition is_object (v : json) : bool :=
  match v with JObj _ => true | _ => false end.

Definition opt_object (x : option json) : bool :=
  match x with Some v => is_object v | None => true end.

(** The declared type of [Message.metadata]: an object, when present. *)
Definition message_typed (m : Message.t) : bool :=
  opt_object (Message.metadata m).

Definition opt_eqv (a b : option json) : Prop :=
  match a, b with
  | Some x, Some y => json_eqv x y
  | None, None => True
  | _, _ => False
  end.

(** Equality of messages: the role, and structurally identical documents. *)
Definition message_eqv (a b : Message.t) : Prop :=
  Message.role a = Message.role b
  /\ json_eqv (Message.content a) (Message.content b)
  /\ opt_eqv (Message.metadata a) (Message.metadata b).



(** The four relations exist. *)
Definition schema_ready (db : Db) : bool :=
  has_relation agents_rel db && has_relation messages_rel db
  && has_relation tool_calls_rel db && has_relation snapshots_rel db.

(** The foreign keys of [messages], [tool_calls] and [snapshots]. *)
Definition fk_ok (db : Db) : bool :=
  forallb (fun m => agent_exists (MessageRow.agent_id m) db) (messages db)
  && forallb (fun c => agent_exists (ToolCallRow.agent_id c) db) (tool_calls db)
  && forallb (fun s => agent_exists (SnapshotRow.agent_id s) db) (snapshots db).

Definition sum_counts (groups : list (string * Z)) : Z :=
  fold_right (fun g acc => snd g + acc) 0 groups.

(** The groups that become properties of the object [reduce] builds: all
    but the one of the key [__proto__]. *)
Definition own_groups (rows : list (string * Z)) : list (string * Z) :=
  filter (fun g => negb (fst g =? "__proto__")%string) rows.

(** No tool call of the agent has the name or the state [__proto__]. *)
Definition plain_groups (agentId : string) (db : Db) : bool :=
  forallb (fun c => negb (ToolCallRow.name c =? "__proto__")%string
                    && negb (ToolCallRow.state c =? "__proto__")%string)
          (tool_calls_of agentId db).

(** The count a grouping holds for a key. *)
Definition count_for (k : string) (groups : list (string * Z)) : Z :=
  fold_right (fun g acc => if (fst g =? k)%string then snd g + acc else acc)
             0 groups.

Fixpoint insert_tool_call_rows (rows : list ToolCallRow.t) (db : Db)
  : Outcome Db :=
  match rows with
  | [] => Ok db
  | r :: rest =>
      match insert_tool_call r db with
      | Ok db' => insert_tool_call_rows rest db'
      | Throw e => Throw e
      end
  end.

(** What the transaction of [saveToolCallRecords] does when no statement
    fails. *)
Definition saveToolCallRecords_plan (agentId : string)
  (records : list ToolCallRecord.t) (db : Db) : Outcome Db :=
  match delete_tool_calls agentId db with
  | Throw e => Throw e
  | Ok db1 => insert_tool_call_rows (map (tool_call_row agentId) records) db1
  end.

(** A property of the relations that holds of what a session has committed
    and of its uncommitted view. *)
Definition session_inv (P : Db -> Prop) (s : Session) : Prop :=
  P (committed s) /\ match tx s with InTx w => P w | _ => True end.

(** Code that keeps such a property, and a statement that does. *)
Definition keeps (P : Db -> Prop) {A : Type} (m : Client A) : Prop :=
  forall s, session_inv P s -> session_inv P (snd (m s)).

Definition stmt_keeps (P : Db -> Prop) (stmt : Db -> Outcome Db) : Prop :=
  forall db db', P db -> stmt db = Ok db' -> P db'.

Definition foreign_keys (db : Db) : Prop := fk_ok db = true.

(** The states of the store: a fresh server, a new process over the server
    of an earlier one, and what the initialisation and the writes make of a
    state. *)
Inductive reachable : PostgresStore -> Prop :=
| reach_new : reachable (constructor empty_db)
| reach_restart st : reachable st -> reachable (constructor (pool st))
| reach_settle st : reachable st -> reachable (settle st)
| reach_saveInfo st agentId info :
    reachable st -> reachable (snd (saveInfo agentId info st))
| reach_saveMessages st env agentId msgs :
    reachable st -> reachable (snd (saveMessages env agentId msgs st))
| reach_saveToolCallRecords st agentId records :
    reachable st -> reachable (snd (saveToolCallRecords agentId records st))
| reach_saveSnapshot st agentId snapshot :
    reachable st -> reachable (snd (saveSnapshot agentId snapshot st))
| reach_delete st agentId :
    reachable st -> reachable (snd (delete agentId st)).

(** The characters LIKE does not take literally. *)
Definition wildcard (c : ascii) : bool :=
  (c =? "%")%char || (c =? "_")%char || (c =? "\")%char.

Fixpoint literal (p : string) : bool :=
  match p with
  | EmptyString => true
  | String c rest => negb (wildcard c) && literal rest
  end.



(** ** Notions of the further properties *)

(** What [createTables] makes of the relations. *)
Definition createTables_plan (db : Db) : Db :=
  add_relation snapshots_rel
    (add_relation tool_calls_rel
       (add_relation messages_rel (add_relation agents_rel db))).

(** The key of a snapshot, and the pair the unique index of [messages] is
    on. *)
Definition snapshot_id_of (s : SnapshotRow.t) : string * string :=
  (SnapshotRow.agent_id s, SnapshotRow.snapshot_id s).

Definition agent_seq (m : MessageRow.t) : string * Z :=
  (MessageRow.agent_id m, MessageRow.seq m).

(** The primary keys of the four relations. *)
Definition primary_keys (db : Db) : Prop :=
  NoDup (map AgentRow.agent_id (agents db))
  /\ NoDup (map MessageRow.id (messages db))
  /\ NoDup (map ToolCallRow.id (tool_calls db))
  /\ NoDup (map snapshot_id_of (snapshots db)).

(** What the unique index on [(agent_id, seq)] asks of [messages]. *)
Definition sequence_unique (db : Db) : Prop :=
  NoDup (map agent_seq (messages db)).

(** [info] with another [messageCount]. *)
Definition with_messageCount {D : Type} (n : Z) (info : AgentInfo.with_date D)
  : AgentInfo.with_date D :=
  AgentInfo.mk (AgentInfo.agentId info) (AgentInfo.templateId info)
    (AgentInfo.createdAt info) (AgentInfo.configVersion info)
    (AgentInfo.lineage info) n (AgentInfo.lastSfpIndex info)
    (AgentInfo.lastBookmark info) (AgentInfo.breakpoint info)
    (AgentInfo.metadata info).

(** A snapshot read back against the one given: equal on every field, but
    for [createdAt], which is the [Date] of the text given. *)
Definition snapshot_eqv (a : Snapshot.loaded) (b : Snapshot.t) : Prop :=
  Snapshot.id a = Snapshot.id b
  /\ json_eqv (Snapshot.messages a) (Snapshot.messages b)
  /\ Snapshot.lastSfpIndex a = Snapshot.lastSfpIndex b
  /\ json_eqv (Snapshot.lastBookmark a) (Snapshot.lastBookmark b)
  /\ Snapshot.createdAt a = local_time (Snapshot.createdAt b)
  /\ opt_eqv (Snapshot.metadata a) (Snapshot.metadata b).

(** Agents latest first, and messages latest first. *)
Definition newest_first (a b : AgentRow.t) : Prop :=
  (AgentRow.created_at b <=? AgentRow.created_at a)%string = true.

Definition newest_message_first (a b : MessageRow.t) : Prop :=
  MessageRow.created_at b <= MessageRow.created_at a.

(** The order [sortBy] and [sortOrder] ask for; [created_at] and [desc] when
    they are left out. *)
Definition session_sorted (key : option SortKey) (order : option SortOrder)
  (a b : SessionInfo.t) : Prop :=
  match key, order with
  | Some sort_message_count, Some asc =>
      SessionInfo.messageCount a <= SessionInfo.messageCount b
  | Some sort_message_count, _ =>
      SessionInfo.messageCount b <= SessionInfo.messageCount a
  | Some sort_updated_at, _ => False
  | _, Some asc =>
      (timestamp (SessionInfo.createdAt a)
       <=? timestamp (SessionInfo.createdAt b))%string = true
  | _, _ =>
      (timestamp (SessionInfo.createdAt b)
       <=? timestamp (SessionInfo.createdAt a))%string = true
  end.

(** A time value [Date] can hold. *)
Definition time_value (ms : Z) : bool :=
  (-8640000000000000 <=? ms) && (ms <=? 8640000000000000).

(* ================================================================== *)
(** * Worked values

    The values of tests/unit/infra/db/postgres-store.test.ts. *)

(** A store on a fresh server, its initialisation settled. *)
Definition ready_store : PostgresStore := settle (constructor empty_db).

Definition test_info (agentId : string) : AgentInfo.t :=
  AgentInfo.mk agentId "test-template" "2024-05-01T10:00:00.000Z" "v2.7.0"
    (JArr []) 0 (-1) None None (JObj []).


Definition text_block (text : string) : json :=
  JArr [JObj [("type", JStr "text"); ("text", JStr text)]].

Definition test_messages : list Message.t :=
  [ Message.mk "user" (text_block "Hello") None;
    Message.mk "assistant" (text_block "Hi there!") None;
    Message.mk "user" (text_block "How are you?") None ].

(** A clock that stands still and a random suffix that differs each turn. *)
Definition test_env (index : nat) : Draw :=
  mkDraw 1714557600000 (NilZero.string_of_uint (Nat.to_uint index))
         1714557600000.

(** The store after [saveInfo] of agent [agt:pg_test003]. *)
Definition store_with_agent : PostgresStore :=
  snd (saveInfo "agt:pg_test003" (test_info "agt:pg_test003") ready_store).

Definition test_record : ToolCallRecord.t :=
  ToolCallRecord.mk "call_pg_001" "fs_read"
    (JObj [("path", JStr "/test.txt")]) "COMPLETED"
    (JObj [("required", JBool false)])
    (Some (JObj [("content", JStr "file content")])) None (Some false)
    (Some 1714557600000) (Some 1714557600000) (Some 0)
    1714557600000 1714557600000
    (JArr [JObj [("state", JStr "PENDING"); ("timestamp", JNum 1714557600000)];
           JObj [("state", JStr "COMPLETED");
                 ("timestamp", JNum 1714557600000)]]).

Definition test_snapshot : Snapshot.t :=
  Snapshot.mk "snap:pg_001" (JArr []) 0
    (JObj [("seq", JNum 1); ("timestamp", JNum 1714557600000)])
    "2024-05-01T10:00:00.000Z" None.

(** The store with messages, a tool call and a snapshot of the agent. *)
Definition store_with_history : PostgresStore :=
  snd (saveSnapshot "agt:pg_test003" test_snapshot
    (snd (saveToolCallRecords "agt:pg_test003" [test_record]
      (snd (saveMessages test_env "agt:pg_test003" test_messages
              store_with_agent))))).

(** A second agent, created a day later, with two messages, two tool calls
    and a snapshot of its own. *)
Definition other_info : AgentInfo.t :=
  AgentInfo.mk "agt:pg_test004" "test-template" "2024-05-02T10:00:00.000Z"
    "v2.7.0" (JArr [JStr "agt:pg_test003"]) 0 (-1) None None (JObj []).

Definition other_messages : list Message.t :=
  [ Message.mk "user" (text_block "List the files") None;
    Message.mk "assistant" (text_block "Two files") None ].

Definition other_env (index : nat) : Draw :=
  mkDraw 1714644000000 (NilZero.string_of_uint (Nat.to_uint index))
         1714644000000.

Definition grep_record : ToolCallRecord.t :=
  ToolCallRecord.mk "call_pg_002" "fs_grep"
    (JObj [("pattern", JStr "TODO")]) "COMPLETED"
    (JObj [("required", JBool false)])
    (Some (JObj [("matches", JNum 2)])) None (Some false)
    (Some 1714644000000) (Some 1714644000150) (Some 150)
    1714644000000 1714644000150
    (JArr [JObj [("state", JStr "COMPLETED");
                 ("timestamp", JNum 1714644000150)]]).

Definition write_record : ToolCallRecord.t :=
  ToolCallRecord.mk "call_pg_003" "fs_write"
    (JObj [("path", JStr "/out.txt")]) "FAILED"
    (JObj [("required", JBool true)])
    None (Some "EACCES") (Some true)
    (Some 1714644000200) (Some 1714644000220) (Some 20)
    1714644000200 1714644000220
    (JArr [JObj [("state", JStr "FAILED");
                 ("timestamp", JNum 1714644000220)]]).

Definition other_snapshot : Snapshot.t :=
  Snapshot.mk "snap:pg_002" (JArr []) 1
    (JObj [("seq", JNum 2); ("timestamp", JNum 1714644000000)])
    "2024-05-02T10:00:00.000Z" None.

(** The second agent with its messages, before its tool calls are saved. *)
Definition store_with_second_agent : PostgresStore :=
  snd (saveMessages other_env "agt:pg_test004" other_messages
    (snd (saveInfo "agt:pg_test004" other_info store_with_history))).

(** The store with both agents and all they own. *)
Definition store_with_two_agents : PostgresStore :=
  snd (saveSnapshot "agt:pg_test004" other_snapshot
    (snd (saveToolCallRecords "agt:pg_test004" [grep_record; write_record]
            store_with_second_agent))).

(** A tool whose name is [__proto__]. *)
Definition proto_record : ToolCallRecord.t :=
  ToolCallRecord.mk "call_pg_004" "__proto__"
    (JObj []) "COMPLETED" (JObj [("required", JBool false)])
    (Some (JObj [])) None (Some false)
    (Some 1714557600000) (Some 1714557600010) (Some 10)
    1714557600000 1714557600010 (JArr []).

(* ================================================================== *)
(** * Properties *)

Local Open Scope list_scope.

(** * Documents *)

Section JsonInduction.
Variable P : json -> Prop.
Hypothesis P_null : P JNull.
Hypothesis P_bool : forall b, P (JBool b).
Hypothesis P_num : forall n, P (JNum n).
Hypothesis P_str : forall s, P (JStr s).
Hypothesis P_arr : forall items, Forall P items -> P (JArr items).
Hypothesis P_obj :
  forall members, Forall (fun kv => P (snd kv)) members -> P (JObj members).

Fixpoint json_nested_ind (v : json) : P v :=
  match v with
  | JNull => P_null
  | JBool b => P_bool b
  | JNum n => P_num n
  | JStr s => P_str s
  | JArr items =>
      P_arr items
        ((fix all (l : list json) : Forall P l :=
            match l with
            | [] => Forall_nil P
            | x :: r => Forall_cons x (json_nested_ind x) (all r)
            end) items)
  | JObj members =>
      P_obj members
        ((fix all (l : list (string * json))
            : Forall (fun kv => P (snd kv)) l :=
            match l with
            | [] => Forall_nil _
            | kv :: r => Forall_cons kv (json_nested_ind (snd kv)) (all r)
            end) members)
  end.
End JsonInduction.

Lemma key_cmp_eq a b : key_cmp a b = Eq -> a = b.
Proof.
  unfold key_cmp.
  destruct (Nat.compare (String.length a) (String.length b)); try discriminate.
  apply String.compare_eq_iff.
Qed.

Lemma key_cmp_gt_lt a b : key_cmp a b = Gt -> key_cmp b a = Lt.
Proof.
  unfold key_cmp.
  rewrite (Nat.compare_antisym (String.length a) (String.length b)).
  rewrite (String.compare_antisym b a).
  destruct (Nat.compare (String.length a) (String.length b)); simpl;
    try discriminate; try reflexivity.
  destruct (String.compare a b); simpl; try discriminate; reflexivity.
Qed.

Lemma kv_add_head k v l x :
  HdRel key_lt x l -> key_cmp k (fst x) = Gt -> HdRel key_lt x (kv_add k v l).
Proof.
  intros Hl Hk. destruct l as [|[k' v'] r]; simpl.
  - constructor. apply key_cmp_gt_lt, Hk.
  - inversion Hl; subst.
    destruct (key_cmp k k'); constructor; try assumption.
    apply key_cmp_gt_lt, Hk.
Qed.

Lemma kv_add_sorted k v l : Sorted key_lt l -> Sorted key_lt (kv_add k v l).
Proof.
  induction 1 as [|[k' v'] r Hr IH Hhd]; simpl.
  - repeat constructor.
  - destruct (key_cmp k k') eqn:E.
    + constructor; assumption.
    + constructor; [constructor; assumption | constructor; exact E].
    + constructor; [exact IH | apply kv_add_head; assumption].
Qed.

Lemma obj_of_sorted l : Sorted key_lt (obj_of l).
Proof.
  induction l as [|kv l IH]; simpl; [constructor | apply kv_add_sorted, IH].
Qed.

Lemma obj_of_sorted_id l : Sorted key_lt l -> obj_of l = l.
Proof.
  induction 1 as [|[k v] r Hr IH Hhd]; simpl; [reflexivity|].
  rewrite IH. destruct Hhd as [|[k' v'] r' Hlt]; simpl; [reflexivity|].
  unfold key_lt in Hlt; simpl in Hlt. rewrite Hlt. reflexivity.
Qed.

Lemma kv_add_on_values f k v l :
  kv_add k (f v) (on_values f l) = on_values f (kv_add k v l).
Proof.
  induction l as [|[k' v'] r IH]; simpl; [reflexivity|].
  destruct (key_cmp k k'); simpl; try reflexivity.
  f_equal. exact IH.
Qed.

Lemma obj_of_on_values f l : obj_of (on_values f l) = on_values f (obj_of l).
Proof.
  induction l as [|[k v] r IH]; simpl; [reflexivity|].
  rewrite IH. apply kv_add_on_values.
Qed.

Lemma on_values_sorted f l : Sorted key_lt l -> Sorted key_lt (on_values f l).
Proof.
  induction 1 as [|[k v] r Hr IH Hhd]; simpl; constructor; try assumption.
  destruct Hhd as [|[k' v'] r' Hlt]; simpl; constructor. exact Hlt.
Qed.

Lemma on_values_fix f l :
  Forall (fun kv => f (f (snd kv)) = f (snd kv)) l ->
  on_values f (on_values f l) = on_values f l.
Proof.
  induction 1 as [|[k v] r Hx Hr IH]; simpl; [reflexivity|].
  simpl in Hx. rewrite Hx. f_equal. exact IH.
Qed.

(** The canonical form is a fixed point of [jsonb]. *)
Lemma jsonb_idempotent v : jsonb (jsonb v) = jsonb v.
Proof.
  induction v as [| | | |items IH|members IH] using json_nested_ind;
    simpl; try reflexivity.
  - f_equal. rewrite map_map. apply map_ext_Forall. exact IH.
  - f_equal.
    rewrite <- obj_of_on_values, on_values_fix by exact IH.
    apply obj_of_sorted_id, obj_of_sorted.
Qed.

Lemma jsonb_eqv v : json_eqv (jsonb v) v.
Proof. apply jsonb_idempotent. Qed.

Lemma truthy_jsonb v : truthy (jsonb v) = truthy v.
Proof. destruct v; reflexivity. Qed.

Lemma is_object_truthy v : is_object v = true -> truthy v = true.
Proof. destruct v; simpl; intros H; try discriminate; reflexivity. Qed.

Lemma or_null_stringify x :
  or_null_json (stringify_if_truthy x) = stringify_if_truthy x.
Proof.
  destruct x as [v|]; simpl; [|reflexivity].
  destruct (truthy v) eqn:E; simpl; [|reflexivity].
  rewrite truthy_jsonb, E. reflexivity.
Qed.

Lemma stringify_typed x :
  opt_object x = true -> opt_eqv (stringify_if_truthy x) x.
Proof.
  destruct x as [v|]; simpl; [|trivial].
  intros H. rewrite (is_object_truthy v H). simpl. apply jsonb_eqv.
Qed.

Section OrderByFacts.
Context {A : Type} (le : A -> A -> bool).

Lemma insert_by_perm x l : Permutation (insert_by le x l) (x :: l).
Proof.
  induction l as [|y r IH]; simpl; [reflexivity|].
  destruct (le x y); [reflexivity|].
  rewrite IH. apply perm_swap.
Qed.

Lemma order_by_perm l : Permutation (order_by le l) l.
Proof.
  induction l as [|x r IH]; simpl; [constructor|].
  rewrite insert_by_perm. constructor. exact IH.
Qed.

Lemma order_by_length l : List.length (order_by le l) = List.length l.
Proof. apply Permutation_length, order_by_perm. Qed.

(** Rows that are already in order come back as they are. *)
Lemma order_by_sorted l :
  Sorted (fun a b => le a b = true) l -> order_by le l = l.
Proof.
  induction 1 as [|x r Hr IH Hhd]; simpl; [reflexivity|].
  rewrite IH. destruct Hhd as [|y r' Hxy]; simpl; [reflexivity|].
  rewrite Hxy. reflexivity.
Qed.
End OrderByFacts.

(** * Sessions *)

Lemma repeat_shift {A : Type} (x : A) n l :
  repeat x n ++ x :: l = x :: repeat x n ++ l.
Proof. induction n as [|n IH]; simpl; [reflexivity | now rewrite IH]. Qed.

Lemma with_client_eq {A : Type} (body : Client A) (st : PostgresStore) :
  with_client body st
  = (fst (body (connect st)),
     mkStore (committed (snd (body (connect st)))) (init st)).
Proof. unfold with_client. destruct (body (connect st)); reflexivity. Qed.

(** The loop of [saveMessages], inside a transaction, is [insert_rows] on the
    uncommitted view; what other sessions read does not move. *)
Lemma insert_messages_run env agentId messages :
  forall index c w log,
  exists k,
    insert_messages env agentId index messages (mkSession c (InTx w) log)
    = match insert_rows (message_rows env agentId index messages) w with
      | Ok w' =>
          (Ok tt, mkSession c (InTx w')
                    (log ++ repeat c (List.length messages)))
      | Throw e => (Throw e, mkSession c Aborted (log ++ repeat c k))
      end.
Proof.
  induction messages as [|msg rest IH]; intros index c w log; simpl.
  - exists 0%nat. rewrite app_nil_r. reflexivity.
  - unfold bind, exec; simpl.
    destruct (insert_message (message_row (env index) agentId index msg) w)
      as [w1|e] eqn:E.
    + unfold seen.
      destruct (IH (S index) c w1 (log ++ [c])) as [k Hr].
      exists (S k). rewrite Hr, <- !app_assoc. reflexivity.
    + exists 1%nat. reflexivity.
Qed.

Lemma saveMessages_try_run env agentId messages db log :
  exists k,
    saveMessages_try env agentId messages (mkSession db Idle log)
    = match saveMessages_plan env agentId messages db with
      | Ok db' =>
          (Ok tt, mkSession db' Idle
                    (log ++ repeat db (3 + List.length messages) ++ [db']))
      | Throw e => (Throw e, mkSession db Aborted (log ++ repeat db k))
      end.
Proof.
  unfold saveMessages_try, saveMessages_plan, bind at 1 2, BEGIN, exec at 1.
  simpl.
  destruct (delete_messages agentId db) as [db1|e] eqn:E1; unfold seen.
  - destruct (insert_messages_run env agentId messages 0 db db1
                ((log ++ [db]) ++ [db])) as [k Hr].
    unfold bind at 1. rewrite Hr.
    destruct (insert_rows (message_rows env agentId 0 messages) db1)
      as [db2|e] eqn:E2.
    + unfold bind, exec, COMMIT; simpl.
      destruct (update_message_count _ agentId db2) as [db'|e] eqn:E3; simpl.
      * exists 0%nat. unfold seen. do 2 f_equal.
        rewrite <- !app_assoc. simpl. rewrite repeat_shift. reflexivity.
      * exists (3 + List.length messages)%nat. unfold seen. do 2 f_equal.
        rewrite <- !app_assoc. simpl. rewrite repeat_shift, app_nil_r.
        reflexivity.
    + exists (2 + k)%nat. rewrite <- !app_assoc. reflexivity.
  - exists 2%nat. rewrite <- !app_assoc. reflexivity.
Qed.

Lemma saveMessages_client_run env agentId messages db log :
  exists k,
    saveMessages_client env agentId messages (mkSession db Idle log)
    = match saveMessages_plan env agentId messages db with
      | Ok db' =>
          (Ok tt, mkSession db' Idle
                    (log ++ repeat db (3 + List.length messages) ++ [db']))
      | Throw e => (Throw e, mkSession db Idle (log ++ repeat db k))
      end.
Proof.
  unfold saveMessages_client, try_catch.
  destruct (saveMessages_try_run env agentId messages db log) as [k Hr].
  rewrite Hr.
  destruct (saveMessages_plan env agentId messages db) as [db'|e].
  - exists 0%nat. reflexivity.
  - exists (S k). unfold bind, ROLLBACK, throw, seen; simpl.
    rewrite <- app_assoc. simpl. rewrite repeat_shift, app_nil_r.
    reflexivity.
Qed.

(** The error [saveMessages] throws is the one its [try] block raised. *)
Lemma saveMessages_client_error env agentId messages s :
  forall e,
    fst (saveMessages_try env agentId messages s) = Throw e ->
    fst (saveMessages_client env agentId messages s) = Throw e.
Proof.
  intros e. unfold saveMessages_client, try_catch.
  destruct (saveMessages_try env agentId messages s) as [[a|e'] s'];
    simpl; [discriminate|].
  intros H. exact H.
Qed.

(** [saveMessages] on the store: the plan, or the error and the store as it
    was. *)
Lemma saveMessages_eq env agentId messages st :
  saveMessages env agentId messages st
  = match saveMessages_plan env agentId messages (pool st) with
    | Ok db' => (Ok tt, mkStore db' (init st))
    | Throw e => (Throw e, st)
    end.
Proof.
  unfold saveMessages. rewrite with_client_eq. unfold connect.
  destruct (saveMessages_client_run env agentId messages (pool st) [])
    as [k Hr].
  rewrite Hr.
  destruct (saveMessages_plan env agentId messages (pool st)); simpl.
  - reflexivity.
  - destruct st; reflexivity.
Qed.

(** * Statements *)

Lemma has_relation_same r db db' :
  relations db' = relations db -> has_relation r db' = has_relation r db.
Proof. unfold has_relation. intros ->. reflexivity. Qed.

Lemma require_ok r db k db' :
  require r db k = Ok db' -> has_relation r db = true /\ k = Ok db'.
Proof.
  unfold require. destruct (has_relation r db); [auto | discriminate].
Qed.

Lemma require_missing r db k :
  has_relation r db = false -> require r db k = Throw (undefined_table r).
Proof. unfold require. intros ->. reflexivity. Qed.

Lemma select_ok {A : Type} r db (rows : A) :
  has_relation r db = true -> select r db rows = Ok rows.
Proof. unfold select. intros ->. reflexivity. Qed.

Lemma insert_message_ok r db db' :
  insert_message r db = Ok db' ->
  db' = with_messages db (messages db ++ [r])
  /\ has_relation messages_rel db = true
  /\ role_check (MessageRow.role r) = true
  /\ existsb (fun m => (MessageRow.id m =? MessageRow.id r)%string)
             (messages db) = false
  /\ agent_exists (MessageRow.agent_id r) db = true.
Proof.
  unfold insert_message. intros H. apply require_ok in H as [Hrel H].
  destruct (negb (int4 _ && int8 _)); [discriminate|].
  destruct (role_check (MessageRow.role r)); [|discriminate]. simpl in H.
  destruct (existsb _ (messages db)); [discriminate|].
  destruct (has_relation idx_messages_agent_seq db && _); [discriminate|].
  destruct (agent_exists (MessageRow.agent_id r) db); [|discriminate].
  simpl in H. injection H as <-. auto.
Qed.

Lemma existsb_id_false (l : list MessageRow.t) id :
  existsb (fun m => (MessageRow.id m =? id)%string) l = false ->
  ~ In id (map MessageRow.id l).
Proof.
  intros H Hin. apply in_map_iff in Hin as (m & <- & Hm).
  assert (existsb (fun m0 => (MessageRow.id m0 =? MessageRow.id m)%string) l
          = true) as E
    by (apply existsb_exists; exists m; split; [exact Hm | apply String.eqb_refl]).
  congruence.
Qed.

(** The rows a run of inserts adds: appended in order, each under an id that
    no row of the relation had. *)
Lemma insert_rows_ok rows :
  forall db db',
    insert_rows rows db = Ok db' ->
    db' = with_messages db (messages db ++ rows)
    /\ NoDup (map MessageRow.id rows)
    /\ (forall id, In id (map MessageRow.id rows) ->
                   ~ In id (map MessageRow.id (messages db)))
    /\ Forall (fun r => role_check (MessageRow.role r) = true) rows.
Proof.
  induction rows as [|r rest IH]; intros db db' H; simpl in *.
  - injection H as <-. rewrite app_nil_r. destruct db; repeat split; simpl.
    + constructor.
    + intros id [].
    + constructor.
  - destruct (insert_message r db) as [db1|e] eqn:E; [|discriminate].
    apply insert_message_ok in E as (-> & _ & Hrole & Hid & _).
    apply IH in H as (-> & Hnd & Hfresh & Hroles). simpl in *.
    apply existsb_id_false in Hid.
    repeat split.
    + unfold with_messages; simpl. rewrite <- app_assoc. reflexivity.
    + constructor; [|exact Hnd].
      intros Hin. apply (Hfresh _ Hin). rewrite map_app, in_app_iff.
      right. left. reflexivity.
    + intros id [<-|Hin]; [exact Hid|].
      intros Hold. apply (Hfresh _ Hin). rewrite map_app, in_app_iff.
      left. exact Hold.
    + constructor; assumption.
Qed.

Lemma saveMessages_plan_ok env agentId msgs db db' :
  saveMessages_plan env agentId msgs db = Ok db' ->
  has_relation messages_rel db = true
  /\ has_relation agents_rel db = true
  /\ db' = mkDb (relations db)
             (map (set_message_count (Z.of_nat (List.length msgs)) agentId)
                  (agents db))
             (filter (fun m => negb (MessageRow.agent_id m =? agentId)%string)
                     (messages db)
              ++ message_rows env agentId 0 msgs)
             (tool_calls db) (snapshots db)
  /\ insert_rows (message_rows env agentId 0 msgs)
       (with_messages db
          (filter (fun m => negb (MessageRow.agent_id m =? agentId)%string)
                  (messages db)))
     = Ok (with_messages db
             (filter (fun m => negb (MessageRow.agent_id m =? agentId)%string)
                     (messages db)
              ++ message_rows env agentId 0 msgs)).
Proof.
  unfold saveMessages_plan, delete_messages. intros H.
  destruct (require messages_rel db _) as [db1|e] eqn:E1; [|discriminate].
  apply require_ok in E1 as [Hm E1]. injection E1 as <-.
  destruct (insert_rows _ _) as [db2|e] eqn:E2; [|discriminate].
  pose proof (insert_rows_ok _ _ _ E2) as (-> & _). simpl in *.
  unfold update_message_count in H. apply require_ok in H as [Ha H].
  rewrite (has_relation_same agents_rel db) in Ha by reflexivity.
  destruct (negb (int4 _)); [discriminate|]. injection H as <-.
  repeat split; assumption.
Qed.

(** * Reading back *)

Ltac read_only st :=
  rewrite with_client_eq; unfold bind, fetch, connect, ret; simpl;
  match goal with
  | |- context [select ?r ?db ?rows] => destruct (select r db rows)
  end; simpl; destruct st; reflexivity.

Lemma loadMessages_eq agentId st :
  loadMessages agentId st
  = (match select_messages agentId (pool st) with
     | Ok rows => Ok (map message_of_row rows)
     | Throw e => Throw e
     end, st).
Proof.
  unfold loadMessages, loadMessages_client, select_messages. read_only st.
Qed.

Lemma loadInfo_eq agentId st :
  loadInfo agentId st
  = (match select_agent agentId (pool st) with
     | Ok [] => Ok None
     | Ok (row :: _) => Ok (Some (info_of_row row))
     | Throw e => Throw e
     end, st).
Proof.
  unfold loadInfo, loadInfo_client, select_agent.
  rewrite with_client_eq; unfold bind, fetch, connect, ret; simpl.
  destruct (select agents_rel (pool st) _) as [[|row rows]|e]; simpl;
    destruct st; reflexivity.
Qed.

Lemma exists_eq agentId st :
  exists_ agentId st
  = (match select_agent agentId (pool st) with
     | Ok rows => Ok (0 <? Z.of_nat (List.length rows))
     | Throw e => Throw e
     end, st).
Proof. unfold exists_, exists_client, select_agent. read_only st. Qed.

Lemma message_rows_length env agentId msgs :
  forall index,
    List.length (message_rows env agentId index msgs) = List.length msgs.
Proof. induction msgs as [|m r IH]; intros i; simpl; [|rewrite IH]; reflexivity. Qed.

Lemma message_rows_seq env agentId msgs :
  forall index,
    map MessageRow.seq (message_rows env agentId index msgs)
    = map Z.of_nat (seq index (List.length msgs)).
Proof. induction msgs as [|m r IH]; intros i; simpl; [|rewrite IH]; reflexivity. Qed.

Lemma message_rows_id env agentId msgs :
  forall index,
    map MessageRow.id (message_rows env agentId index msgs)
    = map (fun i => generateMessageId (env i)) (seq index (List.length msgs)).
Proof. induction msgs as [|m r IH]; intros i; simpl; [|rewrite IH]; reflexivity. Qed.

Lemma message_rows_own env agentId msgs :
  forall index,
    filter (fun m => (MessageRow.agent_id m =? agentId)%string)
           (message_rows env agentId index msgs)
    = message_rows env agentId index msgs.
Proof.
  induction msgs as [|m r IH]; intros i; simpl; [reflexivity|].
  rewrite String.eqb_refl, IH. reflexivity.
Qed.

Lemma message_rows_sorted env agentId msgs :
  forall index,
    Sorted (fun a b => (MessageRow.seq a <=? MessageRow.seq b) = true)
           (message_rows env agentId index msgs).
Proof.
  induction msgs as [|m r IH]; intros i; simpl; constructor; [apply IH|].
  destruct r as [|m' r']; simpl; constructor. simpl. apply Z.leb_le. lia.
Qed.

Lemma message_rows_loaded env agentId msgs :
  forall index,
    map message_of_row (message_rows env agentId index msgs)
    = map canonical_message msgs.
Proof.
  induction msgs as [|m r IH]; intros i; simpl; [reflexivity|].
  rewrite IH. unfold message_of_row, canonical_message; simpl.
  rewrite or_null_stringify. reflexivity.
Qed.

Lemma filter_none {A : Type} (p : A -> bool) l :
  filter p (filter (fun x => negb (p x)) l) = [].
Proof.
  induction l as [|x r IH]; simpl; [reflexivity|].
  destruct (p x) eqn:E; simpl; [exact IH | rewrite E; exact IH].
Qed.

(** After a successful [saveMessages] the rows of the agent are the rows of
    the loop, in the order of the list. *)
Lemma messages_of_saved env agentId msgs db db' :
  saveMessages_plan env agentId msgs db = Ok db' ->
  messages_of agentId db' = message_rows env agentId 0 msgs.
Proof.
  intros H. apply saveMessages_plan_ok in H as (_ & _ & -> & _).
  unfold messages_of; simpl.
  rewrite filter_app, message_rows_own.
  rewrite (filter_none (fun m => (MessageRow.agent_id m =? agentId)%string)).
  reflexivity.
Qed.

Lemma select_messages_saved env agentId msgs db db' :
  saveMessages_plan env agentId msgs db = Ok db' ->
  select_messages agentId db' = Ok (message_rows env agentId 0 msgs).
Proof.
  intros H. unfold select_messages.
  rewrite (messages_of_saved _ _ _ _ _ H).
  rewrite order_by_sorted by apply message_rows_sorted.
  apply select_ok.
  apply saveMessages_plan_ok in H as (Hm & _ & -> & _). exact Hm.
Qed.

Lemma filter_map_key (agentId : string) (f : AgentRow.t -> AgentRow.t) l :
  (forall a, AgentRow.agent_id (f a) = AgentRow.agent_id a) ->
  filter (agent_key agentId) (map f l) = map f (filter (agent_key agentId) l).
Proof.
  intros Hf. induction l as [|a r IH]; simpl; [reflexivity|].
  replace (agent_key agentId (f a)) with (agent_key agentId a)
    by (unfold agent_key; now rewrite Hf).
  destruct (agent_key agentId a); simpl; now rewrite IH.
Qed.

Lemma set_message_count_id n agentId a :
  AgentRow.agent_id (set_message_count n agentId a) = AgentRow.agent_id a.
Proof.
  unfold set_message_count.
  destruct (AgentRow.agent_id a =? agentId)%string; reflexivity.
Qed.

Lemma select_agent_saved env agentId msgs db db' :
  saveMessages_plan env agentId msgs db = Ok db' ->
  select_agent agentId db'
  = Ok (map (set_message_count (Z.of_nat (List.length msgs)) agentId)
            (filter (agent_key agentId) (agents db))).
Proof.
  intros H. apply saveMessages_plan_ok in H as (_ & Ha & -> & _).
  unfold select_agent; simpl.
  rewrite filter_map_key by apply set_message_count_id.
  apply select_ok. exact Ha.
Qed.

Lemma set_message_count_own n agentId a :
  agent_key agentId a = true ->
  AgentRow.message_count (set_message_count n agentId a) = n.
Proof.
  unfold agent_key, set_message_count. intros ->. reflexivity.
Qed.

Lemma filter_head_true {A : Type} (p : A -> bool) l x r :
  filter p l = x :: r -> p x = true.
Proof.
  intros H. assert (In x (filter p l)) as Hin by (rewrite H; now left).
  apply filter_In in Hin. apply Hin.
Qed.

(** * Saving messages *)

Lemma Forall_repeat {A : Type} (P : A -> Prop) x n :
  P x -> Forall P (repeat x n).
Proof. intros H. induction n; simpl; constructor; assumption. Qed.

(** C1.  [saveMessages] is atomic.  Every state another session can read
    while it runs is the state before the call or the state after it.  When it
    returns, the messages of the agent are the given list (in canonical form)
    and the [messageCount] of the agent, if the agent is there, is the length
    of the list; when it throws, the store is as it was before the call and
    the error is the one the [try] block raised. *)
Theorem saveMessages_atomic env agentId msgs st :
  let st' := snd (saveMessages env agentId msgs st) in
  Forall (fun db => db = pool st \/ db = pool st')
         (observed (snd (saveMessages_client env agentId msgs (connect st))))
  /\ match fst (saveMessages env agentId msgs st) with
     | Ok _ =>
         fst (loadMessages agentId st') = Ok (map canonical_message msgs)
         /\ match fst (loadInfo agentId st') with
            | Ok (Some info) =>
                AgentInfo.messageCount info = Z.of_nat (List.length msgs)
            | Ok None => fst (exists_ agentId st) = Ok false
            | Throw _ => False
            end
     | Throw e =>
         st' = st
         /\ fst (saveMessages_try env agentId msgs (connect st)) = Throw e
     end.
Proof.
  intros st'. subst st'. rewrite saveMessages_eq. unfold connect.
  destruct (saveMessages_client_run env agentId msgs (pool st) []) as [k Hc].
  destruct (saveMessages_try_run env agentId msgs (pool st) []) as [k' Ht].
  rewrite Hc, Ht.
  destruct (saveMessages_plan env agentId msgs (pool st)) as [db'|e] eqn:Hp;
    simpl.
  - split.
    + do 3 (constructor; [now left|]). apply Forall_app.
      split; [apply Forall_repeat; now left|].
      constructor; [now right | constructor].
    + rewrite loadMessages_eq, loadInfo_eq, exists_eq; simpl.
      rewrite (select_messages_saved _ _ _ _ _ Hp), message_rows_loaded.
      split; [reflexivity|].
      rewrite (select_agent_saved _ _ _ _ _ Hp).
      apply saveMessages_plan_ok in Hp as (_ & Ha & _).
      unfold select_agent. rewrite (select_ok _ _ _ Ha).
      destruct (filter (agent_key agentId) (agents (pool st))) as [|row rows]
        eqn:E; simpl; [reflexivity|].
      apply set_message_count_own, (filter_head_true _ _ _ _ E).
  - split; [|split; reflexivity].
    apply Forall_repeat. now left.
Qed.

(** C2.  For an agent that exists and messages of the declared type, after
    [saveMessages] has succeeded [loadMessages] returns the messages of the
    list in their order, role for role and with structurally identical
    content and metadata, and [loadInfo] returns a [messageCount] equal to the
    length of the list. *)
Lemma canonical_message_eqv msgs :
  forallb message_typed msgs = true ->
  Forall2 message_eqv (map canonical_message msgs) msgs.
Proof.
  induction msgs as [|m r IH]; simpl; intros H; constructor.
  - apply andb_prop in H as [H _]. repeat split; simpl.
    + apply jsonb_eqv.
    + apply stringify_typed, H.
  - apply IH. apply andb_prop in H as [_ H]. exact H.
Qed.

Lemma saveMessages_ok env agentId msgs st st' :
  saveMessages env agentId msgs st = (Ok tt, st') ->
  saveMessages_plan env agentId msgs (pool st) = Ok (pool st')
  /\ init st' = init st.
Proof.
  rewrite saveMessages_eq.
  destruct (saveMessages_plan env agentId msgs (pool st)); [|discriminate].
  intros H. injection H as <-. split; reflexivity.
Qed.

Theorem saveMessages_loadMessages env agentId msgs st st' :
  fst (exists_ agentId st) = Ok true ->
  forallb message_typed msgs = true ->
  saveMessages env agentId msgs st = (Ok tt, st') ->
  exists loaded info,
    fst (loadMessages agentId st') = Ok loaded
    /\ Forall2 message_eqv loaded msgs
    /\ fst (loadInfo agentId st') = Ok (Some info)
    /\ AgentInfo.messageCount info = Z.of_nat (List.length msgs).
Proof.
  intros Hex Hty Hsave. apply saveMessages_ok in Hsave as [Hp _].
  rewrite exists_eq in Hex; simpl in Hex.
  rewrite loadMessages_eq, loadInfo_eq; simpl.
  rewrite (select_messages_saved _ _ _ _ _ Hp), message_rows_loaded.
  rewrite (select_agent_saved _ _ _ _ _ Hp).
  pose proof (saveMessages_plan_ok _ _ _ _ _ Hp) as (_ & Ha & _).
  unfold select_agent in Hex. rewrite (select_ok _ _ _ Ha) in Hex.
  destruct (filter (agent_key agentId) (agents (pool st))) as [|row rows]
    eqn:E; simpl in *; [discriminate|].
  eexists _, _. split; [reflexivity|].
  split; [apply canonical_message_eqv, Hty|].
  split; [reflexivity|].
  apply set_message_count_own, (filter_head_true _ _ _ _ E).
Qed.

Lemma NoDup_map_of_nat l : NoDup l -> NoDup (map Z.of_nat l).
Proof.
  induction 1 as [|x r Hx Hr IH]; simpl; constructor; [|exact IH].
  intros Hin. apply in_map_iff in Hin as (y & Hy & Hin).
  apply Nat2Z.inj in Hy. subst y. contradiction.
Qed.

(** C10.  After a successful [saveMessages] the rows of the agent are the
    rows of the loop: message [i] of the list has sequence number [i], so the
    sequence numbers are exactly [0 .. length - 1] and no two rows share one;
    each row carries the id [generateMessageId] drew for it, different from
    the ids of the other new rows and of every other row of the relation; and
    [loadMessages], which orders by [seq], returns the rows in the order in
    which they were saved. *)
Theorem saveMessages_sequence env agentId msgs st st' :
  saveMessages env agentId msgs st = (Ok tt, st') ->
  let rows := messages_of agentId (pool st') in
  rows = message_rows env agentId 0 msgs
  /\ map MessageRow.seq rows = map Z.of_nat (seq 0 (List.length msgs))
  /\ map MessageRow.id rows
     = map (fun i => generateMessageId (env i)) (seq 0 (List.length msgs))
  /\ NoDup (map MessageRow.seq rows)
  /\ NoDup (map MessageRow.id rows)
  /\ (forall m, In m (messages (pool st')) ->
                MessageRow.agent_id m <> agentId ->
                ~ In (MessageRow.id m) (map MessageRow.id rows))
  /\ fst (loadMessages agentId st') = Ok (map message_of_row rows).
Proof.
  intros Hsave rows. subst rows. apply saveMessages_ok in Hsave as [Hp _].
  rewrite (messages_of_saved _ _ _ _ _ Hp).
  rewrite loadMessages_eq; simpl. rewrite (select_messages_saved _ _ _ _ _ Hp).
  pose proof (saveMessages_plan_ok _ _ _ _ _ Hp) as (_ & _ & Hdb & Hins).
  apply insert_rows_ok in Hins as (_ & Hnd & Hfresh & _). simpl in Hfresh.
  repeat split.
  - apply message_rows_seq.
  - apply message_rows_id.
  - rewrite message_rows_seq. apply NoDup_map_of_nat, seq_NoDup.
  - exact Hnd.
  - intros m Hin Hother Hid. rewrite Hdb in Hin; simpl in Hin.
    apply in_app_iff in Hin as [Hin|Hin].
    + apply (Hfresh _ Hid). apply in_map, Hin.
    + apply Hother.
      assert (In m (filter (fun m => (MessageRow.agent_id m =? agentId)%string)
                           (message_rows env agentId 0 msgs))) as Hown
        by (rewrite message_rows_own; exact Hin).
      apply filter_In in Hown as [_ Hown]. apply String.eqb_eq, Hown.
Qed.

(** * Methods of one statement *)

Ltac single_write st :=
  rewrite with_client_eq; unfold exec, connect, seen; simpl;
  match goal with
  | |- context [match ?f (pool st) with _ => _ end] => destruct (f (pool st))
  end; simpl; [reflexivity | destruct st; reflexivity].

Lemma saveInfo_eq agentId info st :
  saveInfo agentId info st
  = match upsert_agent (agent_row info) (pool st) with
    | Ok db' => (Ok tt, mkStore db' (init st))
    | Throw e => (Throw e, st)
    end.
Proof. unfold saveInfo. single_write st. Qed.

Lemma saveSnapshot_eq agentId snapshot st :
  saveSnapshot agentId snapshot st
  = match upsert_snapshot (snapshot_row agentId snapshot) (pool st) with
    | Ok db' => (Ok tt, mkStore db' (init st))
    | Throw e => (Throw e, st)
    end.
Proof. unfold saveSnapshot. single_write st. Qed.

Lemma delete_eq agentId st :
  delete agentId st
  = match delete_agent agentId (pool st) with
    | Ok db' => (Ok tt, mkStore db' (init st))
    | Throw e => (Throw e, st)
    end.
Proof. unfold delete. single_write st. Qed.

Lemma loadToolCallRecords_eq agentId st :
  loadToolCallRecords agentId st
  = (match select_tool_calls agentId (pool st) with
     | Ok rows => Ok (map tool_call_of_row rows)
     | Throw e => Throw e
     end, st).
Proof.
  unfold loadToolCallRecords, loadToolCallRecords_client, select_tool_calls.
  read_only st.
Qed.

Lemma listSnapshots_eq agentId st :
  listSnapshots agentId st
  = (match select_snapshots agentId (pool st) with
     | Ok rows => Ok (map snapshot_of_row rows)
     | Throw e => Throw e
     end, st).
Proof.
  unfold listSnapshots, listSnapshots_client, select_snapshots. read_only st.
Qed.

Lemma loadSnapshot_eq agentId snapshotId st :
  loadSnapshot agentId snapshotId st
  = (match select_snapshot agentId snapshotId (pool st) with
     | Ok [] => Ok None
     | Ok (row :: _) => Ok (Some (snapshot_of_row row))
     | Throw e => Throw e
     end, st).
Proof.
  unfold loadSnapshot, loadSnapshot_client, select_snapshot.
  rewrite with_client_eq; unfold bind, fetch, connect, ret; simpl.
  destruct (select snapshots_rel (pool st) _) as [[|row rows]|e]; simpl;
    destruct st; reflexivity.
Qed.

(** * Deleting an agent *)

Lemma schema_ready_relations db :
  schema_ready db = true ->
  has_relation agents_rel db = true /\ has_relation messages_rel db = true
  /\ has_relation tool_calls_rel db = true
  /\ has_relation snapshots_rel db = true.
Proof.
  unfold schema_ready. intros H.
  repeat (apply andb_prop in H as [H ?]). auto.
Qed.

Lemma existsb_false_filter {A : Type} (p : A -> bool) l :
  existsb p l = false -> filter p l = [].
Proof.
  induction l as [|x r IH]; simpl; [reflexivity|].
  destruct (p x); simpl; [discriminate | exact IH].
Qed.

(** A relation whose foreign key holds has no row of an agent that is not
    there. *)
Lemma no_rows_without_agent {R : Type} (key : R -> string) l agentId db :
  forallb (fun x => agent_exists (key x) db) l = true ->
  agent_exists agentId db = false ->
  filter (fun x => (key x =? agentId)%string) l = [].
Proof.
  intros Hfk Hno. induction l as [|x r IH]; simpl in *; [reflexivity|].
  apply andb_prop in Hfk as [Hx Hr].
  destruct (key x =? agentId)%string eqn:E; [|apply IH, Hr].
  apply String.eqb_eq in E. congruence.
Qed.

Lemma delete_agent_rows agentId db :
  has_relation agents_rel db = true ->
  fk_ok db = true ->
  exists db',
    delete_agent agentId db = Ok db'
    /\ relations db' = relations db
    /\ filter (agent_key agentId) (agents db') = []
    /\ messages_of agentId db' = []
    /\ tool_calls_of agentId db' = []
    /\ snapshots_of agentId db' = [].
Proof.
  intros Ha Hfk. unfold delete_agent, require. rewrite Ha.
  unfold messages_of, tool_calls_of, snapshots_of.
  destruct (agent_exists agentId db) eqn:E.
  - eexists. split; [reflexivity|]. simpl.
    rewrite (filter_none (agent_key agentId)).
    rewrite (filter_none (fun m => (MessageRow.agent_id m =? agentId)%string)).
    rewrite (filter_none (fun c => (ToolCallRow.agent_id c =? agentId)%string)).
    rewrite (filter_none (fun s => (SnapshotRow.agent_id s =? agentId)%string)).
    auto.
  - exists db. split; [reflexivity|]. split; [reflexivity|].
    unfold fk_ok in Hfk.
    apply andb_prop in Hfk as [Hfk Hs]. apply andb_prop in Hfk as [Hm Hc].
    split; [apply existsb_false_filter, E|].
    split; [|split]; eapply no_rows_without_agent; eassumption.
Qed.

(** C3.  On an initialised store whose foreign keys hold, [delete] succeeds,
    and afterwards [exists] is false and [loadMessages], [loadToolCallRecords]
    and [listSnapshots] return the empty list for the agent. *)
Theorem delete_cascades agentId st :
  schema_ready (pool st) = true ->
  fk_ok (pool st) = true ->
  let st' := snd (delete agentId st) in
  fst (delete agentId st) = Ok tt
  /\ fst (exists_ agentId st') = Ok false
  /\ fst (loadMessages agentId st') = Ok []
  /\ fst (loadToolCallRecords agentId st') = Ok []
  /\ fst (listSnapshots agentId st') = Ok [].
Proof.
  intros Hready Hfk st'. subst st'.
  apply schema_ready_relations in Hready as (Ha & Hm & Hc & Hs).
  destruct (delete_agent_rows agentId _ Ha Hfk)
    as (db' & Hdel & Hrel & Hno & Hnm & Hnc & Hns).
  rewrite delete_eq, Hdel; simpl.
  rewrite exists_eq, loadMessages_eq, loadToolCallRecords_eq, listSnapshots_eq.
  unfold select_agent, select_messages, select_tool_calls, select_snapshots.
  simpl. rewrite Hno, Hnm, Hnc, Hns. simpl.
  rewrite !select_ok by (rewrite (has_relation_same _ _ _ Hrel); assumption).
  auto.
Qed.

(** * Upserts *)

Section Upsert.
Context {R : Type} (p : R -> bool) (r : R).
Hypothesis p_r : p r = true.

Lemma existsb_upsert l : existsb p (upsert p r l) = true.
Proof.
  unfold upsert. destruct (existsb p l) eqn:E.
  - induction l as [|x l IH]; simpl in *; [discriminate|].
    destruct (p x); simpl; [rewrite p_r; reflexivity|].
    rewrite IH by exact E. apply orb_true_r.
  - rewrite existsb_app. simpl. rewrite p_r. apply orb_true_r.
Qed.

Lemma replace_twice l :
  map (fun x => if p x then r else x) (map (fun x => if p x then r else x) l)
  = map (fun x => if p x then r else x) l.
Proof.
  rewrite map_map. apply map_ext. intros x.
  destruct (p x) eqn:E; [rewrite p_r | rewrite E]; reflexivity.
Qed.

Lemma replace_none l :
  existsb p l = false -> map (fun x => if p x then r else x) l = l.
Proof.
  induction l as [|x l IH]; simpl; [reflexivity|].
  destruct (p x); simpl; [discriminate|]. intros H. now rewrite IH.
Qed.

(** An upsert of a row that is there changes nothing. *)
Lemma upsert_idempotent l : upsert p r (upsert p r l) = upsert p r l.
Proof.
  unfold upsert at 1. rewrite existsb_upsert.
  unfold upsert. destruct (existsb p l) eqn:E.
  - apply replace_twice.
  - rewrite map_app, replace_none by exact E. simpl. rewrite p_r.
    reflexivity.
Qed.

(** The first row the key selects after an upsert is the row given. *)
Lemma upsert_first l :
  exists rest, filter p (upsert p r l) = r :: rest.
Proof.
  unfold upsert. destruct (existsb p l) eqn:E.
  - induction l as [|x l IH]; simpl in *; [discriminate|].
    destruct (p x) eqn:Ex; simpl.
    + rewrite p_r. eexists. reflexivity.
    + rewrite Ex. apply IH, E.
  - rewrite filter_app, (existsb_false_filter _ _ E). simpl. rewrite p_r.
    eexists. reflexivity.
Qed.
End Upsert.

Lemma agent_key_refl r : agent_key (AgentRow.agent_id r) r = true.
Proof. apply String.eqb_refl. Qed.

Lemma snapshot_key_refl r :
  snapshot_key (SnapshotRow.agent_id r) (SnapshotRow.snapshot_id r) r = true.
Proof. unfold snapshot_key. now rewrite !String.eqb_refl. Qed.

Lemma upsert_agent_ok r db db' :
  upsert_agent r db = Ok db' ->
  has_relation agents_rel db = true
  /\ db' = with_agents db (upsert (agent_key (AgentRow.agent_id r)) r (agents db)).
Proof.
  unfold upsert_agent. intros H. apply require_ok in H as [Ha H].
  destruct (negb _); [discriminate|]. injection H as <-. auto.
Qed.

Lemma upsert_agent_again r db db' :
  upsert_agent r db = Ok db' -> upsert_agent r db' = Ok db'.
Proof.
  intros H. pose proof (upsert_agent_ok _ _ _ H) as [Ha ->].
  unfold upsert_agent, require in *. rewrite Ha in H.
  rewrite (has_relation_same agents_rel db) by reflexivity. rewrite Ha.
  destruct (negb _); [discriminate|]. simpl.
  rewrite upsert_idempotent by apply agent_key_refl. reflexivity.
Qed.

Lemma upsert_snapshot_again r db db' :
  upsert_snapshot r db = Ok db' -> upsert_snapshot r db' = Ok db'.
Proof.
  unfold upsert_snapshot, require. intros H.
  destruct (has_relation snapshots_rel db) eqn:Hs; [|discriminate].
  destruct (negb (int4 _)); [discriminate|].
  destruct (negb (existsb _ (snapshots db)) && _); [discriminate|].
  injection H as <-.
  rewrite (has_relation_same snapshots_rel db) by reflexivity. rewrite Hs.
  simpl. rewrite existsb_upsert by apply snapshot_key_refl. simpl.
  rewrite upsert_idempotent by apply snapshot_key_refl. reflexivity.
Qed.

(** C5.  Running [saveInfo], or [saveSnapshot], a second time with the same
    arguments returns what the first run returned and leaves the store exactly
    as the first run left it: no row is added, and [loadInfo], [loadSnapshot]
    and [listSnapshots] return what they returned before the repetition. *)
Theorem upserts_idempotent agentId info snapshot st :
  (let st1 := snd (saveInfo agentId info st) in
   let st2 := snd (saveInfo agentId info st1) in
   saveInfo agentId info st1 = (fst (saveInfo agentId info st), st1)
   /\ st2 = st1
   /\ loadInfo agentId st2 = loadInfo agentId st1)
  /\ (let st1 := snd (saveSnapshot agentId snapshot st) in
      let st2 := snd (saveSnapshot agentId snapshot st1) in
      saveSnapshot agentId snapshot st1
      = (fst (saveSnapshot agentId snapshot st), st1)
      /\ st2 = st1
      /\ loadSnapshot agentId (Snapshot.id snapshot) st2
         = loadSnapshot agentId (Snapshot.id snapshot) st1
      /\ listSnapshots agentId st2 = listSnapshots agentId st1).
Proof.
  split.
  - assert (saveInfo agentId info (snd (saveInfo agentId info st))
            = (fst (saveInfo agentId info st), snd (saveInfo agentId info st)))
      as E.
    { rewrite (saveInfo_eq agentId info st).
      destruct (upsert_agent (agent_row info) (pool st)) as [db'|e] eqn:H;
        simpl.
      - rewrite saveInfo_eq; simpl.
        rewrite (upsert_agent_again _ _ _ H). reflexivity.
      - rewrite saveInfo_eq, H. reflexivity. }
    simpl. rewrite E. auto.
  - assert (saveSnapshot agentId snapshot
              (snd (saveSnapshot agentId snapshot st))
            = (fst (saveSnapshot agentId snapshot st),
               snd (saveSnapshot agentId snapshot st))) as E.
    { rewrite (saveSnapshot_eq agentId snapshot st).
      destruct (upsert_snapshot (snapshot_row agentId snapshot) (pool st))
        as [db'|e] eqn:H; simpl.
      - rewrite saveSnapshot_eq; simpl.
        rewrite (upsert_snapshot_again _ _ _ H). reflexivity.
      - rewrite saveSnapshot_eq, H. reflexivity. }
    simpl. rewrite E. auto.
Qed.

(** * Agent metadata *)

Lemma or_null_str_twice x : or_null_str (or_null_str x) = or_null_str x.
Proof.
  destruct x as [s|]; simpl; [|reflexivity].
  destruct (s =? "")%string eqn:E; simpl; [|rewrite E]; reflexivity.
Qed.



(** * Initialisation *)

Lemma with_client_init {A : Type} (body : Client A) db i :
  with_client body (mkStore db i)
  = (fst (with_client body (mkStore db InitDone)),
     mkStore (pool (snd (with_client body (mkStore db InitDone)))) i).
Proof. rewrite !with_client_eq. reflexivity. Qed.

Lemma saveMessages_plan_missing env agentId msgs db :
  has_relation messages_rel db = false ->
  saveMessages_plan env agentId msgs db = Throw (undefined_table messages_rel).
Proof.
  intros H. unfold saveMessages_plan, delete_messages.
  rewrite require_missing by exact H. reflexivity.
Qed.

Lemma insert_tool_calls_run agentId records :
  forall c w log,
  exists k,
    insert_tool_calls agentId records (mkSession c (InTx w) log)
    = match insert_tool_call_rows (map (tool_call_row agentId) records) w with
      | Ok w' =>
          (Ok tt, mkSession c (InTx w')
                    (log ++ repeat c (List.length records)))
      | Throw e => (Throw e, mkSession c Aborted (log ++ repeat c k))
      end.
Proof.
  induction records as [|record rest IH]; intros c w log; simpl.
  - exists 0%nat. rewrite app_nil_r. reflexivity.
  - unfold bind, exec; simpl.
    destruct (insert_tool_call (tool_call_row agentId record) w)
      as [w1|e] eqn:E.
    + unfold seen. destruct (IH c w1 (log ++ [c])) as [k Hr].
      exists (S k). rewrite Hr, <- !app_assoc. reflexivity.
    + exists 1%nat. reflexivity.
Qed.

Lemma saveToolCallRecords_client_run agentId records db log :
  exists k,
    saveToolCallRecords_client agentId records (mkSession db Idle log)
    = match saveToolCallRecords_plan agentId records db with
      | Ok db' =>
          (Ok tt, mkSession db' Idle
                    (log ++ repeat db (2 + List.length records) ++ [db']))
      | Throw e => (Throw e, mkSession db Idle (log ++ repeat db k))
      end.
Proof.
  unfold saveToolCallRecords_client, try_catch, saveToolCallRecords_try,
    saveToolCallRecords_plan, bind at 1 2, BEGIN, exec at 1.
  simpl.
  destruct (delete_tool_calls agentId db) as [db1|e] eqn:E1; unfold seen.
  - destruct (insert_tool_calls_run agentId records db db1
                ((log ++ [db]) ++ [db])) as [k Hr].
    unfold bind at 1. rewrite Hr.
    destruct (insert_tool_call_rows _ db1) as [db2|e] eqn:E2.
    + exists 0%nat. unfold COMMIT, seen; simpl. do 2 f_equal.
      rewrite <- !app_assoc. reflexivity.
    + exists (3 + k)%nat. unfold bind, ROLLBACK, throw, seen; simpl.
      do 2 f_equal. rewrite <- !app_assoc. simpl.
      rewrite repeat_shift, app_nil_r. reflexivity.
  - exists 3%nat. unfold bind, ROLLBACK, throw, seen; simpl.
    rewrite <- !app_assoc. reflexivity.
Qed.

Lemma saveToolCallRecords_eq agentId records st :
  saveToolCallRecords agentId records st
  = match saveToolCallRecords_plan agentId records (pool st) with
    | Ok db' => (Ok tt, mkStore db' (init st))
    | Throw e => (Throw e, st)
    end.
Proof.
  unfold saveToolCallRecords. rewrite with_client_eq. unfold connect.
  destruct (saveToolCallRecords_client_run agentId records (pool st) [])
    as [k Hr].
  rewrite Hr.
  destruct (saveToolCallRecords_plan agentId records (pool st)); simpl.
  - reflexivity.
  - destruct st; reflexivity.
Qed.

Lemma saveToolCallRecords_missing agentId records st :
  has_relation tool_calls_rel (pool st) = false ->
  saveToolCallRecords agentId records st
  = (Throw (undefined_table tool_calls_rel), st).
Proof.
  intros H. rewrite saveToolCallRecords_eq.
  unfold saveToolCallRecords_plan, delete_tool_calls.
  rewrite require_missing by exact H. reflexivity.
Qed.

(** C7, amended.  No write consults the initialisation state of the store.
    When the relation a write touches first exists, the write does on a store
    whose initialisation is pending or has failed exactly what it does on an
    initialised store over the same relations; when that relation does not
    exist, the write throws the [undefined_table] error of the server and
    leaves the store as it was. *)
Theorem writes_before_initialisation db i :
  (forall agentId info,
      saveInfo agentId info (mkStore db i)
      = if has_relation agents_rel db
        then (fst (saveInfo agentId info (mkStore db InitDone)),
              mkStore (pool (snd (saveInfo agentId info (mkStore db InitDone))))
                      i)
        else (Throw (undefined_table agents_rel), mkStore db i))
  /\ (forall env agentId msgs,
      saveMessages env agentId msgs (mkStore db i)
      = if has_relation messages_rel db
        then (fst (saveMessages env agentId msgs (mkStore db InitDone)),
              mkStore (pool (snd (saveMessages env agentId msgs
                                    (mkStore db InitDone)))) i)
        else (Throw (undefined_table messages_rel), mkStore db i))
  /\ (forall agentId records,
      saveToolCallRecords agentId records (mkStore db i)
      = if has_relation tool_calls_rel db
        then (fst (saveToolCallRecords agentId records (mkStore db InitDone)),
              mkStore (pool (snd (saveToolCallRecords agentId records
                                    (mkStore db InitDone)))) i)
        else (Throw (undefined_table tool_calls_rel), mkStore db i))
  /\ (forall agentId snapshot,
      saveSnapshot agentId snapshot (mkStore db i)
      = if has_relation snapshots_rel db
        then (fst (saveSnapshot agentId snapshot (mkStore db InitDone)),
              mkStore (pool (snd (saveSnapshot agentId snapshot
                                    (mkStore db InitDone)))) i)
        else (Throw (undefined_table snapshots_rel), mkStore db i)).
Proof.
  repeat split; intros.
  - destruct (has_relation agents_rel db) eqn:H;
      [apply with_client_init|].
    rewrite saveInfo_eq. unfold upsert_agent; simpl.
    rewrite require_missing by exact H. reflexivity.
  - destruct (has_relation messages_rel db) eqn:H;
      [apply with_client_init|].
    rewrite saveMessages_eq; simpl.
    rewrite saveMessages_plan_missing by exact H. reflexivity.
  - destruct (has_relation tool_calls_rel db) eqn:H;
      [apply with_client_init|].
    apply saveToolCallRecords_missing, H.
  - destruct (has_relation snapshots_rel db) eqn:H;
      [apply with_client_init|].
    rewrite saveSnapshot_eq. unfold upsert_snapshot; simpl.
    rewrite require_missing by exact H. reflexivity.
Qed.

(** * Statistics *)

Lemma bump_sum k groups : sum_counts (bump k groups) = sum_counts groups + 1.
Proof.
  induction groups as [|[k' n] r IH]; simpl; [reflexivity|].
  destruct (k' =? k)%string; simpl; lia.
Qed.

Lemma bump_count_for k k' groups :
  count_for k' (bump k groups)
  = count_for k' groups + (if (k =? k')%string then 1 else 0).
Proof.
  induction groups as [|[k0 n] r IH]; simpl.
  - destruct (k =? k')%string; reflexivity.
  - destruct (k0 =? k)%string eqn:E; simpl.
    + apply String.eqb_eq in E. subst k0.
      destruct (k =? k')%string; lia.
    + rewrite IH. destruct (k0 =? k')%string; lia.
Qed.

Lemma bump_keys k k' groups :
  In k' (map fst (bump k groups)) -> k' = k \/ In k' (map fst groups).
Proof.
  induction groups as [|[k0 n] r IH]; simpl.
  - intros [<-|[]]. now left.
  - destruct (k0 =? k)%string; simpl; intros [<-|H]; auto.
    destruct (IH H); auto.
Qed.

Lemma bump_NoDup k groups :
  NoDup (map fst groups) -> NoDup (map fst (bump k groups)).
Proof.
  induction groups as [|[k0 n] r IH]; simpl; intros H.
  - repeat constructor. intros [].
  - inversion H as [|? ? Hk0 Hr]; subst.
    destruct (k0 =? k)%string eqn:E; simpl; constructor; auto.
    intros Hin. apply bump_keys in Hin as [->|Hin]; [|contradiction].
    rewrite String.eqb_refl in E. discriminate.
Qed.

Lemma group_count_rev keys :
  group_count keys = fold_right bump [] (rev keys).
Proof. unfold group_count. symmetry. apply fold_left_rev_right. Qed.

Lemma group_count_sum keys :
  sum_counts (group_count keys) = Z.of_nat (List.length keys).
Proof.
  rewrite group_count_rev, <- (length_rev keys).
  induction (rev keys) as [|k r IH]; [reflexivity|].
  cbn [fold_right List.length]. rewrite bump_sum, IH. lia.
Qed.

Lemma group_count_NoDup keys : NoDup (map fst (group_count keys)).
Proof.
  rewrite group_count_rev.
  induction (rev keys) as [|k r IH]; simpl; [constructor|].
  apply bump_NoDup, IH.
Qed.

Lemma group_count_for keys k :
  count_for k (group_count keys) = Z.of_nat (count_occ string_dec keys k).
Proof.
  rewrite group_count_rev, <- (count_occ_rev string_dec keys).
  induction (rev keys) as [|k0 r IH]; [reflexivity|].
  cbn [fold_right]. rewrite bump_count_for, IH. simpl.
  destruct (string_dec k0 k) as [->|Hne].
  - rewrite String.eqb_refl. lia.
  - apply String.eqb_neq in Hne. rewrite Hne. lia.
Qed.

Lemma count_for_absent k groups :
  ~ In k (map fst groups) -> count_for k groups = 0.
Proof.
  induction groups as [|[k0 n] r IH]; simpl; [reflexivity|].
  intros H. destruct (k0 =? k)%string eqn:E.
  - apply String.eqb_eq in E. tauto.
  - apply IH. tauto.
Qed.

Lemma count_for_member k n groups :
  NoDup (map fst groups) -> In (k, n) groups -> count_for k groups = n.
Proof.
  induction groups as [|[k0 n0] r IH]; simpl; [intros _ []|].
  intros H Hin. inversion H as [|? ? Hk0 Hr]; subst.
  destruct Hin as [Heq|Hin].
  - injection Heq as -> ->. rewrite String.eqb_refl.
    rewrite count_for_absent by exact Hk0. lia.
  - destruct (k0 =? k)%string eqn:E; [|apply IH; assumption].
    apply String.eqb_eq in E. subst k0. exfalso. apply Hk0.
    apply (in_map fst) in Hin. exact Hin.
Qed.

Lemma define_property_new k n acc :
  ~ In k (map fst acc) -> define_property k n acc = acc ++ [(k, n)].
Proof.
  induction acc as [|[k0 n0] r IH]; simpl; [reflexivity|].
  intros H. destruct (k0 =? k)%string eqn:E.
  - apply String.eqb_eq in E. tauto.
  - rewrite IH by tauto. reflexivity.
Qed.

Lemma reduce_counts_from acc rows :
  NoDup (map fst (acc ++ rows)) ->
  fold_left (fun acc row => set_property (fst row) (snd row) acc) rows acc
  = acc ++ own_groups rows.
Proof.
  revert acc. induction rows as [|[k n] r IH]; intros acc H; simpl.
  - rewrite app_nil_r. reflexivity.
  - unfold set_property. destruct (k =? "__proto__")%string eqn:E; simpl.
    + apply IH. rewrite map_app in *. simpl in H.
      apply NoDup_remove_1 in H. exact H.
    + rewrite map_app in H. simpl in H.
      rewrite define_property_new
        by (apply NoDup_remove_2 in H; rewrite in_app_iff in *; tauto).
      rewrite IH; [rewrite <- app_assoc; reflexivity|].
      rewrite !map_app, <- app_assoc. exact H.
Qed.

(** Rows with distinct keys become an object with the same entries, but for
    the row of the key [__proto__]. *)
Lemma reduce_counts_distinct rows :
  NoDup (map fst rows) -> reduce_counts rows = own_groups rows.
Proof. intros H. unfold reduce_counts. now rewrite reduce_counts_from. Qed.

Lemma own_groups_plain rows :
  ~ In "__proto__" (map fst rows) -> own_groups rows = rows.
Proof.
  induction rows as [|[k n] r IH]; simpl; [reflexivity|]. intros H.
  destruct (k =? "__proto__")%string eqn:E.
  - apply String.eqb_eq in E. tauto.
  - simpl. rewrite IH by tauto. reflexivity.
Qed.

Lemma group_count_keys keys k :
  In k (map fst (group_count keys)) -> In k keys.
Proof.
  rewrite group_count_rev, (in_rev keys).
  induction (rev keys) as [|k0 r IH]; simpl; [tauto|].
  intros H. apply bump_keys in H as [->|H]; auto.
Qed.

Lemma plain_groups_keys agentId db :
  plain_groups agentId db = true ->
  ~ In "__proto__" (map ToolCallRow.name (tool_calls_of agentId db))
  /\ ~ In "__proto__" (map ToolCallRow.state (tool_calls_of agentId db)).
Proof.
  unfold plain_groups. intros H. rewrite forallb_forall in H.
  split; intros Hin; apply in_map_iff in Hin as (c & Hc & Hin);
    specialize (H c Hin); rewrite Hc in H; simpl in H;
    [|rewrite andb_false_r in H]; discriminate.
Qed.

Lemma aggregateStats_eq agentId st :
  has_relation messages_rel (pool st) = true ->
  has_relation tool_calls_rel (pool st) = true ->
  has_relation snapshots_rel (pool st) = true ->
  aggregateStats agentId st
  = (Ok (mkAgentStats
           (Z.of_nat (List.length (messages_of agentId (pool st))))
           (Z.of_nat (List.length (tool_calls_of agentId (pool st))))
           (Z.of_nat (List.length (snapshots_of agentId (pool st))))
           (Z.of_nat (List.length (messages_of agentId (pool st))))
           (own_groups
              (group_count (map ToolCallRow.name
                                (tool_calls_of agentId (pool st)))))
           (own_groups
              (group_count (map ToolCallRow.state
                                (tool_calls_of agentId (pool st)))))),
     st).
Proof.
  intros Hm Hc Hs. unfold aggregateStats. rewrite with_client_eq.
  unfold aggregateStats_client, bind, fetch, count_rows, count_tool_calls_by,
    select, connect, ret.
  simpl. rewrite Hm. simpl. rewrite Hc. simpl. rewrite Hs. simpl.
  rewrite !reduce_counts_distinct by apply group_count_NoDup.
  destruct st; reflexivity.
Qed.

Lemma count_occ_loaded agentId db key :
  forall k,
    count_occ string_dec
      (map key (order_by (fun a b => ToolCallRow.created_at a
                                     <=? ToolCallRow.created_at b)
                         (tool_calls_of agentId db))) k
    = count_occ string_dec (map key (tool_calls_of agentId db)) k.
Proof.
  apply Permutation_count_occ, Permutation_map, order_by_perm.
Qed.

(** X30.  On an initialised store [aggregateStats] returns totals equal to
    the lengths of what [loadMessages], [loadToolCallRecords] and
    [listSnapshots] return for the same agent on the same state.  When no
    tool call of the agent has the name or the state [__proto__], the counts
    by name and the counts by state each sum to the total of tool calls, and
    each group holds the number of loaded records with that name, or
    state. *)
Theorem aggregateStats_counts agentId st :
  schema_ready (pool st) = true ->
  plain_groups agentId (pool st) = true ->
  exists stats msgs calls snaps,
    fst (aggregateStats agentId st) = Ok stats
    /\ fst (loadMessages agentId st) = Ok msgs
    /\ fst (loadToolCallRecords agentId st) = Ok calls
    /\ fst (listSnapshots agentId st) = Ok snaps
    /\ totalMessages stats = Z.of_nat (List.length msgs)
    /\ totalToolCalls stats = Z.of_nat (List.length calls)
    /\ totalSnapshots stats = Z.of_nat (List.length snaps)
    /\ sum_counts (toolCallsByName stats) = totalToolCalls stats
    /\ sum_counts (toolCallsByState stats) = totalToolCalls stats
    /\ (forall name n,
          In (name, n) (toolCallsByName stats) ->
          n = Z.of_nat (count_occ string_dec
                          (map ToolCallRecord.name calls) name))
    /\ (forall state n,
          In (state, n) (toolCallsByState stats) ->
          n = Z.of_nat (count_occ string_dec
                          (map ToolCallRecord.state calls) state)).
Proof.
  intros Hready Hplain.
  apply schema_ready_relations in Hready as (Ha & Hm & Hc & Hs).
  apply plain_groups_keys in Hplain as [Hn Ht].
  rewrite (aggregateStats_eq _ _ Hm Hc Hs).
  rewrite !own_groups_plain
    by (intros Hin; apply group_count_keys in Hin; tauto).
  rewrite loadMessages_eq, loadToolCallRecords_eq, listSnapshots_eq.
  unfold select_messages, select_tool_calls, select_snapshots.
  rewrite !select_ok by assumption. simpl.
  eexists _, _, _, _. do 4 (split; [reflexivity|]). simpl.
  rewrite !length_map, !order_by_length, !group_count_sum, !length_map.
  do 5 (split; [reflexivity|]).
  split; intros k n Hin;
    apply count_for_member in Hin; try apply group_count_NoDup;
    rewrite group_count_for in Hin; subst n; f_equal;
    rewrite map_map; simpl; symmetry; apply count_occ_loaded.
Qed.

(** * Invariants *)

Section Keeps.
Variable P : Db -> Prop.

Lemma keeps_ret {A : Type} (a : A) : keeps P (ret a).
Proof. intros s H. exact H. Qed.

Lemma keeps_throw {A : Type} e : keeps P (@throw A e).
Proof. intros s H. exact H. Qed.

Lemma keeps_bind {A B : Type} (m : Client A) (k : A -> Client B) :
  keeps P m -> (forall a, keeps P (k a)) -> keeps P (bind m k).
Proof.
  intros Hm Hk s H. unfold bind. specialize (Hm s H).
  destruct (m s) as [[a|e] s']; simpl in *; [apply Hk, Hm | exact Hm].
Qed.

Lemma keeps_try_catch {A : Type} (m : Client A) (h : PgError -> Client A) :
  keeps P m -> (forall e, keeps P (h e)) -> keeps P (try_catch m h).
Proof.
  intros Hm Hh s H. unfold try_catch. specialize (Hm s H).
  destruct (m s) as [[a|e] s']; simpl in *; [exact Hm | apply Hh, Hm].
Qed.

Lemma keeps_exec stmt : stmt_keeps P stmt -> keeps P (exec stmt).
Proof.
  intros Hs s [Hc Ht]. unfold exec, stmt_keeps in *.
  destruct (tx s) as [|w|].
  - destruct (stmt (committed s)) eqn:E; unfold session_inv; simpl; eauto.
  - destruct (stmt w) eqn:E; unfold session_inv; simpl; eauto.
  - unfold session_inv; simpl; auto.
Qed.

Lemma keeps_fetch {A : Type} (q : Db -> Outcome A) : keeps P (fetch q).
Proof.
  intros s [Hc Ht]. unfold fetch.
  destruct (tx s) as [|w|]; [| destruct (q w) |]; unfold session_inv; simpl;
    auto.
Qed.

Lemma keeps_BEGIN : keeps P BEGIN.
Proof.
  intros s [Hc Ht]. unfold BEGIN.
  destruct (tx s) as [|w|]; unfold session_inv; simpl; auto.
Qed.

Lemma keeps_COMMIT : keeps P COMMIT.
Proof.
  intros s [Hc Ht]. unfold COMMIT.
  destruct (tx s) as [|w|]; unfold session_inv; simpl; auto.
Qed.

Lemma keeps_ROLLBACK : keeps P ROLLBACK.
Proof. intros s [Hc Ht]. unfold ROLLBACK, session_inv. simpl. auto. Qed.

Lemma keeps_with_client {A : Type} (body : Client A) st :
  keeps P body -> P (pool st) -> P (pool (snd (with_client body st))).
Proof.
  intros Hb Hp. unfold with_client.
  assert (session_inv P (connect st)) as Hs by (split; simpl; auto).
  specialize (Hb _ Hs). destruct (body (connect st)) as [r s]. apply Hb.
Qed.
End Keeps.

Create HintDb keeps.
#[local] Hint Resolve keeps_ret keeps_throw keeps_bind keeps_try_catch
  keeps_exec keeps_fetch keeps_BEGIN keeps_COMMIT keeps_ROLLBACK : keeps.

(** ** The foreign keys *)

Lemma fk_ok_split db :
  fk_ok db = true <->
  forallb (fun m => agent_exists (MessageRow.agent_id m) db) (messages db) = true
  /\ forallb (fun c => agent_exists (ToolCallRow.agent_id c) db) (tool_calls db)
     = true
  /\ forallb (fun s => agent_exists (SnapshotRow.agent_id s) db) (snapshots db)
     = true.
Proof. unfold fk_ok. rewrite !andb_true_iff. tauto. Qed.

Lemma forallb_filter {A : Type} (p q : A -> bool) l :
  forallb p l = true -> forallb p (filter q l) = true.
Proof.
  rewrite !forallb_forall. intros H x Hx. apply filter_In in Hx. apply H, Hx.
Qed.

Lemma forallb_impl {A : Type} (p q : A -> bool) l :
  (forall x, p x = true -> q x = true) ->
  forallb p l = true -> forallb q l = true.
Proof. rewrite !forallb_forall. auto. Qed.

(** A statement that leaves the agents alone and adds no dependent row
    keeps the foreign keys. *)
Lemma fk_ok_rows db db' :
  (forall agentId, agent_exists agentId db = true ->
                   agent_exists agentId db' = true) ->
  (forall m, In m (messages db') ->
             In m (messages db) \/ agent_exists (MessageRow.agent_id m) db' = true) ->
  (forall c, In c (tool_calls db') ->
             In c (tool_calls db)
             \/ agent_exists (ToolCallRow.agent_id c) db' = true) ->
  (forall s, In s (snapshots db') ->
             In s (snapshots db)
             \/ agent_exists (SnapshotRow.agent_id s) db' = true) ->
  fk_ok db = true -> fk_ok db' = true.
Proof.
  intros Ha Hm Hc Hs. rewrite !fk_ok_split, !forallb_forall.
  intros (Fm & Fc & Fs). repeat split; intros x Hx.
  - destruct (Hm x Hx); auto.
  - destruct (Hc x Hx); auto.
  - destruct (Hs x Hx); auto.
Qed.

Ltac same_rows :=
  simpl; try (intros ? ?; assumption); try (intros ? ?; left; assumption).

Lemma add_relation_rows r db :
  agents (add_relation r db) = agents db
  /\ messages (add_relation r db) = messages db
  /\ tool_calls (add_relation r db) = tool_calls db
  /\ snapshots (add_relation r db) = snapshots db.
Proof. unfold add_relation. destruct (has_relation r db); simpl; auto. Qed.

Lemma fk_ok_same_rows db db' :
  agents db' = agents db -> messages db' = messages db ->
  tool_calls db' = tool_calls db -> snapshots db' = snapshots db ->
  fk_ok db = true -> fk_ok db' = true.
Proof.
  unfold fk_ok, agent_exists. intros -> -> -> ->. auto.
Qed.

Lemma create_table_fk r : stmt_keeps foreign_keys (create_table r).
Proof.
  intros db db' H E. unfold foreign_keys in *.
  destruct (add_relation_rows r db) as (Ha & Hm & Hc & Hs).
  unfold create_table, require in E.
  destruct r; try destruct (has_relation agents_rel db); try discriminate;
    injection E as <-; apply (fk_ok_same_rows db); assumption.
Qed.

Lemma create_messages_indexes_fk :
  stmt_keeps foreign_keys create_messages_indexes.
Proof.
  intros db db' H E. unfold foreign_keys in *.
  destruct (add_relation_rows idx_messages_agent_seq db) as (Ha & Hm & Hc & Hs).
  unfold create_messages_indexes, require in E.
  destruct (has_relation messages_rel db); [|discriminate].
  destruct (has_relation idx_messages_agent_seq db);
    [injection E as <-; exact H|].
  destruct (has_dup_agent_seq (messages db)); [discriminate|].
  injection E as <-. apply (fk_ok_same_rows db); assumption.
Qed.

Lemma require_only_fk r :
  stmt_keeps foreign_keys (fun db => require r db (Ok db)).
Proof.
  intros db db' H E. unfold require in E.
  destruct (has_relation r db); [|discriminate]. injection E as <-. exact H.
Qed.

Lemma delete_messages_fk agentId :
  stmt_keeps foreign_keys (delete_messages agentId).
Proof.
  intros db db' H E. unfold foreign_keys in *.
  unfold delete_messages, require in E.
  destruct (has_relation messages_rel db); [|discriminate]. injection E as <-.
  revert H. apply fk_ok_rows; same_rows.
  intros m Hm. left. apply filter_In in Hm. apply Hm.
Qed.

Lemma delete_tool_calls_fk agentId :
  stmt_keeps foreign_keys (delete_tool_calls agentId).
Proof.
  intros db db' H E. unfold foreign_keys in *.
  unfold delete_tool_calls, require in E.
  destruct (has_relation tool_calls_rel db); [|discriminate]. injection E as <-.
  revert H. apply fk_ok_rows; same_rows.
  intros m Hm. left. apply filter_In in Hm. apply Hm.
Qed.

Lemma insert_message_fk r : stmt_keeps foreign_keys (insert_message r).
Proof.
  intros db db' H E. unfold foreign_keys in *.
  unfold insert_message, require in E.
  destruct (has_relation messages_rel db); [|discriminate].
  destruct (negb (int4 _ && int8 _)); [discriminate|].
  destruct (negb (role_check _)); [discriminate|].
  destruct (existsb _ (messages db)); [discriminate|].
  destruct (has_relation idx_messages_agent_seq db && _); [discriminate|].
  destruct (agent_exists (MessageRow.agent_id r) db) eqn:Hr; [|discriminate].
  simpl in E. injection E as <-.
  revert H. apply fk_ok_rows; same_rows.
  intros m Hm. apply in_app_iff in Hm as [Hm|[<-|[]]]; [left|right]; assumption.
Qed.

Lemma insert_tool_call_fk r : stmt_keeps foreign_keys (insert_tool_call r).
Proof.
  intros db db' H E. unfold foreign_keys in *.
  unfold insert_tool_call, require in E.
  destruct (has_relation tool_calls_rel db); [|discriminate].
  destruct (negb _); [discriminate|].
  destruct (existsb _ (tool_calls db)); [discriminate|].
  destruct (agent_exists (ToolCallRow.agent_id r) db) eqn:Hr; [|discriminate].
  simpl in E. injection E as <-.
  revert H. apply fk_ok_rows; same_rows.
  intros m Hm. apply in_app_iff in Hm as [Hm|[<-|[]]]; [left|right]; assumption.
Qed.

Lemma agent_exists_map (f : AgentRow.t -> AgentRow.t) db l agentId :
  (forall a, AgentRow.agent_id (f a) = AgentRow.agent_id a) ->
  agents db = map f l ->
  agent_exists agentId db
  = existsb (fun a => (AgentRow.agent_id a =? agentId)%string) l.
Proof.
  intros Hf E. unfold agent_exists. rewrite E. clear E.
  induction l as [|a r IH]; simpl; [reflexivity|]. now rewrite Hf, IH.
Qed.

Lemma update_message_count_fk n agentId :
  stmt_keeps foreign_keys (update_message_count n agentId).
Proof.
  intros db db' H E. unfold foreign_keys in *.
  unfold update_message_count, require in E.
  destruct (has_relation agents_rel db); [|discriminate].
  destruct (negb (int4 n)); [discriminate|]. injection E as <-.
  revert H. apply fk_ok_rows; same_rows.
  intros a Ha.
  rewrite (agent_exists_map (set_message_count n agentId) _ (agents db));
    [exact Ha | | reflexivity].
  intros x. unfold set_message_count.
  destruct (AgentRow.agent_id x =? agentId)%string; reflexivity.
Qed.

Lemma agent_exists_upsert r l agentId :
  existsb (agent_key agentId) l = true ->
  existsb (agent_key agentId)
          (upsert (agent_key (AgentRow.agent_id r)) r l) = true.
Proof.
  intros H. unfold upsert.
  destruct (existsb (agent_key (AgentRow.agent_id r)) l).
  - induction l as [|a l IH]; simpl in *; [discriminate|].
    apply orb_true_iff in H as [H|H].
    + destruct (agent_key (AgentRow.agent_id r) a) eqn:E.
      * unfold agent_key in *. apply String.eqb_eq in E, H.
        rewrite <- H, E, String.eqb_refl. reflexivity.
      * rewrite H. reflexivity.
    + rewrite (IH H). apply orb_true_r.
  - rewrite existsb_app, H. reflexivity.
Qed.

Lemma upsert_agent_fk r : stmt_keeps foreign_keys (upsert_agent r).
Proof.
  intros db db' H E. unfold foreign_keys in *.
  unfold upsert_agent, require in E.
  destruct (has_relation agents_rel db); [|discriminate].
  destruct (negb _); [discriminate|]. injection E as <-.
  revert H. apply fk_ok_rows; same_rows.
  intros a. apply agent_exists_upsert.
Qed.

Lemma upsert_snapshot_fk r : stmt_keeps foreign_keys (upsert_snapshot r).
Proof.
  intros db db' H E. unfold foreign_keys in *.
  unfold upsert_snapshot, require in E.
  destruct (has_relation snapshots_rel db); [|discriminate].
  destruct (negb (int4 _)); [discriminate|].
  set (key := snapshot_key (SnapshotRow.agent_id r) (SnapshotRow.snapshot_id r))
    in *.
  destruct (existsb key (snapshots db)) eqn:Hk; simpl in E.
  - injection E as <-. pose proof H as H0. revert H.
    apply fk_ok_rows; same_rows.
    intros s Hs. unfold upsert in Hs. rewrite Hk in Hs.
    apply in_map_iff in Hs as (x & Hx & Hin).
    destruct (key x) eqn:Ex; [|subst x; left; exact Hin].
    subst s. right.
    apply fk_ok_split in H0 as (_ & _ & Fs).
    rewrite forallb_forall in Fs. specialize (Fs x Hin).
    unfold key, snapshot_key in Ex. apply andb_prop in Ex as [Ex _].
    apply String.eqb_eq in Ex. rewrite <- Ex. exact Fs.
  - destruct (agent_exists (SnapshotRow.agent_id r) db) eqn:Hr;
      [|discriminate].
    simpl in E. injection E as <-.
    revert H. apply fk_ok_rows; same_rows.
    intros s Hs. unfold upsert in Hs. rewrite Hk in Hs.
    apply in_app_iff in Hs as [Hs|[<-|[]]]; [left|right]; assumption.
Qed.

Lemma agent_exists_other agentId other l :
  (other =? agentId)%string = false ->
  existsb (agent_key other) l = true ->
  existsb (agent_key other)
          (filter (fun a => negb (agent_key agentId a)) l) = true.
Proof.
  intros Hne. induction l as [|a l IH]; simpl; [trivial|].
  intros H. apply orb_true_iff in H as [H|H].
  - assert (agent_key agentId a = false) as ->.
    { unfold agent_key in *. apply String.eqb_eq in H. rewrite H. exact Hne. }
    simpl. rewrite H. reflexivity.
  - destruct (negb (agent_key agentId a)); simpl; rewrite (IH H);
      [apply orb_true_r | reflexivity].
Qed.

Lemma delete_agent_fk agentId : stmt_keeps foreign_keys (delete_agent agentId).
Proof.
  intros db db' H E. unfold foreign_keys in *.
  unfold delete_agent, require in E.
  destruct (has_relation agents_rel db); [|discriminate].
  destruct (agent_exists agentId db); injection E as <-; [|exact H].
  apply fk_ok_split in H as (Fm & Fc & Fs).
  rewrite forallb_forall in Fm, Fc, Fs.
  apply fk_ok_split; simpl. rewrite !forallb_forall.
  repeat split; intros x Hx; apply filter_In in Hx as [Hx Hne];
    apply negb_true_iff in Hne;
    apply agent_exists_other; auto.
  - apply (Fm x Hx).
  - apply (Fc x Hx).
  - apply (Fs x Hx).
Qed.

#[local] Hint Resolve create_table_fk create_messages_indexes_fk
  require_only_fk delete_messages_fk delete_tool_calls_fk insert_message_fk
  insert_tool_call_fk update_message_count_fk upsert_agent_fk
  upsert_snapshot_fk delete_agent_fk : keeps.

Ltac keep :=
  repeat (cbv beta;
          first [ apply keeps_ret | apply keeps_throw | apply keeps_BEGIN
                | apply keeps_COMMIT | apply keeps_ROLLBACK | apply keeps_fetch
                | apply keeps_exec; solve [auto with keeps]
                | apply keeps_bind; [|intros ?]
                | apply keeps_try_catch; [|intros ?]
                | solve [auto with keeps] ]).

Lemma insert_messages_fk env agentId msgs :
  forall index, keeps foreign_keys (insert_messages env agentId index msgs).
Proof. induction msgs; intros index; simpl; keep. Qed.

Lemma insert_tool_calls_fk agentId records :
  keeps foreign_keys (insert_tool_calls agentId records).
Proof. induction records; simpl; keep. Qed.

#[local] Hint Resolve insert_messages_fk insert_tool_calls_fk : keeps.

Lemma saveMessages_client_fk env agentId msgs :
  keeps foreign_keys (saveMessages_client env agentId msgs).
Proof.
  unfold saveMessages_client, saveMessages_try. keep.
Qed.

Lemma saveToolCallRecords_client_fk agentId records :
  keeps foreign_keys (saveToolCallRecords_client agentId records).
Proof.
  unfold saveToolCallRecords_client, saveToolCallRecords_try. keep.
Qed.

Lemma settle_fk st : foreign_keys (pool st) -> foreign_keys (pool (settle st)).
Proof.
  intros H. unfold settle, initialize.
  pose proof (keeps_with_client foreign_keys createTables st) as H1.
  destruct (with_client createTables st) as [[u|e] st1]; simpl in *.
  - assert (foreign_keys (pool st1)) as H2
      by (apply H1; [unfold createTables; keep | exact H]).
    pose proof (keeps_with_client foreign_keys createIndexes st1) as H3.
    destruct (with_client createIndexes st1) as [[u'|e] st2]; simpl in *;
      apply H3; try exact H2; unfold createIndexes; keep.
  - apply H1; [unfold createTables; keep | exact H].
Qed.

(** X4.  The foreign keys hold in every state the store can reach by its
    own methods: every message, tool call and snapshot belongs to a stored
    agent. *)
Theorem reachable_foreign_keys st : reachable st -> fk_ok (pool st) = true.
Proof.
  induction 1 as [|st _ IH|st _ IH|st a i _ IH|st e a m _ IH|st a r _ IH
                 |st a s _ IH|st a _ IH]; simpl.
  - reflexivity.
  - exact IH.
  - apply settle_fk, IH.
  - apply (keeps_with_client foreign_keys); [keep | exact IH].
  - apply (keeps_with_client foreign_keys);
      [apply saveMessages_client_fk | exact IH].
  - apply (keeps_with_client foreign_keys);
      [apply saveToolCallRecords_client_fk | exact IH].
  - apply (keeps_with_client foreign_keys); [keep | exact IH].
  - apply (keeps_with_client foreign_keys); [keep | exact IH].
Qed.

(** * Tool-call records *)




Lemma insert_tool_call_rows_ok rows :
  forall db db',
    insert_tool_call_rows rows db = Ok db' ->
    db' = with_tool_calls db (tool_calls db ++ rows).
Proof.
  induction rows as [|r rest IH]; intros db db' H; simpl in *.
  - injection H as <-. rewrite app_nil_r. destruct db; reflexivity.
  - destruct (insert_tool_call r db) as [db1|e] eqn:E; [|discriminate].
    apply IH in H. subst db'.
    unfold insert_tool_call, require in E.
    destruct (has_relation tool_calls_rel db); [|discriminate].
    destruct (negb _); [discriminate|].
    destruct (existsb _ (tool_calls db)); [discriminate|].
    destruct (negb (agent_exists _ db)); [discriminate|].
    injection E as <-. unfold with_tool_calls; simpl.
    rewrite <- app_assoc. reflexivity.
Qed.

Lemma tool_calls_of_saved agentId records db db' :
  saveToolCallRecords_plan agentId records db = Ok db' ->
  has_relation tool_calls_rel db' = true
  /\ tool_calls_of agentId db' = map (tool_call_row agentId) records.
Proof.
  unfold saveToolCallRecords_plan, delete_tool_calls. intros H.
  destruct (require tool_calls_rel db _) as [db1|e] eqn:E1; [|discriminate].
  apply require_ok in E1 as [Hrel E1]. injection E1 as <-.
  apply insert_tool_call_rows_ok in H. subst db'. split; [exact Hrel|].
  unfold tool_calls_of; simpl. rewrite filter_app.
  rewrite (filter_none (fun c => (ToolCallRow.agent_id c =? agentId)%string)).
  simpl. induction records as [|r rest IH]; simpl; [reflexivity|].
  rewrite String.eqb_refl, IH. reflexivity.
Qed.


(** * LIKE and prefixes *)

Lemma like_any text : like_match "%" text = true.
Proof.
  induction text as [|c t IH]; [reflexivity|].
  simpl in *. exact IH.
Qed.

(** A pattern made of a prefix without wildcard characters and a final [%]
    matches the strings that start with the prefix. *)
Lemma like_literal_prefix p :
  literal p = true ->
  forall text, like_match (p ++ "%")%string text = String.prefix p text.
Proof.
  induction p as [|c rest IH]; intros Hlit text.
  - change ("" ++ "%")%string with "%". rewrite like_any.
    destruct text; reflexivity.
  - simpl in Hlit. apply andb_prop in Hlit as [Hc Hrest].
    unfold wildcard in Hc. apply negb_true_iff in Hc.
    apply orb_false_iff in Hc as [Hc Hb]. apply orb_false_iff in Hc as [Hp Hu].
    cbn [append like_match String.prefix]. rewrite Hp, Hu, Hb.
    destruct text as [|c' t]; [reflexivity|].
    simpl String.prefix. destruct (ascii_dec c c') as [->|Hne].
    + rewrite Ascii.eqb_refl. apply IH, Hrest.
    + apply Ascii.eqb_neq in Hne. rewrite Hne. reflexivity.
Qed.

Lemma list_eq prefix st :
  list_ prefix st
  = (match (match or_null_str prefix with
            | Some p => select_agent_ids_like (p ++ "%")%string
            | None => select_agent_ids
            end) (pool st) with
     | Ok rows => Ok (map AgentRow.agent_id rows)
     | Throw e => Throw e
     end, st).
Proof.
  unfold list_. rewrite with_client_eq.
  unfold list_client, bind, fetch, connect, ret; simpl.
  destruct (match or_null_str prefix with
            | Some p => select_agent_ids_like (p ++ "%")%string
            | None => select_agent_ids
            end (pool st)); simpl; destruct st; reflexivity.
Qed.

(** [list] with a prefix that has no wildcard character: the agents whose id
    starts with the prefix, by [created_at] descending. *)
Lemma list_literal_prefix p st :
  literal p = true -> p <> "" ->
  has_relation agents_rel (pool st) = true ->
  fst (list_ (Some p) st)
  = Ok (map AgentRow.agent_id
          (order_by by_created_at_desc
             (filter (fun a => String.prefix p (AgentRow.agent_id a))
                     (agents (pool st))))).
Proof.
  intros Hlit Hne Hrel. rewrite list_eq. simpl.
  destruct (p =? "")%string eqn:E; [apply String.eqb_eq in E; contradiction|].
  unfold select_agent_ids_like. rewrite select_ok by exact Hrel. simpl.
  do 3 f_equal. apply filter_ext. intros a.
  apply like_literal_prefix, Hlit.
Qed.

Lemma list_all st :
  has_relation agents_rel (pool st) = true ->
  fst (list_ None st)
  = Ok (map AgentRow.agent_id (order_by by_created_at_desc (agents (pool st)))).
Proof.
  intros Hrel. rewrite list_eq. simpl. unfold select_agent_ids.
  rewrite select_ok by exact Hrel. reflexivity.
Qed.

Section OrderBySorted.
Context {A : Type} (le : A -> A -> bool).
Hypothesis le_total : forall x y, le x y = true \/ le y x = true.

Lemma insert_by_sorted x l :
  Sorted (fun a b => le a b = true) l ->
  Sorted (fun a b => le a b = true) (insert_by le x l).
Proof.
  induction 1 as [|y r Hr IH Hhd]; simpl; [repeat constructor|].
  destruct (le x y) eqn:E.
  - repeat constructor; assumption.
  - constructor; [exact IH|].
    destruct (le_total x y) as [Hxy|Hyx]; [congruence|].
    destruct Hhd as [|z r' Hyz]; simpl; [repeat constructor; exact Hyx|].
    destruct (le x z); constructor; assumption.
Qed.

(** The rows ORDER BY returns are in order. *)
Lemma order_by_is_sorted l : Sorted (fun a b => le a b = true) (order_by le l).
Proof.
  induction l as [|x r IH]; simpl; [constructor | apply insert_by_sorted, IH].
Qed.
End OrderBySorted.

Lemma by_created_at_desc_total a b :
  by_created_at_desc a b = true \/ by_created_at_desc b a = true.
Proof. unfold by_created_at_desc. apply String.leb_total. Qed.

(** The agents [list] returns come latest first. *)
Lemma list_rows_ordered rows :
  Sorted (fun a b => (AgentRow.created_at b <=? AgentRow.created_at a)%string
                     = true)
         (order_by by_created_at_desc rows).
Proof. apply order_by_is_sorted, by_created_at_desc_total. Qed.

(* ================================================================== *)
(** * Further properties *)

(** * Initialisation, continued *)

Lemma Relation_eqb_eq a b : Relation_eqb a b = true <-> a = b.
Proof. destruct a, b; simpl; split; intros H; congruence. Qed.

Lemma has_relation_add r r' db :
  has_relation r (add_relation r' db) = Relation_eqb r r' || has_relation r db.
Proof.
  unfold add_relation. destruct (has_relation r' db) eqn:E.
  - destruct (Relation_eqb r r') eqn:E'; [|reflexivity].
    apply Relation_eqb_eq in E'. subst. simpl. exact E.
  - unfold has_relation. simpl. rewrite existsb_app. simpl.
    rewrite orb_false_r. apply orb_comm.
Qed.

Lemma createTables_plan_rows db :
  agents (createTables_plan db) = agents db
  /\ messages (createTables_plan db) = messages db
  /\ tool_calls (createTables_plan db) = tool_calls db
  /\ snapshots (createTables_plan db) = snapshots db.
Proof.
  unfold createTables_plan.
  repeat match goal with
         | |- context [add_relation ?r ?d] =>
             destruct (add_relation_rows r d) as (-> & -> & -> & ->)
         end.
  auto.
Qed.

Lemma createTables_plan_ready db : schema_ready (createTables_plan db) = true.
Proof.
  unfold schema_ready, createTables_plan. rewrite !has_relation_add. simpl.
  rewrite ?orb_true_r. reflexivity.
Qed.

Lemma createTables_eq st :
  with_client createTables st
  = (Ok tt, mkStore (createTables_plan (pool st)) (init st)).
Proof.
  rewrite with_client_eq. unfold createTables, createTables_plan, connect.
  unfold bind, exec, create_table, require, seen; simpl.
  repeat (rewrite !has_relation_add; simpl; rewrite ?orb_true_r; simpl).
  reflexivity.
Qed.

Lemma createIndexes_run db :
  schema_ready db = true ->
  exists log,
    createIndexes (mkSession db Idle [])
    = match create_messages_indexes db with
      | Ok db' => (Ok tt, mkSession db' Idle log)
      | Throw e => (Throw e, mkSession db Idle log)
      end.
Proof.
  intros H. apply schema_ready_relations in H as (Ha & Hm & Hc & Hs).
  unfold createIndexes.
  unfold bind at 1, exec at 1, require at 1; simpl. rewrite Ha.
  unfold bind at 1, exec at 1; simpl.
  destruct (create_messages_indexes db) as [db'|e] eqn:E; simpl.
  - assert (has_relation tool_calls_rel db' = true
            /\ has_relation snapshots_rel db' = true) as [Hc' Hs'].
    { unfold create_messages_indexes, require in E. rewrite Hm in E.
      destruct (has_relation idx_messages_agent_seq db);
        [injection E as <-; auto|].
      destruct (has_dup_agent_seq _); [discriminate|]. injection E as <-.
      rewrite !has_relation_add, Hc, Hs. simpl. auto. }
    unfold bind, exec, require, seen; simpl. rewrite Hc'. simpl.
    rewrite Hs'. eexists. reflexivity.
  - eexists. reflexivity.
Qed.

Lemma createIndexes_eq st :
  schema_ready (pool st) = true ->
  with_client createIndexes st
  = match create_messages_indexes (pool st) with
    | Ok db' => (Ok tt, mkStore db' (init st))
    | Throw e => (Throw e, st)
    end.
Proof.
  intros H. unfold with_client, connect.
  destruct (createIndexes_run _ H) as [log ->].
  destruct (create_messages_indexes (pool st)); [reflexivity|].
  destruct st; reflexivity.
Qed.

Lemma initialize_eq st :
  initialize st
  = match create_messages_indexes (createTables_plan (pool st)) with
    | Ok db' => (Ok tt, mkStore db' (init st))
    | Throw e => (Throw e, mkStore (createTables_plan (pool st)) (init st))
    end.
Proof.
  unfold initialize. rewrite createTables_eq.
  rewrite createIndexes_eq by apply createTables_plan_ready. reflexivity.
Qed.

Lemma create_messages_indexes_spec db :
  has_relation messages_rel db = true ->
  match create_messages_indexes db with
  | Ok db' =>
      db' = add_relation idx_messages_agent_seq db
      /\ (has_relation idx_messages_agent_seq db = true
          \/ has_dup_agent_seq (messages db) = false)
  | Throw e =>
      e = unique_violation "idx_messages_agent_seq"
      /\ has_relation idx_messages_agent_seq db = false
      /\ has_dup_agent_seq (messages db) = true
  end.
Proof.
  intros Hm. unfold create_messages_indexes, require. rewrite Hm.
  destruct (has_relation idx_messages_agent_seq db) eqn:E.
  - split; [|now left]. unfold add_relation. rewrite E. reflexivity.
  - destruct (has_dup_agent_seq (messages db)); auto.
Qed.

Lemma add_relation_twice r db :
  add_relation r (add_relation r db) = add_relation r db.
Proof.
  unfold add_relation at 1. rewrite has_relation_add.
  replace (Relation_eqb r r) with true by (destruct r; reflexivity).
  reflexivity.
Qed.

Lemma add_relation_present r db :
  has_relation r db = true -> add_relation r db = db.
Proof. unfold add_relation. intros ->. reflexivity. Qed.

Lemma createTables_plan_again db :
  schema_ready db = true -> createTables_plan db = db.
Proof.
  intros H. apply schema_ready_relations in H as (Ha & Hm & Hc & Hs).
  unfold createTables_plan.
  rewrite (add_relation_present agents_rel) by exact Ha.
  rewrite (add_relation_present messages_rel) by exact Hm.
  rewrite (add_relation_present tool_calls_rel) by exact Hc.
  apply add_relation_present, Hs.
Qed.

Lemma initialize_rows st :
  agents (pool (snd (initialize st))) = agents (pool st)
  /\ messages (pool (snd (initialize st))) = messages (pool st)
  /\ tool_calls (pool (snd (initialize st))) = tool_calls (pool st)
  /\ snapshots (pool (snd (initialize st))) = snapshots (pool st).
Proof.
  rewrite initialize_eq.
  destruct (createTables_plan_rows (pool st)) as (Ea & Em & Ec & Es).
  pose proof (createTables_plan_ready (pool st)) as Hready.
  pose proof (schema_ready_relations _ Hready) as (_ & Hm & _).
  pose proof (create_messages_indexes_spec _ Hm) as Hspec.
  destruct (create_messages_indexes (createTables_plan (pool st)))
    as [db'|e]; simpl; [|auto].
  destruct Hspec as [-> _].
  destruct (add_relation_rows idx_messages_agent_seq
              (createTables_plan (pool st))) as (-> & -> & -> & ->).
  auto.
Qed.

(** Initialisation fails only on the unique index, over messages that share
    a sequence number. *)
Lemma initialize_fails st e :
  fst (initialize st) = Throw e ->
  e = unique_violation "idx_messages_agent_seq"
  /\ has_dup_agent_seq (messages (pool st)) = true.
Proof.
  rewrite initialize_eq.
  destruct (createTables_plan_rows (pool st)) as (_ & Em & _).
  pose proof (createTables_plan_ready (pool st)) as Hready.
  pose proof (schema_ready_relations _ Hready) as (_ & Hm & _).
  pose proof (create_messages_indexes_spec _ Hm) as Hspec.
  destruct (create_messages_indexes (createTables_plan (pool st)))
    as [db'|e']; simpl; [discriminate|].
  intros H. injection H as <-. destruct Hspec as (-> & _ & Hdup).
  rewrite Em in Hdup. auto.
Qed.

(** X1.  Initialisation never changes a row.  It leaves the four relations
    in place; when it succeeds the unique index on [(agent_id, seq)] is there
    and running it again changes nothing; it fails only with the
    [unique_violation] of that index, over stored messages of one agent that
    share a sequence number. *)
Theorem initialize_keeps_rows st :
  let st' := snd (initialize st) in
  agents (pool st') = agents (pool st)
  /\ messages (pool st') = messages (pool st)
  /\ tool_calls (pool st') = tool_calls (pool st)
  /\ snapshots (pool st') = snapshots (pool st)
  /\ schema_ready (pool st') = true
  /\ match fst (initialize st) with
     | Ok _ =>
         has_relation idx_messages_agent_seq (pool st') = true
         /\ initialize st' = (Ok tt, st')
     | Throw e =>
         e = unique_violation "idx_messages_agent_seq"
         /\ has_dup_agent_seq (messages (pool st)) = true
     end.
Proof.
  intros st'. subst st'.
  destruct (initialize_rows st) as (Ha & Hm & Hc & Hs).
  repeat (split; [assumption|]). clear Ha Hm Hc Hs.
  pose proof (initialize_fails st) as Hfail.
  rewrite initialize_eq in *.
  pose proof (createTables_plan_ready (pool st)) as Hready.
  pose proof (schema_ready_relations _ Hready) as (Ha & Hm & Hc & Hs).
  pose proof (create_messages_indexes_spec _ Hm) as Hspec.
  destruct (create_messages_indexes (createTables_plan (pool st)))
    as [db'|e] eqn:E; simpl in *.
  - destruct Hspec as [-> _].
    assert (schema_ready (add_relation idx_messages_agent_seq
                            (createTables_plan (pool st))) = true) as Hready'.
    { unfold schema_ready. rewrite !has_relation_add, Ha, Hm, Hc, Hs.
      reflexivity. }
    split; [exact Hready'|].
    assert (has_relation idx_messages_agent_seq
              (add_relation idx_messages_agent_seq
                 (createTables_plan (pool st))) = true) as Hidx
      by (rewrite has_relation_add; reflexivity).
    split; [exact Hidx|].
    rewrite initialize_eq. simpl.
    rewrite createTables_plan_again by exact Hready'.
    unfold create_messages_indexes, require.
    apply schema_ready_relations in Hready' as (_ & -> & _).
    rewrite Hidx. reflexivity.
  - split; [exact Hready|]. apply Hfail. reflexivity.
Qed.

(** * Keys *)

Lemma NoDup_map_filter {A B : Type} (f : A -> B) (p : A -> bool) l :
  NoDup (map f l) -> NoDup (map f (filter p l)).
Proof.
  induction l as [|x r IH]; simpl; intros H; [constructor|].
  inversion H as [|? ? Hx Hr]; subst.
  destruct (p x); simpl; [constructor|]; auto.
  intros Hin. apply Hx. apply in_map_iff in Hin as (y & Hy & Hin).
  apply filter_In in Hin as [Hin _]. rewrite <- Hy. apply in_map, Hin.
Qed.

Lemma NoDup_map_snoc {A B : Type} (f : A -> B) l r :
  NoDup (map f l) -> ~ In (f r) (map f l) -> NoDup (map f (l ++ [r])).
Proof.
  intros Hl Hr. rewrite map_app. simpl.
  apply NoDup_app; [exact Hl | repeat constructor; intros [] |].
  intros x Hx [<-|[]]. contradiction.
Qed.

Lemma existsb_false_key {A : Type} (key : A -> string) l k :
  existsb (fun x => (key x =? k)%string) l = false -> ~ In k (map key l).
Proof.
  intros H Hin. apply in_map_iff in Hin as (x & <- & Hx).
  assert (existsb (fun y => (key y =? key x)%string) l = true) as E
    by (apply existsb_exists; exists x; split;
        [exact Hx | apply String.eqb_refl]).
  congruence.
Qed.

Lemma map_replace_keys {A B : Type} (key : A -> B) (p : A -> bool) r l :
  (forall x, p x = true -> key x = key r) ->
  map key (map (fun x => if p x then r else x) l) = map key l.
Proof.
  intros H. rewrite map_map. apply map_ext_in. intros x _.
  destruct (p x) eqn:E; [symmetry; apply H, E | reflexivity].
Qed.

Lemma NoDup_upsert {A B : Type} (key : A -> B) (p : A -> bool) r l :
  (forall x, p x = true -> key x = key r) ->
  (forall x, In x l -> key x = key r -> p x = true) ->
  NoDup (map key l) -> NoDup (map key (upsert p r l)).
Proof.
  intros Hp Hk H. unfold upsert. destruct (existsb p l) eqn:E.
  - rewrite map_replace_keys by exact Hp. exact H.
  - apply NoDup_map_snoc; [exact H|].
    intros Hin. apply in_map_iff in Hin as (x & Hx & Hin).
    assert (existsb p l = true) as E'
      by (apply existsb_exists; exists x; split; [exact Hin | auto]).
    congruence.
Qed.

Ltac keys_case H :=
  unfold primary_keys in *; destruct H as (Ka & Km & Kc & Ks); simpl;
  repeat split; try assumption.

Lemma create_table_pk r : stmt_keeps primary_keys (create_table r).
Proof.
  intros db db' H E.
  destruct (add_relation_rows r db) as (Ha & Hm & Hc & Hs).
  unfold create_table, require in E.
  destruct r; try destruct (has_relation agents_rel db); try discriminate;
    injection E as <-; unfold primary_keys in *;
    rewrite Ha, Hm, Hc, Hs; exact H.
Qed.

Lemma create_messages_indexes_pk :
  stmt_keeps primary_keys create_messages_indexes.
Proof.
  intros db db' H E.
  destruct (add_relation_rows idx_messages_agent_seq db) as (Ha & Hm & Hc & Hs).
  unfold create_messages_indexes, require in E.
  destruct (has_relation messages_rel db); [|discriminate].
  destruct (has_relation idx_messages_agent_seq db);
    [injection E as <-; exact H|].
  destruct (has_dup_agent_seq (messages db)); [discriminate|].
  injection E as <-. unfold primary_keys in *.
  rewrite Ha, Hm, Hc, Hs. exact H.
Qed.

Lemma require_only_pk r :
  stmt_keeps primary_keys (fun db => require r db (Ok db)).
Proof.
  intros db db' H E. unfold require in E.
  destruct (has_relation r db); [|discriminate]. injection E as <-. exact H.
Qed.

Lemma delete_messages_pk agentId :
  stmt_keeps primary_keys (delete_messages agentId).
Proof.
  intros db db' H E. unfold delete_messages, require in E.
  destruct (has_relation messages_rel db); [|discriminate]. injection E as <-.
  keys_case H. apply NoDup_map_filter, Km.
Qed.

Lemma delete_tool_calls_pk agentId :
  stmt_keeps primary_keys (delete_tool_calls agentId).
Proof.
  intros db db' H E. unfold delete_tool_calls, require in E.
  destruct (has_relation tool_calls_rel db); [|discriminate].
  injection E as <-. keys_case H. apply NoDup_map_filter, Kc.
Qed.

Lemma insert_message_pk r : stmt_keeps primary_keys (insert_message r).
Proof.
  intros db db' H E. apply insert_message_ok in E as (-> & _ & _ & Hid & _).
  keys_case H. apply NoDup_map_snoc; [exact Km|].
  apply existsb_false_key with (key := MessageRow.id), Hid.
Qed.

Lemma insert_tool_call_pk r : stmt_keeps primary_keys (insert_tool_call r).
Proof.
  intros db db' H E. unfold insert_tool_call, require in E.
  destruct (has_relation tool_calls_rel db); [|discriminate].
  destruct (negb _); [discriminate|].
  destruct (existsb _ (tool_calls db)) eqn:Hid; [discriminate|].
  destruct (negb (agent_exists _ db)); [discriminate|].
  injection E as <-. keys_case H. apply NoDup_map_snoc; [exact Kc|].
  apply existsb_false_key with (key := ToolCallRow.id), Hid.
Qed.

Lemma update_message_count_pk n agentId :
  stmt_keeps primary_keys (update_message_count n agentId).
Proof.
  intros db db' H E. unfold update_message_count, require in E.
  destruct (has_relation agents_rel db); [|discriminate].
  destruct (negb (int4 n)); [discriminate|]. injection E as <-.
  keys_case H. rewrite map_map.
  rewrite (map_ext _ AgentRow.agent_id); [exact Ka|].
  intros a. apply set_message_count_id.
Qed.

Lemma upsert_agent_pk r : stmt_keeps primary_keys (upsert_agent r).
Proof.
  intros db db' H E. apply upsert_agent_ok in E as [_ ->].
  keys_case H. apply NoDup_upsert; [| |exact Ka].
  - intros x Hx. apply String.eqb_eq, Hx.
  - intros x _ Hx. apply String.eqb_eq, Hx.
Qed.

Lemma snapshot_key_iff r x :
  snapshot_key (SnapshotRow.agent_id r) (SnapshotRow.snapshot_id r) x = true
  <-> snapshot_id_of x = snapshot_id_of r.
Proof.
  unfold snapshot_key, snapshot_id_of.
  rewrite andb_true_iff, !String.eqb_eq. split.
  - intros [-> ->]. reflexivity.
  - intros H. injection H as -> ->. auto.
Qed.

Lemma upsert_snapshot_pk r : stmt_keeps primary_keys (upsert_snapshot r).
Proof.
  intros db db' H E. unfold upsert_snapshot, require in E.
  destruct (has_relation snapshots_rel db); [|discriminate].
  destruct (negb (int4 _)); [discriminate|].
  destruct (negb (existsb _ (snapshots db)) && _); [discriminate|].
  injection E as <-. keys_case H. apply NoDup_upsert; [| |exact Ks].
  - intros x Hx. apply snapshot_key_iff, Hx.
  - intros x _ Hx. apply snapshot_key_iff, Hx.
Qed.

Lemma delete_agent_pk agentId : stmt_keeps primary_keys (delete_agent agentId).
Proof.
  intros db db' H E. unfold delete_agent, require in E.
  destruct (has_relation agents_rel db); [|discriminate].
  destruct (agent_exists agentId db); injection E as <-; [|exact H].
  keys_case H; apply NoDup_map_filter; assumption.
Qed.

#[local] Hint Resolve create_table_pk create_messages_indexes_pk
  require_only_pk delete_messages_pk delete_tool_calls_pk insert_message_pk
  insert_tool_call_pk update_message_count_pk upsert_agent_pk
  upsert_snapshot_pk delete_agent_pk : keeps.

Lemma insert_messages_pk env agentId msgs :
  forall index, keeps primary_keys (insert_messages env agentId index msgs).
Proof. induction msgs; intros index; simpl; keep. Qed.

Lemma insert_tool_calls_pk agentId records :
  keeps primary_keys (insert_tool_calls agentId records).
Proof. induction records; simpl; keep. Qed.

#[local] Hint Resolve insert_messages_pk insert_tool_calls_pk : keeps.

Lemma settle_pool st : pool (settle st) = pool (snd (initialize st)).
Proof. unfold settle. destruct (initialize st) as [[u|e] st']; reflexivity. Qed.

Lemma same_rows_primary_keys db db' :
  agents db' = agents db -> messages db' = messages db ->
  tool_calls db' = tool_calls db -> snapshots db' = snapshots db ->
  primary_keys db -> primary_keys db'.
Proof. unfold primary_keys. intros -> -> -> ->. auto. Qed.

Lemma reachable_primary_keys st : reachable st -> primary_keys (pool st).
Proof.
  induction 1 as [|st _ IH|st _ IH|st a i _ IH|st e a m _ IH|st a r _ IH
                 |st a s _ IH|st a _ IH]; simpl.
  - repeat split; constructor.
  - exact IH.
  - rewrite settle_pool.
    destruct (initialize_rows st) as (Ha & Hm & Hc & Hs).
    apply (same_rows_primary_keys (pool st)); assumption.
  - apply (keeps_with_client primary_keys); [keep | exact IH].
  - apply (keeps_with_client primary_keys); [|exact IH].
    unfold saveMessages_client, saveMessages_try. keep.
  - apply (keeps_with_client primary_keys); [|exact IH].
    unfold saveToolCallRecords_client, saveToolCallRecords_try. keep.
  - apply (keeps_with_client primary_keys); [keep | exact IH].
  - apply (keeps_with_client primary_keys); [keep | exact IH].
Qed.

(** ** Sequence numbers *)

Lemma NoDup_map_injective {A B : Type} (f : A -> B) l :
  (forall x y, f x = f y -> x = y) -> NoDup l -> NoDup (map f l).
Proof.
  intros Hf. induction 1 as [|x r Hx Hr IH]; simpl; constructor; [|exact IH].
  intros Hin. apply in_map_iff in Hin as (y & Hy & Hin).
  apply Hf in Hy. subst y. contradiction.
Qed.

Lemma message_rows_agent_seq env agentId msgs :
  forall index,
    map agent_seq (message_rows env agentId index msgs)
    = map (fun i => (agentId, Z.of_nat i)) (seq index (List.length msgs)).
Proof.
  induction msgs as [|m r IH]; intros i; simpl; [|rewrite IH]; reflexivity.
Qed.

Lemma saveMessages_sequence_unique env agentId msgs st :
  sequence_unique (pool st) ->
  sequence_unique (pool (snd (saveMessages env agentId msgs st))).
Proof.
  intros H. rewrite saveMessages_eq.
  destruct (saveMessages_plan env agentId msgs (pool st)) as [db'|e] eqn:Hp;
    [|exact H].
  apply saveMessages_plan_ok in Hp as (_ & _ & -> & _).
  unfold sequence_unique in *. simpl. rewrite map_app.
  apply NoDup_app.
  - apply NoDup_map_filter, H.
  - rewrite message_rows_agent_seq. apply NoDup_map_injective.
    + intros x y E. injection E as E. apply Nat2Z.inj, E.
    + apply seq_NoDup.
  - intros k Hold Hnew. rewrite message_rows_agent_seq in Hnew.
    apply in_map_iff in Hnew as (i & <- & _).
    apply in_map_iff in Hold as (m & Hm & Hin).
    apply filter_In in Hin as [_ Hne]. apply negb_true_iff in Hne.
    unfold agent_seq in Hm. injection Hm as Hm _. rewrite Hm in Hne.
    rewrite String.eqb_refl in Hne. discriminate.
Qed.

Lemma saveToolCallRecords_messages agentId records st :
  messages (pool (snd (saveToolCallRecords agentId records st)))
  = messages (pool st).
Proof.
  rewrite saveToolCallRecords_eq.
  destruct (saveToolCallRecords_plan agentId records (pool st)) as [db'|e]
    eqn:Hp; [|reflexivity].
  unfold saveToolCallRecords_plan, delete_tool_calls in Hp.
  destruct (require tool_calls_rel (pool st) _) as [db1|e] eqn:E1;
    [|discriminate].
  apply require_ok in E1 as [_ E1]. injection E1 as <-.
  apply insert_tool_call_rows_ok in Hp. subst db'. reflexivity.
Qed.

Lemma reachable_sequence_unique st : reachable st -> sequence_unique (pool st).
Proof.
  induction 1 as [|st _ IH|st _ IH|st a i _ IH|st e a m _ IH|st a r _ IH
                 |st a s _ IH|st a _ IH]; simpl.
  - constructor.
  - exact IH.
  - rewrite settle_pool.
    destruct (initialize_rows st) as (_ & Hm & _).
    unfold sequence_unique. rewrite Hm. exact IH.
  - rewrite saveInfo_eq.
    destruct (upsert_agent (agent_row i) (pool st)) as [db'|e] eqn:E;
      [|exact IH].
    apply upsert_agent_ok in E as [_ ->]. exact IH.
  - apply saveMessages_sequence_unique, IH.
  - unfold sequence_unique. rewrite saveToolCallRecords_messages. exact IH.
  - rewrite saveSnapshot_eq.
    destruct (upsert_snapshot (snapshot_row a s) (pool st)) as [db'|e] eqn:E;
      [|exact IH].
    unfold upsert_snapshot, require in E.
    destruct (has_relation snapshots_rel (pool st)); [|discriminate].
    destruct (negb (int4 _)); [discriminate|].
    destruct (negb (existsb _ _) && _); [discriminate|].
    injection E as <-. exact IH.
  - rewrite delete_eq.
    destruct (delete_agent a (pool st)) as [db'|e] eqn:E; [|exact IH].
    unfold delete_agent, require in E.
    destruct (has_relation agents_rel (pool st)); [|discriminate].
    destruct (agent_exists a (pool st)); injection E as <-; [|exact IH].
    unfold sequence_unique in *. simpl. apply NoDup_map_filter, IH.
Qed.

Lemma has_dup_agent_seq_NoDup l :
  NoDup (map agent_seq l) -> has_dup_agent_seq l = false.
Proof.
  induction l as [|m r IH]; simpl; intros H; [reflexivity|].
  inversion H as [|? ? Hm Hr]; subst. rewrite (IH Hr), orb_false_r.
  destruct (existsb _ r) eqn:E; [|reflexivity].
  apply existsb_exists in E as (m' & Hin & Heq).
  apply andb_prop in Heq as [Ha Hs].
  apply String.eqb_eq in Ha. apply Z.eqb_eq in Hs.
  exfalso. apply Hm. apply in_map_iff. exists m'. split; [|exact Hin].
  unfold agent_seq. now rewrite Ha, Hs.
Qed.

(** X2.  In every state the store can reach by its own methods the keys are
    unique: no two agents share an [agent_id], no two messages an [id], no
    two tool calls an [id], no two snapshots an [(agent_id, snapshot_id)],
    and no two messages of an agent a sequence number. *)
Theorem reachable_keys_unique st :
  reachable st ->
  NoDup (map AgentRow.agent_id (agents (pool st)))
  /\ NoDup (map MessageRow.id (messages (pool st)))
  /\ NoDup (map ToolCallRow.id (tool_calls (pool st)))
  /\ NoDup (map snapshot_id_of (snapshots (pool st)))
  /\ NoDup (map agent_seq (messages (pool st))).
Proof.
  intros H. destruct (reachable_primary_keys st H) as (Ka & Km & Kc & Ks).
  repeat split; try assumption. apply reachable_sequence_unique, H.
Qed.

(** X3.  In a state the store reached by its own methods, initialisation
    succeeds: the unique index on [(agent_id, seq)] can be built over the
    messages the store wrote, and the store is initialised once its
    initialisation has settled. *)
Theorem reachable_initialize_succeeds st :
  reachable st ->
  fst (initialize st) = Ok tt /\ init (settle st) = InitDone.
Proof.
  intros H. apply reachable_sequence_unique in H.
  apply has_dup_agent_seq_NoDup in H.
  pose proof (initialize_fails st) as Hfail.
  unfold settle. destruct (initialize st) as [[[]|e] st']; simpl in *.
  - auto.
  - destruct (Hfail e eq_refl) as [_ Hdup]. congruence.
Qed.

(** * Saving tool-call records *)

Lemma saveToolCallRecords_try_run agentId records db log :
  exists k,
    saveToolCallRecords_try agentId records (mkSession db Idle log)
    = match saveToolCallRecords_plan agentId records db with
      | Ok db' =>
          (Ok tt, mkSession db' Idle
                    (log ++ repeat db (2 + List.length records) ++ [db']))
      | Throw e => (Throw e, mkSession db Aborted (log ++ repeat db k))
      end.
Proof.
  unfold saveToolCallRecords_try, saveToolCallRecords_plan, bind at 1 2,
    BEGIN, exec at 1.
  simpl.
  destruct (delete_tool_calls agentId db) as [db1|e] eqn:E1; unfold seen.
  - destruct (insert_tool_calls_run agentId records db db1
                ((log ++ [db]) ++ [db])) as [k Hr].
    unfold bind at 1. rewrite Hr.
    destruct (insert_tool_call_rows _ db1) as [db2|e] eqn:E2.
    + exists 0%nat. unfold COMMIT, seen; simpl. do 2 f_equal.
      rewrite <- !app_assoc. reflexivity.
    + exists (2 + k)%nat. rewrite <- !app_assoc. reflexivity.
  - exists 2%nat. rewrite <- !app_assoc. reflexivity.
Qed.

(** X5.  [saveToolCallRecords] is a transaction: every committed state
    another session can read while it runs is the old one or the new one,
    and the client is given back outside a transaction.  When it succeeds
    the tool calls of the agent are exactly the rows of the records given;
    when it fails the store is as before and the error is the one of the
    try block. *)
Theorem saveToolCallRecords_atomic agentId records st :
  let st' := snd (saveToolCallRecords agentId records st) in
  let run := saveToolCallRecords_client agentId records (connect st) in
  Forall (fun db => db = pool st \/ db = pool st') (observed (snd run))
  /\ tx (snd run) = Idle
  /\ match fst (saveToolCallRecords agentId records st) with
     | Ok _ =>
         tool_calls_of agentId (pool st')
         = map (tool_call_row agentId) records
     | Throw e =>
         st' = st
         /\ fst (saveToolCallRecords_try agentId records (connect st))
            = Throw e
     end.
Proof.
  intros st' run. subst st' run. rewrite saveToolCallRecords_eq.
  unfold connect.
  destruct (saveToolCallRecords_client_run agentId records (pool st) [])
    as [k Hc].
  destruct (saveToolCallRecords_try_run agentId records (pool st) [])
    as [k' Ht].
  rewrite Hc, Ht.
  destruct (saveToolCallRecords_plan agentId records (pool st)) as [db'|e]
    eqn:Hp; simpl.
  - split; [|split; [reflexivity|]].
    + do 2 (constructor; [now left|]). apply Forall_app.
      split; [apply Forall_repeat; now left|].
      constructor; [now right | constructor].
    + apply (tool_calls_of_saved _ _ _ _ Hp).
  - split; [apply Forall_repeat; now left|]. auto.
Qed.

(** X6.  [saveMessages] and [saveToolCallRecords] never leave a transaction
    open: started on an idle client, each ends, committed or rolled back,
    with the client idle again, whatever the input and the database. *)
Theorem transactions_are_closed env agentId msgs records db :
  tx (snd (saveMessages_client env agentId msgs (mkSession db Idle []))) = Idle
  /\ tx (snd (saveToolCallRecords_client agentId records
                (mkSession db Idle []))) = Idle.
Proof.
  destruct (saveMessages_client_run env agentId msgs db []) as [k ->].
  destruct (saveToolCallRecords_client_run agentId records db []) as [k' ->].
  destruct (saveMessages_plan env agentId msgs db);
    destruct (saveToolCallRecords_plan agentId records db); auto.
Qed.

Lemma insert_tool_call_rows_fresh rows :
  forall db db',
    insert_tool_call_rows rows db = Ok db' ->
    NoDup (map ToolCallRow.id rows)
    /\ (forall id, In id (map ToolCallRow.id rows) ->
                   ~ In id (map ToolCallRow.id (tool_calls db)))
    /\ (rows <> [] ->
        forall r, In r rows -> agent_exists (ToolCallRow.agent_id r) db = true).
Proof.
  induction rows as [|r rest IH]; intros db db' H; simpl in *.
  - repeat split; [constructor | intros id [] | intros _ r []].
  - destruct (insert_tool_call r db) as [db1|e] eqn:E; [|discriminate].
    apply IH in H as (Hnd & Hfresh & Hagents).
    unfold insert_tool_call, require in E.
    destruct (has_relation tool_calls_rel db); [|discriminate].
    destruct (negb _); [discriminate|].
    destruct (existsb _ (tool_calls db)) eqn:Hid; [discriminate|].
    destruct (agent_exists (ToolCallRow.agent_id r) db) eqn:Hr;
      [|discriminate].
    simpl in E. injection E as <-. simpl in *.
    apply existsb_false_key with (key := ToolCallRow.id) in Hid.
    repeat split.
    + constructor; [|exact Hnd].
      intros Hin. apply (Hfresh _ Hin). rewrite map_app, in_app_iff.
      right. left. reflexivity.
    + intros id [<-|Hin]; [exact Hid|].
      intros Hold. apply (Hfresh _ Hin). rewrite map_app, in_app_iff.
      left. exact Hold.
    + intros _ x [<-|Hx]; [exact Hr|].
      destruct rest as [|y rest']; [destruct Hx|].
      apply (Hagents ltac:(discriminate) x Hx).
Qed.

(** X7.  [tool_calls.id] is a key of the whole relation, not of one agent:
    when [saveToolCallRecords] succeeds, the records given have pairwise
    different ids and none of them is the id of a tool call stored for
    another agent. *)
Theorem saveToolCallRecords_ids_are_global agentId records st st' :
  saveToolCallRecords agentId records st = (Ok tt, st') ->
  NoDup (map ToolCallRecord.id records)
  /\ (forall c, In c (tool_calls (pool st)) ->
                ToolCallRow.agent_id c <> agentId ->
                ~ In (ToolCallRow.id c) (map ToolCallRecord.id records)).
Proof.
  rewrite saveToolCallRecords_eq.
  destruct (saveToolCallRecords_plan agentId records (pool st)) as [db'|e]
    eqn:Hp; [|discriminate].
  intros _. unfold saveToolCallRecords_plan, delete_tool_calls in Hp.
  destruct (require tool_calls_rel (pool st) _) as [db1|e] eqn:E1;
    [|discriminate].
  apply require_ok in E1 as [_ E1]. injection E1 as <-.
  apply insert_tool_call_rows_fresh in Hp as (Hnd & Hfresh & _).
  rewrite map_map in Hnd, Hfresh. simpl in Hnd, Hfresh.
  split; [exact Hnd|].
  intros c Hc Hother Hin. apply (Hfresh _ Hin).
  apply in_map, filter_In. split; [exact Hc|].
  apply negb_true_iff, String.eqb_neq, Hother.
Qed.

(** * What a write leaves alone *)

Lemma filter_other_key {A : Type} (key : A -> string) (a b : string) l :
  a <> b ->
  filter (fun x => (key x =? b)%string)
         (filter (fun x => negb (key x =? a)%string) l)
  = filter (fun x => (key x =? b)%string) l.
Proof.
  intros Hne. induction l as [|x r IH]; simpl; [reflexivity|].
  destruct (key x =? a)%string eqn:Ea; simpl.
  - apply String.eqb_eq in Ea.
    assert ((key x =? b)%string = false) as ->
      by (apply String.eqb_neq; congruence).
    exact IH.
  - destruct (key x =? b)%string; now rewrite IH.
Qed.

Lemma message_rows_other env agentId other msgs :
  other <> agentId ->
  forall index,
    filter (fun m => (MessageRow.agent_id m =? other)%string)
           (message_rows env agentId index msgs) = [].
Proof.
  intros Hne. induction msgs as [|m r IH]; intros i; simpl; [reflexivity|].
  assert ((agentId =? other)%string = false) as ->
    by (apply String.eqb_neq; congruence).
  apply IH.
Qed.

Lemma set_message_count_other n agentId a :
  agent_key agentId a = false -> set_message_count n agentId a = a.
Proof. unfold agent_key, set_message_count. intros ->. reflexivity. Qed.

Lemma map_set_message_count_other n agentId other l :
  other <> agentId ->
  map (set_message_count n agentId) (filter (agent_key other) l)
  = filter (agent_key other) l.
Proof.
  intros Hne. induction l as [|a r IH]; simpl; [reflexivity|].
  destruct (agent_key other a) eqn:E; simpl; [|exact IH].
  rewrite IH. f_equal. apply set_message_count_other.
  unfold agent_key in *. apply String.eqb_eq in E.
  apply String.eqb_neq. congruence.
Qed.

Lemma info_of_set_message_count n agentId a :
  agent_key agentId a = true ->
  info_of_row (set_message_count n agentId a)
  = with_messageCount n (info_of_row a).
Proof. unfold agent_key, set_message_count. intros ->. reflexivity. Qed.

(** X9.  A successful [saveMessages] for one agent touches only that agent:
    the messages and the metadata of every other agent, and the tool calls
    and snapshots of every agent, read back as before; the metadata of the
    agent itself is the old one with [messageCount] set to the number of
    messages. *)
Theorem saveMessages_frame env agentId msgs st st' :
  saveMessages env agentId msgs st = (Ok tt, st') ->
  (forall other, other <> agentId ->
     fst (loadMessages other st') = fst (loadMessages other st)
     /\ fst (loadInfo other st') = fst (loadInfo other st))
  /\ (forall any,
        fst (loadToolCallRecords any st') = fst (loadToolCallRecords any st)
        /\ fst (listSnapshots any st') = fst (listSnapshots any st))
  /\ fst (loadInfo agentId st')
     = match fst (loadInfo agentId st) with
       | Ok (Some info) =>
           Ok (Some (with_messageCount (Z.of_nat (List.length msgs)) info))
       | other => other
       end.
Proof.
  intros Hsave. apply saveMessages_ok in Hsave as [Hp _].
  pose proof (saveMessages_plan_ok _ _ _ _ _ Hp) as (Hm & Ha & Hdb & _).
  assert (forall r, has_relation r (pool st') = has_relation r (pool st))
    as Hrel by (intros r; apply has_relation_same; rewrite Hdb; reflexivity).
  split; [intros other Hne; split | split; [intros any; split|]].
  - rewrite !loadMessages_eq. simpl. unfold select_messages, select.
    rewrite Hrel. unfold messages_of. rewrite Hdb. simpl.
    rewrite filter_app, message_rows_other, app_nil_r by exact Hne.
    rewrite (filter_other_key MessageRow.agent_id) by congruence.
    reflexivity.
  - rewrite !loadInfo_eq. simpl. unfold select_agent, select.
    rewrite Hrel. rewrite Hdb. simpl.
    rewrite filter_map_key by apply set_message_count_id.
    rewrite map_set_message_count_other by exact Hne. reflexivity.
  - rewrite !loadToolCallRecords_eq. simpl.
    unfold select_tool_calls, select, tool_calls_of.
    rewrite Hrel, Hdb. reflexivity.
  - rewrite !listSnapshots_eq. simpl.
    unfold select_snapshots, select, snapshots_of.
    rewrite Hrel, Hdb. reflexivity.
  - rewrite !loadInfo_eq. simpl. unfold select_agent, select.
    rewrite Hrel, Ha, Hdb. simpl.
    rewrite filter_map_key by apply set_message_count_id.
    destruct (filter (agent_key agentId) (agents (pool st))) as [|row rows]
      eqn:E; simpl; [reflexivity|].
    rewrite info_of_set_message_count by apply (filter_head_true _ _ _ _ E).
    reflexivity.
Qed.

(** * Snapshots *)

Lemma snapshot_of_snapshot_row agentId s :
  opt_object (Snapshot.metadata s) = true ->
  snapshot_eqv (snapshot_of_row (snapshot_row agentId s)) s.
Proof.
  intros H. unfold snapshot_eqv, snapshot_of_row, snapshot_row; simpl.
  repeat split; try apply jsonb_eqv.
  rewrite or_null_stringify. apply stringify_typed, H.
Qed.

Lemma upsert_snapshot_ok r db db' :
  upsert_snapshot r db = Ok db' ->
  has_relation snapshots_rel db = true
  /\ db' = with_snapshots db
             (upsert (snapshot_key (SnapshotRow.agent_id r)
                                   (SnapshotRow.snapshot_id r)) r
                     (snapshots db)).
Proof.
  unfold upsert_snapshot, require. intros H.
  destruct (has_relation snapshots_rel db); [|discriminate].
  destruct (negb (int4 _)); [discriminate|].
  destruct (negb (existsb _ (snapshots db)) && _); [discriminate|].
  injection H as <-. auto.
Qed.

(** X10.  After a successful [saveSnapshot], [loadSnapshot] of the same agent
    and id returns the snapshot, equal on every field but [createdAt]
    (documents up to the canonical form of JSONB), and [listSnapshots] of the
    agent contains it.  [createdAt] comes back as the [Date] the driver makes
    of the TIMESTAMP column, not as the string given.  The metadata, when
    given, is an object. *)
Theorem saveSnapshot_loadSnapshot agentId snapshot st st' :
  opt_object (Snapshot.metadata snapshot) = true ->
  saveSnapshot agentId snapshot st = (Ok tt, st') ->
  exists loaded listed,
    fst (loadSnapshot agentId (Snapshot.id snapshot) st') = Ok (Some loaded)
    /\ snapshot_eqv loaded snapshot
    /\ fst (listSnapshots agentId st') = Ok listed
    /\ In loaded listed.
Proof.
  intros Hty Hsave. rewrite saveSnapshot_eq in Hsave.
  destruct (upsert_snapshot (snapshot_row agentId snapshot) (pool st))
    as [db'|e] eqn:H; [|discriminate].
  injection Hsave as <-. apply upsert_snapshot_ok in H as [Hs ->].
  rewrite loadSnapshot_eq, listSnapshots_eq. simpl.
  unfold select_snapshot, select_snapshots, select.
  rewrite (has_relation_same snapshots_rel (pool st)) by reflexivity.
  rewrite Hs. simpl.
  set (r := snapshot_row agentId snapshot).
  destruct (upsert_first (snapshot_key agentId (Snapshot.id snapshot)) r
              (snapshot_key_refl r) (snapshots (pool st))) as [rest Hrest].
  rewrite Hrest.
  eexists _, _. split; [reflexivity|].
  split; [apply snapshot_of_snapshot_row, Hty|].
  split; [reflexivity|].
  apply in_map.
  apply (Permutation_in _ (Permutation_sym (order_by_perm _ _))).
  unfold snapshots_of. simpl. apply filter_In. split.
  - assert (In r (filter (snapshot_key agentId (Snapshot.id snapshot))
                         (upsert (snapshot_key agentId (Snapshot.id snapshot))
                                 r (snapshots (pool st))))) as Hin
      by (rewrite Hrest; now left).
    apply filter_In in Hin. apply Hin.
  - apply String.eqb_refl.
Qed.

(** * An agent that is not there *)

Lemma insert_message_needs_agent r db :
  agent_exists (MessageRow.agent_id r) db = false ->
  exists e, insert_message r db = Throw e.
Proof.
  intros H. destruct (insert_message r db) as [db'|e] eqn:E;
    [|exists e; reflexivity].
  apply insert_message_ok in E as (_ & _ & _ & _ & Hex). congruence.
Qed.

Lemma insert_tool_call_needs_agent r db :
  agent_exists (ToolCallRow.agent_id r) db = false ->
  exists e, insert_tool_call r db = Throw e.
Proof.
  intros H. destruct (insert_tool_call r db) as [db'|e] eqn:E;
    [|exists e; reflexivity].
  unfold insert_tool_call, require in E.
  destruct (has_relation tool_calls_rel db); [|discriminate].
  destruct (negb _); [discriminate|].
  destruct (existsb _ (tool_calls db)); [discriminate|].
  rewrite H in E. discriminate.
Qed.

(** X11.  Rows belong to a stored agent.  For an agent without metadata,
    [saveMessages] and [saveToolCallRecords] with at least one element and
    [saveSnapshot] throw and leave the store as it was. *)
Theorem writes_need_the_agent agentId st :
  fk_ok (pool st) = true ->
  agent_exists agentId (pool st) = false ->
  (forall env msg msgs,
      exists e, saveMessages env agentId (msg :: msgs) st = (Throw e, st))
  /\ (forall record records,
      exists e,
        saveToolCallRecords agentId (record :: records) st = (Throw e, st))
  /\ (forall snapshot,
      exists e, saveSnapshot agentId snapshot st = (Throw e, st)).
Proof.
  intros Hfk Hno. repeat split.
  - intros env msg msgs. rewrite saveMessages_eq.
    unfold saveMessages_plan, delete_messages, require.
    destruct (has_relation messages_rel (pool st)); [|eexists; reflexivity].
    simpl.
    destruct (insert_message_needs_agent
                (message_row (env 0%nat) agentId 0 msg)
                (with_messages (pool st)
                   (filter (fun m => negb (MessageRow.agent_id m =? agentId)%string)
                           (messages (pool st)))) Hno) as [e ->].
    exists e. reflexivity.
  - intros record records. rewrite saveToolCallRecords_eq.
    unfold saveToolCallRecords_plan, delete_tool_calls, require.
    destruct (has_relation tool_calls_rel (pool st)); [|eexists; reflexivity].
    simpl.
    destruct (insert_tool_call_needs_agent
                (tool_call_row agentId record)
                (with_tool_calls (pool st)
                   (filter (fun c => negb (ToolCallRow.agent_id c =? agentId)%string)
                           (tool_calls (pool st)))) Hno) as [e ->].
    exists e. reflexivity.
  - intros snapshot. rewrite saveSnapshot_eq.
    unfold upsert_snapshot, require.
    destruct (has_relation snapshots_rel (pool st)); [|eexists; reflexivity].
    destruct (negb (int4 _)); [eexists; reflexivity|].
    simpl. rewrite Hno.
    assert (existsb (snapshot_key agentId (Snapshot.id snapshot))
                    (snapshots (pool st)) = false) as ->.
    { destruct (existsb _ _) eqn:E; [|reflexivity].
      apply existsb_exists in E as (s & Hin & Hkey).
      unfold snapshot_key in Hkey. apply andb_prop in Hkey as [Hkey _].
      apply String.eqb_eq in Hkey.
      apply fk_ok_split in Hfk as (_ & _ & Fs).
      rewrite forallb_forall in Fs. specialize (Fs s Hin). congruence. }
    simpl. eexists. reflexivity.
Qed.

Lemma absent_rows agentId db :
  fk_ok db = true ->
  agent_exists agentId db = false ->
  filter (agent_key agentId) (agents db) = []
  /\ messages_of agentId db = []
  /\ tool_calls_of agentId db = []
  /\ snapshots_of agentId db = [].
Proof.
  intros Hfk Hno. apply fk_ok_split in Hfk as (Fm & Fc & Fs).
  split; [apply existsb_false_filter, Hno|].
  unfold messages_of, tool_calls_of, snapshots_of.
  split; [|split]; eapply no_rows_without_agent; eassumption.
Qed.

(** X12.  For an agent that is not stored, on an initialised database:
    [exists] is false, [loadInfo] and [loadSnapshot] return nothing,
    [loadMessages], [loadToolCallRecords] and [listSnapshots] return the
    empty list, [aggregateStats] counts zero, and [delete] succeeds and
    changes nothing. *)
Theorem reads_of_an_absent_agent agentId st :
  schema_ready (pool st) = true ->
  fk_ok (pool st) = true ->
  agent_exists agentId (pool st) = false ->
  fst (exists_ agentId st) = Ok false
  /\ fst (loadInfo agentId st) = Ok None
  /\ fst (loadMessages agentId st) = Ok []
  /\ fst (loadToolCallRecords agentId st) = Ok []
  /\ fst (listSnapshots agentId st) = Ok []
  /\ (forall snapshotId, fst (loadSnapshot agentId snapshotId st) = Ok None)
  /\ fst (aggregateStats agentId st) = Ok (mkAgentStats 0 0 0 0 [] [])
  /\ delete agentId st = (Ok tt, st).
Proof.
  intros Hready Hfk Hno.
  apply schema_ready_relations in Hready as (Ha & Hm & Hc & Hs).
  destruct (absent_rows _ _ Hfk Hno) as (Ea & Em & Ec & Es).
  rewrite exists_eq, loadInfo_eq, loadMessages_eq, loadToolCallRecords_eq,
    listSnapshots_eq, (aggregateStats_eq _ _ Hm Hc Hs).
  unfold select_agent, select_messages, select_tool_calls, select_snapshots,
    select.
  simpl. rewrite Ha, Hm, Hc, Hs, Ea, Em, Ec, Es. simpl.
  repeat (split; [reflexivity|]).
  split; [|split; [reflexivity|]];
    [|rewrite delete_eq; unfold delete_agent, require; rewrite Ha, Hno;
      destruct st; reflexivity].
  intros snapshotId. rewrite loadSnapshot_eq. simpl.
  unfold select_snapshot, select. rewrite Hs.
  assert (filter (snapshot_key agentId snapshotId) (snapshots (pool st)) = [])
    as ->; [|reflexivity].
  apply existsb_false_filter. destruct (existsb _ _) eqn:E; [|reflexivity].
  apply existsb_exists in E as (s & Hin & Hkey).
  unfold snapshot_key in Hkey. apply andb_prop in Hkey as [Hkey _].
  assert (In s (snapshots_of agentId (pool st))) as Hs'
    by (apply filter_In; auto).
  rewrite Es in Hs'. destruct Hs'.
Qed.

(** * Deleting, continued *)

Lemma agent_exists_deleted agentId db :
  existsb (agent_key agentId)
          (filter (fun a => negb (agent_key agentId a)) (agents db)) = false.
Proof.
  destruct (existsb _ _) eqn:E; [|reflexivity].
  apply existsb_exists in E as (a & Hin & Hkey).
  apply filter_In in Hin as [_ Hne]. rewrite Hkey in Hne. discriminate.
Qed.

(** X13.  [delete] is idempotent: deleting the agent a second time gives the
    outcome of the first time and leaves the store as the first time left
    it. *)
Theorem delete_is_idempotent agentId st :
  delete agentId (snd (delete agentId st))
  = (fst (delete agentId st), snd (delete agentId st)).
Proof.
  rewrite (delete_eq agentId st). unfold delete_agent, require.
  destruct (has_relation agents_rel (pool st)) eqn:Ha.
  - destruct (agent_exists agentId (pool st)) eqn:Hex; simpl.
    + rewrite delete_eq. unfold delete_agent, require. simpl.
      unfold has_relation in *. simpl. rewrite Ha.
      unfold agent_exists. simpl.
      change (fun a : AgentRow.t => (AgentRow.agent_id a =? agentId)%string)
        with (agent_key agentId).
      rewrite (agent_exists_deleted agentId (pool st)). reflexivity.
    + rewrite delete_eq. unfold delete_agent, require. simpl.
      rewrite Ha, Hex. reflexivity.
  - simpl. rewrite delete_eq. unfold delete_agent, require. rewrite Ha.
    reflexivity.
Qed.

Lemma filter_other_agent agentId other l :
  other <> agentId ->
  filter (agent_key other) (filter (fun a => negb (agent_key agentId a)) l)
  = filter (agent_key other) l.
Proof.
  intros Hne. apply (filter_other_key AgentRow.agent_id). congruence.
Qed.

(** X14.  A successful [delete] of one agent leaves every other agent as it
    was: its metadata, messages, tool calls and snapshots read back as
    before. *)
Theorem delete_frame agentId st st' :
  delete agentId st = (Ok tt, st') ->
  forall other, other <> agentId ->
    fst (loadInfo other st') = fst (loadInfo other st)
    /\ fst (loadMessages other st') = fst (loadMessages other st)
    /\ fst (loadToolCallRecords other st')
       = fst (loadToolCallRecords other st)
    /\ fst (listSnapshots other st') = fst (listSnapshots other st).
Proof.
  rewrite delete_eq. unfold delete_agent, require.
  destruct (has_relation agents_rel (pool st)) eqn:Ha; [|discriminate].
  destruct (agent_exists agentId (pool st)) eqn:Hex;
    intros H; injection H as <-; intros other Hne; [|auto].
  rewrite !loadInfo_eq, !loadMessages_eq, !loadToolCallRecords_eq,
    !listSnapshots_eq.
  unfold select_agent, select_messages, select_tool_calls, select_snapshots,
    select, messages_of, tool_calls_of, snapshots_of, has_relation.
  simpl.
  rewrite filter_other_agent by exact Hne.
  rewrite (filter_other_key MessageRow.agent_id) by congruence.
  rewrite (filter_other_key ToolCallRow.agent_id) by congruence.
  rewrite (filter_other_key SnapshotRow.agent_id) by congruence.
  auto.
Qed.

(** * Empty lists *)

(** X15.  On an initialised database, [saveMessages] and
    [saveToolCallRecords] with an empty list succeed, whether the agent is
    stored or not; afterwards the agent has no messages (no tool calls), and
    [exists] answers as before: saving nothing does not create the agent. *)
Theorem saving_nothing agentId st :
  schema_ready (pool st) = true ->
  (forall env,
      let st' := snd (saveMessages env agentId [] st) in
      fst (saveMessages env agentId [] st) = Ok tt
      /\ fst (loadMessages agentId st') = Ok []
      /\ fst (exists_ agentId st') = fst (exists_ agentId st))
  /\ (let st' := snd (saveToolCallRecords agentId [] st) in
      fst (saveToolCallRecords agentId [] st) = Ok tt
      /\ fst (loadToolCallRecords agentId st') = Ok []
      /\ fst (exists_ agentId st') = fst (exists_ agentId st)).
Proof.
  intros Hready.
  apply schema_ready_relations in Hready as (Ha & Hm & Hc & Hs).
  split.
  - intros env st'. subst st'. rewrite saveMessages_eq.
    unfold saveMessages_plan, delete_messages, update_message_count, require.
    rewrite Hm. simpl. unfold has_relation in *. simpl. rewrite Ha. simpl.
    rewrite loadMessages_eq, !exists_eq. simpl.
    unfold select_messages, select_agent, select, has_relation, messages_of.
    simpl. rewrite Hm, Ha.
    rewrite (filter_none (fun m => (MessageRow.agent_id m =? agentId)%string)).
    rewrite filter_map_key by apply set_message_count_id.
    rewrite length_map. auto.
  - intros st'. subst st'. rewrite saveToolCallRecords_eq.
    unfold saveToolCallRecords_plan, delete_tool_calls, require.
    rewrite Hc. simpl.
    rewrite loadToolCallRecords_eq, !exists_eq. simpl.
    unfold select_tool_calls, select_agent, select, has_relation,
      tool_calls_of in *.
    simpl. rewrite Hc, Ha.
    rewrite (filter_none (fun c => (ToolCallRow.agent_id c =? agentId)%string)).
    auto.
Qed.

(** * Listing agents *)

(** X16.  [list()] returns the ids of the stored agents, all of them, latest
    [created_at] first; with the empty prefix, [list('')] is [list()]. *)
Theorem list_returns_every_agent st :
  has_relation agents_rel (pool st) = true ->
  exists rows,
    fst (list_ None st) = Ok (map AgentRow.agent_id rows)
    /\ Permutation rows (agents (pool st))
    /\ Sorted newest_first rows
    /\ list_ (Some "") st = list_ None st.
Proof.
  intros Hrel. exists (order_by by_created_at_desc (agents (pool st))).
  split; [apply list_all, Hrel|].
  split; [apply order_by_perm|].
  split; [apply list_rows_ordered|].
  unfold list_, list_client. reflexivity.
Qed.

(** X17.  For a prefix without [%], [_] and backslash, [list(prefix)] returns
    the ids of exactly the stored agents whose id starts with the prefix,
    latest [created_at] first. *)
Theorem list_with_a_literal_prefix p st :
  literal p = true ->
  has_relation agents_rel (pool st) = true ->
  exists rows,
    fst (list_ (Some p) st) = Ok (map AgentRow.agent_id rows)
    /\ Permutation rows
         (filter (fun a => String.prefix p (AgentRow.agent_id a))
                 (agents (pool st)))
    /\ Sorted newest_first rows.
Proof.
  intros Hlit Hrel. destruct (string_dec p "") as [->|Hne].
  - exists (order_by by_created_at_desc (agents (pool st))).
    split; [apply list_all, Hrel|].
    split; [|apply list_rows_ordered].
    rewrite order_by_perm. clear.
    induction (agents (pool st)) as [|a l IH]; simpl; [constructor|].
    destruct (AgentRow.agent_id a); simpl; constructor; exact IH.
  - eexists. split; [apply list_literal_prefix; assumption|].
    split; [apply order_by_perm | apply list_rows_ordered].
Qed.

(** * Saving agent metadata, continued *)

Lemma upsert_filter_other {A : Type} (p q : A -> bool) r l :
  q r = false ->
  (forall x, p x = true -> q x = false) ->
  filter q (upsert p r l) = filter q l.
Proof.
  intros Hr Hp. unfold upsert. destruct (existsb p l).
  - induction l as [|x l IH]; simpl; [reflexivity|].
    destruct (p x) eqn:E.
    + rewrite Hr, (Hp x E). exact IH.
    + destruct (q x); now rewrite IH.
  - rewrite filter_app. simpl. rewrite Hr. apply app_nil_r.
Qed.

(** X18.  After a successful [saveInfo], the agent named by [info.agentId]
    exists and [list()] contains its id; the metadata of every other agent
    and the messages, tool calls and snapshots of every agent read back as
    before. *)
Theorem saveInfo_touches_one_agent agentId info st st' :
  saveInfo agentId info st = (Ok tt, st') ->
  fst (exists_ (AgentInfo.agentId info) st') = Ok true
  /\ (exists ids, fst (list_ None st') = Ok ids
                  /\ In (AgentInfo.agentId info) ids)
  /\ (forall other, other <> AgentInfo.agentId info ->
        fst (loadInfo other st') = fst (loadInfo other st))
  /\ (forall any,
        fst (loadMessages any st') = fst (loadMessages any st)
        /\ fst (loadToolCallRecords any st')
           = fst (loadToolCallRecords any st)
        /\ fst (listSnapshots any st') = fst (listSnapshots any st)).
Proof.
  rewrite saveInfo_eq.
  destruct (upsert_agent (agent_row info) (pool st)) as [db'|e] eqn:H;
    [|discriminate].
  intros E. injection E as <-. apply upsert_agent_ok in H as [Ha ->].
  assert (forall r, has_relation r (with_agents (pool st)
                      (upsert (agent_key (AgentRow.agent_id (agent_row info)))
                              (agent_row info) (agents (pool st))))
                    = has_relation r (pool st)) as Hrel
    by (intros r; apply has_relation_same; reflexivity).
  destruct (upsert_first (agent_key (AgentInfo.agentId info)) (agent_row info)
              (agent_key_refl (agent_row info)) (agents (pool st)))
    as [rest Hrest].
  split; [|split; [|split]].
  - rewrite exists_eq. simpl. unfold select_agent, select.
    rewrite Hrel, Ha. simpl. rewrite Hrest. reflexivity.
  - eexists. split; [apply list_all; simpl; rewrite Hrel; exact Ha|].
    simpl. apply in_map_iff. exists (agent_row info). split; [reflexivity|].
    apply (Permutation_in _ (Permutation_sym (order_by_perm _ _))).
    assert (In (agent_row info)
               (filter (agent_key (AgentInfo.agentId info))
                       (upsert (agent_key (AgentInfo.agentId info))
                               (agent_row info) (agents (pool st))))) as Hin
      by (rewrite Hrest; now left).
    apply filter_In in Hin. apply Hin.
  - intros other Hne. rewrite !loadInfo_eq. simpl.
    unfold select_agent, select. rewrite Hrel. simpl.
    rewrite upsert_filter_other; [reflexivity| |].
    + apply String.eqb_neq. simpl. congruence.
    + intros x Hx. unfold agent_key in *. simpl in Hx.
      apply String.eqb_eq in Hx. apply String.eqb_neq. congruence.
  - intros any. rewrite !loadMessages_eq, !loadToolCallRecords_eq,
      !listSnapshots_eq.
    unfold select_messages, select_tool_calls, select_snapshots, select.
    simpl. rewrite !Hrel. auto.
Qed.

(** * The order of what is read back *)

(** The text of a BIGINT column stands for the number the column holds. *)
Lemma number_of_int8_text n : number_of (int8_text n) = n.
Proof.
  unfold number_of, int8_text. rewrite NilZero.isi.
  - apply DecimalZ.of_to.
  - intros H.
    assert (n = 0) as -> by (rewrite <- (DecimalZ.of_to n), H; reflexivity).
    discriminate H.
  - intros H.
    assert (n = 0) as -> by (rewrite <- (DecimalZ.of_to n), H; reflexivity).
    discriminate H.
Qed.

(** X19.  [loadToolCallRecords] returns the records by ascending
    [createdAt], read as a number, [listSnapshots] the snapshots by
    descending [createdAt], the timestamp of the column. *)
Theorem loads_are_ordered agentId st :
  match fst (loadToolCallRecords agentId st) with
  | Ok records =>
      Sorted (fun a b => number_of (ToolCallRecord.createdAt a)
                         <= number_of (ToolCallRecord.createdAt b))
             records
  | Throw _ => True
  end
  /\ match fst (listSnapshots agentId st) with
     | Ok snaps =>
         Sorted (fun a b =>
                   (timestamp (Snapshot.createdAt b)
                    <=? timestamp (Snapshot.createdAt a))%string = true)
                snaps
     | Throw _ => True
     end.
Proof.
  rewrite loadToolCallRecords_eq, listSnapshots_eq. simpl.
  unfold select_tool_calls, select_snapshots, select. split.
  - destruct (has_relation tool_calls_rel (pool st)); [|exact I].
    assert (Sorted (fun a b => (ToolCallRow.created_at a
                                <=? ToolCallRow.created_at b) = true)
                   (order_by (fun a b => ToolCallRow.created_at a
                                         <=? ToolCallRow.created_at b)
                             (tool_calls_of agentId (pool st)))) as H
      by (apply order_by_is_sorted; intros x y;
          rewrite !Z.leb_le; lia).
    induction H as [|x r Hr IH Hhd]; simpl; constructor; [exact IH|].
    destruct Hhd as [|y r' Hxy]; simpl; constructor.
    simpl. rewrite !number_of_int8_text. apply Z.leb_le, Hxy.
  - destruct (has_relation snapshots_rel (pool st)); [|exact I].
    assert (Sorted (fun a b => (SnapshotRow.created_at b
                                <=? SnapshotRow.created_at a)%string = true)
                   (order_by (fun a b => (SnapshotRow.created_at b
                                          <=? SnapshotRow.created_at a)%string)
                             (snapshots_of agentId (pool st)))) as H
      by (apply order_by_is_sorted; intros x y; apply String.leb_total).
    induction H as [|x r Hr IH Hhd]; simpl; constructor; [exact IH|].
    destruct Hhd as [|y r' Hxy]; simpl; constructor. exact Hxy.
Qed.

(** * The query layer *)

Lemma select_page_ok {R : Type} rel params limit offset (rows : list R) db :
  has_relation rel db = true ->
  forallb int8 params = true ->
  select_page rel params limit offset rows db = paginate limit offset rows.
Proof. intros H1 H2. unfold select_page. now rewrite H1, H2. Qed.

Lemma paginate_slice {R : Type} n k (rows : list R) :
  0 < n -> 0 <= k ->
  paginate (Some n) (Some k) rows
  = Return (firstn (Z.to_nat n) (skipn (Z.to_nat k) rows)).
Proof.
  intros Hn Hk. unfold paginate, or_null_num.
  destruct (n =? 0) eqn:En; [lia|].
  destruct (n <? 0) eqn:Ln; [lia|].
  destruct (k =? 0) eqn:Ek.
  - apply Z.eqb_eq in Ek as ->. reflexivity.
  - destruct (k <? 0) eqn:Lk; [lia|]. reflexivity.
Qed.

Lemma number_param_int8 x :
  opt_all int8 x = true -> forallb int8 (number_param x) = true.
Proof.
  unfold number_param, or_null_num. destruct x as [n|]; simpl; [|reflexivity].
  destruct (n =? 0); simpl; [reflexivity|]. intros ->. reflexivity.
Qed.

Lemma page_params_int8 limit offset :
  opt_all int8 limit = true -> opt_all int8 offset = true ->
  forallb int8 (page_params limit offset) = true.
Proof.
  intros Hl Ho. unfold page_params.
  destruct (or_null_num limit) as [n|] eqn:E; [|reflexivity].
  simpl. rewrite (number_param_int8 _ Ho), andb_true_r.
  unfold or_null_num in E. destruct limit as [m|]; [|discriminate].
  destruct (m =? 0); [discriminate|]. injection E as <-. exact Hl.
Qed.

Lemma message_params_int8 f :
  opt_all int8 (MessageFilters.startDate f) = true ->
  opt_all int8 (MessageFilters.endDate f) = true ->
  opt_all int8 (MessageFilters.limit f) = true ->
  opt_all int8 (MessageFilters.offset f) = true ->
  forallb int8
    (number_param (MessageFilters.startDate f)
     ++ number_param (MessageFilters.endDate f)
     ++ page_params (MessageFilters.limit f) (MessageFilters.offset f)) = true.
Proof.
  intros. rewrite !forallb_app, !number_param_int8, page_params_int8; auto.
Qed.

Lemma messages_newest_first l :
  Sorted newest_message_first
    (order_by (fun a b => MessageRow.created_at b <=? MessageRow.created_at a) l).
Proof.
  assert (Sorted (fun a b => (MessageRow.created_at b
                              <=? MessageRow.created_at a) = true)
            (order_by (fun a b => MessageRow.created_at b
                                  <=? MessageRow.created_at a) l)) as H
    by (apply order_by_is_sorted; intros x y; rewrite !Z.leb_le; lia).
  induction H as [|x r Hr IH Hhd]; constructor; [exact IH|].
  destruct Hhd as [|y r' Hxy]; constructor. apply Z.leb_le, Hxy.
Qed.

(** X20.  [queryMessages] with a limit [n > 0] and an offset [k >= 0] returns
    the messages of rows [k] to [k + n - 1] of the matching rows, latest
    [created_at] first: at most [n] messages. *)
Theorem queryMessages_page f n k st :
  MessageFilters.limit f = Some n ->
  MessageFilters.offset f = Some k ->
  0 < n -> 0 <= k -> int8 n = true -> int8 k = true ->
  opt_all int8 (MessageFilters.startDate f) = true ->
  opt_all int8 (MessageFilters.endDate f) = true ->
  has_relation messages_rel (pool st) = true ->
  exists rows,
    Permutation rows (filter (message_matches f) (messages (pool st)))
    /\ Sorted newest_message_first rows
    /\ queryMessages f st
       = Return (map message_of_row
                   (firstn (Z.to_nat n) (skipn (Z.to_nat k) rows)))
    /\ (List.length (firstn (Z.to_nat n) (skipn (Z.to_nat k) rows))
        <= Z.to_nat n)%nat.
Proof.
  intros Hl Ho Hn Hk In Ik Is Ie Hrel. eexists.
  split; [apply order_by_perm|]. split; [apply messages_newest_first|].
  split; [|apply firstn_le_length].
  unfold queryMessages, select_messages_where.
  rewrite select_page_ok; [|exact Hrel|].
  - rewrite Hl, Ho, paginate_slice by assumption. reflexivity.
  - apply message_params_int8; try assumption; rewrite ?Hl, ?Ho; assumption.
Qed.

(** X21.  [queryMessages] without a limit, or with the limit 0, returns the
    message of every matching row, latest [created_at] first, whatever the
    offset: a limit of 0 does not mean no rows, and an offset without a
    limit is not applied. *)
Theorem queryMessages_without_limit f st :
  MessageFilters.limit f = None \/ MessageFilters.limit f = Some 0 ->
  opt_all int8 (MessageFilters.startDate f) = true ->
  opt_all int8 (MessageFilters.endDate f) = true ->
  has_relation messages_rel (pool st) = true ->
  exists rows,
    Permutation rows (filter (message_matches f) (messages (pool st)))
    /\ Sorted newest_message_first rows
    /\ queryMessages f st = Return (map message_of_row rows).
Proof.
  intros Hl Is Ie Hrel. eexists.
  split; [apply order_by_perm|]. split; [apply messages_newest_first|].
  unfold queryMessages, select_messages_where.
  assert (or_null_num (MessageFilters.limit f) = None) as E
    by (destruct Hl as [-> | ->]; reflexivity).
  rewrite select_page_ok; [|exact Hrel|].
  - unfold paginate. rewrite E. reflexivity.
  - unfold page_params. rewrite E, !forallb_app, !number_param_int8; auto.
Qed.

Lemma where_eq_some v column :
  v <> "" -> where_eq (Some v) column = (column =? v)%string.
Proof.
  intros Hv. unfold where_eq, or_null_str.
  apply String.eqb_neq in Hv. now rewrite Hv.
Qed.

Lemma filter_true {A : Type} (l : list A) : filter (fun _ => true) l = l.
Proof. induction l as [|x l IH]; simpl; [reflexivity|now rewrite IH]. Qed.

(** X22.  [queryMessages({agentId})] returns, in some order, the messages
    [loadMessages(agentId)] returns, and throws the same error when the
    relation is missing; without [agentId] it returns the messages of all
    agents. *)
Theorem queryMessages_of_one_agent agentId st :
  agentId <> "" ->
  match queryMessages
          (MessageFilters.mk (Some agentId) None None None None None) st,
        fst (loadMessages agentId st) with
  | Return found, Ok loaded => Permutation found loaded
  | Raise (server_error e), Throw e' => e = e'
  | _, _ => False
  end
  /\ match queryMessages
             (MessageFilters.mk None None None None None None) st with
     | Return found =>
         Permutation found (map message_of_row (messages (pool st)))
     | Raise e => e = server_error (undefined_table messages_rel)
     end.
Proof.
  intros Hne. rewrite loadMessages_eq. simpl.
  unfold queryMessages, select_messages_where, select_page, select_messages,
    select. simpl.
  destruct (has_relation messages_rel (pool st)); simpl; [|auto].
  unfold paginate. simpl. split.
  - apply Permutation_map. rewrite !order_by_perm. unfold messages_of.
    erewrite filter_ext; [reflexivity|].
    intros m. unfold message_matches. simpl. rewrite where_eq_some by exact Hne.
    now rewrite !andb_true_r.
  - apply Permutation_map. rewrite order_by_perm.
    erewrite filter_ext; [rewrite filter_true; reflexivity|]. reflexivity.
Qed.

(** ** Tool calls *)

Lemma In_firstn {A : Type} n (l : list A) x : In x (firstn n l) -> In x l.
Proof.
  revert l. induction n as [|n IH]; intros [|y l]; simpl; try tauto.
  intros [->|H]; [now left|right; apply IH, H].
Qed.

Lemma In_skipn {A : Type} n (l : list A) x : In x (skipn n l) -> In x l.
Proof.
  revert l. induction n as [|n IH]; intros [|y l]; simpl; try tauto.
  intros H. right. apply IH, H.
Qed.

Lemma paginate_incl {R : Type} limit offset (rows page : list R) :
  paginate limit offset rows = Return page -> incl page rows.
Proof.
  unfold paginate. intros H x Hx.
  destruct (or_null_num limit) as [n|]; [|injection H as <-; exact Hx].
  destruct (or_null_num offset) as [k|].
  - destruct (k <? 0); [discriminate|]. destruct (n <? 0); [discriminate|].
    injection H as <-. apply In_firstn, In_skipn in Hx. exact Hx.
  - destruct (n <? 0); [discriminate|]. injection H as <-.
    apply In_firstn in Hx. exact Hx.
Qed.

Lemma select_page_incl {R : Type} rel params limit offset (rows page : list R)
  db :
  select_page rel params limit offset rows db = Return page -> incl page rows.
Proof.
  unfold select_page.
  destruct (negb (has_relation rel db)); [discriminate|].
  destruct (negb (forallb int8 params)); [discriminate|].
  apply paginate_incl.
Qed.

Lemma where_eq_sound v column :
  where_eq (Some v) column = true -> v <> "" -> column = v.
Proof.
  intros H Hv. rewrite where_eq_some in H by exact Hv.
  apply String.eqb_eq, H.
Qed.

Lemma where_from_sound t column :
  where_from (Some t) column = true -> t <> 0 -> t <= column.
Proof.
  unfold where_from, or_null_num. intros H Ht.
  apply Z.eqb_neq in Ht. rewrite Ht in H. apply Z.leb_le, H.
Qed.

Lemma where_until_sound t column :
  where_until (Some t) column = true -> t <> 0 -> column <= t.
Proof.
  unfold where_until, or_null_num. intros H Ht.
  apply Z.eqb_neq in Ht. rewrite Ht in H. apply Z.leb_le, H.
Qed.

(** X23.  Every record [queryToolCalls] returns meets every filter that is
    set: it has the tool name and the state asked for, its [createdAt], read
    as a number, lies between [startDate] and [endDate], and it is one of the
    records [loadToolCallRecords] returns for the agent asked for. *)
Theorem queryToolCalls_sound f st found record :
  queryToolCalls f st = Return found ->
  In record found ->
  (forall v, ToolCallFilters.toolName f = Some v -> v <> "" ->
     ToolCallRecord.name record = v)
  /\ (forall v, ToolCallFilters.state f = Some v -> v <> "" ->
        ToolCallRecord.state record = v)
  /\ (forall t, ToolCallFilters.startDate f = Some t -> t <> 0 ->
        t <= number_of (ToolCallRecord.createdAt record))
  /\ (forall t, ToolCallFilters.endDate f = Some t -> t <> 0 ->
        number_of (ToolCallRecord.createdAt record) <= t)
  /\ (forall v, ToolCallFilters.agentId f = Some v -> v <> "" ->
        exists loaded, fst (loadToolCallRecords v st) = Ok loaded
                       /\ In record loaded).
Proof.
  unfold queryToolCalls.
  destruct (select_tool_calls_where f (pool st)) as [rows|e] eqn:E;
    [|discriminate].
  intros H Hin. injection H as <-.
  apply in_map_iff in Hin as (row & <- & Hrow).
  assert (has_relation tool_calls_rel (pool st) = true) as Hrel.
  { unfold select_tool_calls_where, select_page in E.
    destruct (has_relation tool_calls_rel (pool st)); [reflexivity|].
    discriminate. }
  apply select_page_incl in E. apply E in Hrow.
  apply (Permutation_in _ (order_by_perm _ _)) in Hrow.
  apply filter_In in Hrow as [Hrow Hm]. unfold tool_call_matches in Hm.
  apply andb_prop in Hm as [Hm Hu]. apply andb_prop in Hm as [Hm Hf].
  apply andb_prop in Hm as [Hm Hs]. apply andb_prop in Hm as [Ha Hn].
  repeat split.
  - intros v Hv Hne. rewrite Hv in Hn. simpl. now apply where_eq_sound.
  - intros v Hv Hne. rewrite Hv in Hs. simpl. now apply where_eq_sound.
  - intros t Ht Hne. rewrite Ht in Hf. simpl. rewrite number_of_int8_text.
    now apply where_from_sound.
  - intros t Ht Hne. rewrite Ht in Hu. simpl. rewrite number_of_int8_text.
    now apply where_until_sound.
  - intros v Hv Hne. rewrite Hv in Ha. apply where_eq_sound in Ha; [|exact Hne].
    rewrite loadToolCallRecords_eq. simpl. unfold select_tool_calls, select.
    rewrite Hrel. eexists. split; [reflexivity|].
    apply in_map.
    apply (Permutation_in _ (Permutation_sym (order_by_perm _ _))).
    unfold tool_calls_of. apply filter_In. split; [exact Hrow|].
    apply String.eqb_eq, Ha.
Qed.

(** ** Sessions *)

Lemma Sorted_skipn {A : Type} (R : A -> A -> Prop) n l :
  Sorted R l -> Sorted R (skipn n l).
Proof.
  revert l. induction n as [|n IH]; intros l H; [exact H|].
  destruct l as [|x l]; [exact H|]. simpl. apply IH.
  now apply Sorted_inv in H.
Qed.

Lemma Sorted_firstn {A : Type} (R : A -> A -> Prop) n l :
  Sorted R l -> Sorted R (firstn n l).
Proof.
  revert l. induction n as [|n IH]; intros l H; [constructor|].
  destruct l as [|x l]; [constructor|]. simpl.
  apply Sorted_inv in H as [H Hhd]. constructor; [apply IH, H|].
  destruct Hhd as [|y r Hxy]; [destruct n; constructor|].
  destruct n; constructor. exact Hxy.
Qed.

Lemma Sorted_map {A B : Type} (R : A -> A -> Prop) (S : B -> B -> Prop)
  (f : A -> B) l :
  (forall a b, R a b -> S (f a) (f b)) ->
  Sorted R l -> Sorted S (map f l).
Proof.
  intros HRS H. induction H as [|x r Hr IH Hhd]; simpl; constructor;
    [exact IH|].
  destruct Hhd as [|y r' Hxy]; simpl; constructor. apply HRS, Hxy.
Qed.

Lemma paginate_sorted {A : Type} (R : A -> A -> Prop) limit offset rows page :
  paginate limit offset rows = Return page -> Sorted R rows -> Sorted R page.
Proof.
  unfold paginate. intros H Hs.
  destruct (or_null_num limit) as [n|]; [|injection H as <-; exact Hs].
  destruct (or_null_num offset) as [k|].
  - destruct (k <? 0); [discriminate|]. destruct (n <? 0); [discriminate|].
    injection H as <-. apply Sorted_firstn, Sorted_skipn, Hs.
  - destruct (n <? 0); [discriminate|]. injection H as <-.
    apply Sorted_firstn, Hs.
Qed.

Lemma select_page_sorted {A : Type} (R : A -> A -> Prop) rel params limit
  offset rows page db :
  select_page rel params limit offset rows db = Return page ->
  Sorted R rows -> Sorted R page.
Proof.
  unfold select_page.
  destruct (negb (has_relation rel db)); [discriminate|].
  destruct (negb (forallb int8 params)); [discriminate|].
  apply paginate_sorted.
Qed.

(** X24.  What [querySessions] returns is ordered as asked: by [created_at]
    or by [message_count], ascending or descending, by descending
    [created_at] when nothing is asked.  It never returns when asked to sort
    by [updated_at]. *)
Theorem querySessions_order f st sessions :
  querySessions f st = Return sessions ->
  SessionFilters.sortBy f <> Some sort_updated_at
  /\ Sorted (session_sorted (SessionFilters.sortBy f)
                            (SessionFilters.sortOrder f)) sessions.
Proof.
  unfold querySessions.
  destruct (date_param (SessionFilters.startDate f)) as [from_|];
    [|discriminate].
  destruct (date_param (SessionFilters.endDate f)) as [until_|];
    [|discriminate].
  destruct (select_sessions f from_ until_ (pool st)) as [rows|e] eqn:E;
    [|discriminate].
  intros H. injection H as <-. unfold select_sessions in E.
  destruct (negb (has_relation agents_rel (pool st))); [discriminate|].
  destruct (SessionFilters.sortBy f) as [[| |]|];
    destruct (SessionFilters.sortOrder f) as [[|]|];
    simpl in E; try discriminate; (split; [discriminate|]);
    match type of E with
    | select_page _ _ _ _ (order_by ?le _) _ = _ =>
        eapply (Sorted_map (fun a b => le a b = true));
        [|eapply select_page_sorted;
          [exact E|apply order_by_is_sorted; intros x y;
                   rewrite ?Z.leb_le; try apply String.leb_total; lia]]
    end; intros a b Hab; simpl; rewrite ?Z.leb_le in Hab; exact Hab.
Qed.

Lemma toISOString_range ms :
  ms < -8640000000000000 \/ 8640000000000000 < ms -> toISOString ms = None.
Proof.
  intros H. unfold toISOString.
  destruct (ms <? -8640000000000000) eqn:E1; [reflexivity|].
  destruct (8640000000000000 <? ms) eqn:E2; [reflexivity|]. lia.
Qed.

Lemma toISOString_some ms :
  -8640000000000000 <= ms <= 8640000000000000 ->
  exists text, toISOString ms = Some text.
Proof.
  intros H. unfold toISOString.
  destruct (ms <? -8640000000000000) eqn:E1; [lia|].
  destruct (8640000000000000 <? ms) eqn:E2; [lia|]. simpl.
  destruct (civil_from_days (ms / 86400000)) as [[y m] d]. eexists. reflexivity.
Qed.

Lemma date_param_some x :
  opt_all time_value x = true ->
  exists p, date_param x = Some p.
Proof.
  unfold date_param, or_null_num, time_value. destruct x as [ms|]; simpl;
    [|eexists; reflexivity].
  intros H. apply andb_prop in H as [H1 H2].
  destruct (ms =? 0); [eexists; reflexivity|].
  destruct (toISOString_some ms) as [t ->]; [lia|]. eexists. reflexivity.
Qed.

(** X25.  [querySessions] with a [startDate] or [endDate] that is no time
    value of [Date] (beyond 8.64e15 ms from the epoch) throws the
    [RangeError] of [toISOString], whatever the database holds. *)
Theorem querySessions_invalid_date f st ms :
  SessionFilters.startDate f = Some ms \/ SessionFilters.endDate f = Some ms ->
  time_value ms = false ->
  querySessions f st = Raise RangeError.
Proof.
  intros Hd Hr. unfold querySessions.
  assert (date_param (Some ms) = None) as Hnone.
  { unfold date_param, or_null_num, time_value in *.
    destruct (ms =? 0) eqn:E0; [apply Z.eqb_eq in E0; subst; discriminate|].
    rewrite toISOString_range; [reflexivity|].
    apply andb_false_iff in Hr as [Hr|Hr]; apply Z.leb_gt in Hr; lia. }
  destruct Hd as [-> | ->]; rewrite Hnone;
    [|destruct (date_param (SessionFilters.startDate f))]; reflexivity.
Qed.

(** X26.  [querySessions] with [sortBy: 'updated_at'], which the type of
    the filters admits, throws: the relation [agents] has no column
    [updated_at]. *)
Theorem querySessions_sort_by_updated_at f st :
  SessionFilters.sortBy f = Some sort_updated_at ->
  opt_all time_value (SessionFilters.startDate f) = true ->
  opt_all time_value (SessionFilters.endDate f) = true ->
  has_relation agents_rel (pool st) = true ->
  querySessions f st = Raise (undefined_column "updated_at").
Proof.
  intros Hk Hs He Hrel. unfold querySessions.
  destruct (date_param_some _ Hs) as [from_ ->].
  destruct (date_param_some _ He) as [until_ ->].
  unfold select_sessions. rewrite Hrel, Hk. simpl.
  destruct (SessionFilters.sortOrder f) as [[|]|]; reflexivity.
Qed.

Lemma filter_nothing {A : Type} (p : A -> bool) l :
  (forall x, In x l -> p x = false) -> filter p l = [].
Proof.
  induction l as [|x l IH]; simpl; [reflexivity|]. intros H.
  rewrite (H x) by now left. apply IH. intros y Hy. apply H. now right.
Qed.

Lemma filter_unique_key rows row :
  NoDup (map AgentRow.agent_id rows) -> In row rows ->
  filter (agent_key (AgentRow.agent_id row)) rows = [row].
Proof.
  induction rows as [|x rows IH]; simpl; [tauto|].
  intros Hnd [->|Hin]; apply NoDup_cons_iff in Hnd as [Hx Hnd].
  - rewrite agent_key_refl. f_equal. apply filter_nothing.
    intros y Hy. unfold agent_key. apply String.eqb_neq. intros E.
    apply Hx. rewrite <- E. now apply in_map.
  - unfold agent_key at 1.
    destruct (AgentRow.agent_id x =? AgentRow.agent_id row)%string eqn:E;
      [|now apply IH].
    apply String.eqb_eq in E. exfalso. apply Hx. rewrite E. now apply in_map.
Qed.

(** X27.  In a state the store reached by its own methods, every session
    [querySessions] returns is the metadata [loadInfo] returns for its
    agent: the same template, creation date, message count and last index;
    the breakpoint is the one of [loadInfo] once an empty one is dropped. *)
Theorem querySessions_agrees_with_loadInfo f st sessions s :
  reachable st ->
  querySessions f st = Return sessions ->
  In s sessions ->
  exists info,
    fst (loadInfo (SessionInfo.agentId s) st) = Ok (Some info)
    /\ AgentInfo.agentId info = SessionInfo.agentId s
    /\ AgentInfo.templateId info = SessionInfo.templateId s
    /\ AgentInfo.createdAt info = SessionInfo.createdAt s
    /\ AgentInfo.messageCount info = SessionInfo.messageCount s
    /\ AgentInfo.lastSfpIndex info = SessionInfo.lastSfpIndex s
    /\ AgentInfo.breakpoint info = or_null_str (SessionInfo.breakpoint s).
Proof.
  intros Hreach. unfold querySessions.
  destruct (date_param (SessionFilters.startDate f)) as [from_|];
    [|discriminate].
  destruct (date_param (SessionFilters.endDate f)) as [until_|];
    [|discriminate].
  destruct (select_sessions f from_ until_ (pool st)) as [rows|e] eqn:E;
    [|discriminate].
  intros H Hin. injection H as <-.
  apply in_map_iff in Hin as (row & <- & Hrow).
  unfold select_sessions in E.
  destruct (has_relation agents_rel (pool st)) eqn:Hrel; [|discriminate].
  simpl in E.
  destruct (session_order _ _) as [le|]; [|discriminate].
  apply select_page_incl in E. apply E in Hrow.
  apply (Permutation_in _ (order_by_perm _ _)) in Hrow.
  apply filter_In in Hrow as [Hrow _].
  destruct (reachable_primary_keys st Hreach) as (Ka & _).
  exists (info_of_row row). rewrite loadInfo_eq. simpl.
  unfold select_agent, select. rewrite Hrel.
  rewrite (filter_unique_key _ _ Ka Hrow). repeat split.
Qed.

(** X28.  [querySessions({})] returns one session for every agent [list()]
    returns, and throws the same error when the relation is missing. *)
Theorem querySessions_lists_every_agent st :
  match querySessions
          (SessionFilters.mk None None None None None None None None) st,
        fst (list_ None st) with
  | Return sessions, Ok ids =>
      Permutation (map SessionInfo.agentId sessions) ids
  | Raise (server_error e), Throw e' => e = e'
  | _, _ => False
  end.
Proof.
  rewrite list_eq. simpl. unfold querySessions, select_sessions,
    select_agent_ids, select_page, select. simpl.
  destruct (has_relation agents_rel (pool st)); simpl; [|reflexivity].
  unfold paginate. simpl. rewrite map_map. simpl.
  apply Permutation_map. rewrite !order_by_perm.
  erewrite filter_ext; [rewrite filter_true; reflexivity|]. reflexivity.
Qed.

Lemma paginate_falsy {R : Type} l o (rows : list R) :
  paginate (or_null_num l)
    (match or_null_num l with Some _ => or_null_num o | None => None end) rows
  = paginate l o rows.
Proof.
  unfold paginate, or_null_num.
  destruct l as [n|]; [|reflexivity].
  destruct (n =? 0) eqn:En; [reflexivity|]. rewrite En.
  destruct o as [k|]; [|reflexivity].
  destruct (k =? 0) eqn:Ek; [reflexivity|]. rewrite Ek. reflexivity.
Qed.

Lemma page_params_falsy l o :
  page_params (or_null_num l)
    (match or_null_num l with Some _ => or_null_num o | None => None end)
  = page_params l o.
Proof.
  unfold page_params, number_param, or_null_num.
  destruct l as [n|]; [|reflexivity].
  destruct (n =? 0) eqn:En; [reflexivity|]. rewrite En.
  destruct o as [k|]; [|reflexivity].
  destruct (k =? 0) eqn:Ek; [reflexivity|]. rewrite Ek. reflexivity.
Qed.

Lemma or_null_str_falsy x : or_null_str (or_null_str x) = or_null_str x.
Proof.
  unfold or_null_str. destruct x as [s|]; [|reflexivity].
  destruct (s =? "")%string eqn:E; [reflexivity|now rewrite E].
Qed.

Lemma or_null_num_falsy x : or_null_num (or_null_num x) = or_null_num x.
Proof.
  unfold or_null_num. destruct x as [n|]; [|reflexivity].
  destruct (n =? 0) eqn:E; [reflexivity|now rewrite E].
Qed.

(** X29.  [queryMessages] reads a filter that is falsy as absent: an empty
    [agentId] or [role], a [startDate], [endDate] or [limit] of 0 and an
    [offset] of 0 change nothing, and the offset is dropped with the
    limit. *)
Theorem falsy_filters_are_ignored agentId role from_ until_ limit offset st :
  queryMessages
    (MessageFilters.mk agentId role from_ until_ limit offset) st
  = queryMessages
      (MessageFilters.mk (or_null_str agentId) (or_null_str role)
         (or_null_num from_) (or_null_num until_) (or_null_num limit)
         (match or_null_num limit with
          | Some _ => or_null_num offset
          | None => None
          end)) st.
Proof.
  unfold queryMessages, select_messages_where, select_page. simpl.
  unfold number_param. rewrite !or_null_num_falsy.
  rewrite page_params_falsy, paginate_falsy.
  erewrite (filter_ext (message_matches (MessageFilters.mk (or_null_str _) _ _ _ _ _)));
    [reflexivity|].
  intros m. unfold message_matches, where_eq, where_from, where_until. simpl.
  now rewrite !or_null_str_falsy, !or_null_num_falsy.
Qed.

(* ================================================================== *)
(** * The properties on the worked values *)

Lemma saveMessages_loadMessages_witness :
  exists loaded info,
    fst (loadMessages "agt:pg_test003"
           (snd (saveMessages test_env "agt:pg_test003" test_messages
                   store_with_agent))) = Ok loaded
    /\ Forall2 message_eqv loaded test_messages
    /\ fst (loadInfo "agt:pg_test003"
              (snd (saveMessages test_env "agt:pg_test003" test_messages
                      store_with_agent))) = Ok (Some info)
    /\ AgentInfo.messageCount info = Z.of_nat (List.length test_messages).
Proof.
  apply (saveMessages_loadMessages test_env "agt:pg_test003" test_messages
           store_with_agent).
  - vm_compute. reflexivity.
  - vm_compute. reflexivity.
  - vm_compute. reflexivity.
Defined.

Lemma saveMessages_sequence_witness :
  let rows :=
    messages_of "agt:pg_test003"
      (pool (snd (saveMessages test_env "agt:pg_test003" test_messages
                    store_with_agent))) in
  rows = message_rows test_env "agt:pg_test003" 0 test_messages
  /\ map MessageRow.seq rows
     = map Z.of_nat (seq 0 (List.length test_messages))
  /\ map MessageRow.id rows
     = map (fun i => generateMessageId (test_env i))
           (seq 0 (List.length test_messages))
  /\ NoDup (map MessageRow.seq rows)
  /\ NoDup (map MessageRow.id rows)
  /\ (forall m,
        In m (messages (pool (snd (saveMessages test_env "agt:pg_test003"
                                     test_messages store_with_agent)))) ->
        MessageRow.agent_id m <> "agt:pg_test003" ->
        ~ In (MessageRow.id m) (map MessageRow.id rows))
  /\ fst (loadMessages "agt:pg_test003"
            (snd (saveMessages test_env "agt:pg_test003" test_messages
                    store_with_agent)))
     = Ok (map message_of_row rows).
Proof.
  apply (saveMessages_sequence test_env "agt:pg_test003" test_messages
           store_with_agent).
  vm_compute. reflexivity.
Defined.

Lemma delete_cascades_witness :
  let st' := snd (delete "agt:pg_test003" store_with_history) in
  fst (delete "agt:pg_test003" store_with_history) = Ok tt
  /\ fst (exists_ "agt:pg_test003" st') = Ok false
  /\ fst (loadMessages "agt:pg_test003" st') = Ok []
  /\ fst (loadToolCallRecords "agt:pg_test003" st') = Ok []
  /\ fst (listSnapshots "agt:pg_test003" st') = Ok [].
Proof.
  apply (delete_cascades "agt:pg_test003" store_with_history).
  - vm_compute. reflexivity.
  - vm_compute. reflexivity.
Defined.



(** C6, the failing input.  A record of a tool call that took less than a
    millisecond, [durationMs = 0], is saved without error and comes back
    with no [durationMs]: [record.durationMs || null] stores NULL for it.
    The four times come back as the strings the driver returns for BIGINT
    columns. *)
Theorem saveToolCallRecords_zero_duration :
  let st' :=
    snd (saveToolCallRecords "agt:pg_test003" [test_record] store_with_agent) in
  ToolCallRecord.durationMs test_record = Some 0
  /\ fst (saveToolCallRecords "agt:pg_test003" [test_record] store_with_agent)
     = Ok tt
  /\ fst (loadToolCallRecords "agt:pg_test003" st')
     = Ok [ToolCallRecord.mk "call_pg_001" "fs_read"
             (JObj [("path", JStr "/test.txt")]) "COMPLETED"
             (JObj [("required", JBool false)])
             (Some (JObj [("content", JStr "file content")])) None
             (Some false) (Some "1714557600000") (Some "1714557600000") None
             "1714557600000" "1714557600000"
             (JArr [JObj [("state", JStr "PENDING");
                          ("timestamp", JNum 1714557600000)];
                    JObj [("state", JStr "COMPLETED");
                          ("timestamp", JNum 1714557600000)]])].
Proof. vm_compute. repeat split; reflexivity. Qed.

(** C7, counterexample.  A store that was just constructed over a server
    whose relations an earlier process created has its initialisation
    pending, and [saveInfo] on it succeeds and stores the agent; over a
    server without relations [saveMessages] throws the [undefined_table]
    error of the server. *)
Lemma write_on_pending_store_succeeds :
  let st := constructor (pool ready_store) in
  init st = InitPending
  /\ fst (saveInfo "agt:pg_test001" (test_info "agt:pg_test001") st) = Ok tt
  /\ fst (exists_ "agt:pg_test001"
            (snd (saveInfo "agt:pg_test001" (test_info "agt:pg_test001") st)))
     = Ok true
  /\ fst (saveMessages test_env "agt:pg_test001" test_messages
            (constructor empty_db))
     = Throw (undefined_table messages_rel).
Proof. vm_compute. repeat split; reflexivity. Qed.

(** C8, the failing input.  With the one agent [agt:pgX1] in the store,
    [list("agt:pg_")] returns it, although [agt:pg_] is not a prefix of its
    id: the underscore of the prefix reaches LIKE as a wildcard. *)
Theorem list_prefix_wildcard :
  let st := snd (saveInfo "agt:pgX1" (test_info "agt:pgX1") ready_store) in
  fst (list_ (Some "agt:pg_") st) = Ok ["agt:pgX1"]
  /\ String.prefix "agt:pg_" "agt:pgX1" = false.
Proof. vm_compute. split; reflexivity. Qed.

(** C9, the failing input.  With two tool calls saved for the agent, one of
    them of a tool named [__proto__], [aggregateStats] counts two tool calls
    and returns counts by name that sum to one: the assignment
    [acc['__proto__'] = 1] adds no property to the object. *)
Theorem aggregateStats_proto_name :
  let st :=
    snd (saveToolCallRecords "agt:pg_test003" [test_record; proto_record]
           store_with_agent) in
  fst (saveToolCallRecords "agt:pg_test003" [test_record; proto_record]
         store_with_agent) = Ok tt
  /\ (exists calls,
        fst (loadToolCallRecords "agt:pg_test003" st) = Ok calls
        /\ map ToolCallRecord.name calls = ["fs_read"; "__proto__"])
  /\ fst (aggregateStats "agt:pg_test003" st)
     = Ok (mkAgentStats 0 2 0 0 [("fs_read", 1)] [("COMPLETED", 2)])
  /\ sum_counts [("fs_read", 1)] <> 2.
Proof.
  vm_compute. split; [reflexivity|].
  split; [eexists; split; reflexivity|]. split; [reflexivity|discriminate].
Qed.

Lemma aggregateStats_counts_witness :
  exists stats msgs calls snaps,
    fst (aggregateStats "agt:pg_test004" store_with_two_agents) = Ok stats
    /\ fst (loadMessages "agt:pg_test004" store_with_two_agents) = Ok msgs
    /\ fst (loadToolCallRecords "agt:pg_test004" store_with_two_agents)
       = Ok calls
    /\ fst (listSnapshots "agt:pg_test004" store_with_two_agents) = Ok snaps
    /\ totalMessages stats = Z.of_nat (List.length msgs)
    /\ totalToolCalls stats = Z.of_nat (List.length calls)
    /\ totalSnapshots stats = Z.of_nat (List.length snaps)
    /\ sum_counts (toolCallsByName stats) = totalToolCalls stats
    /\ sum_counts (toolCallsByState stats) = totalToolCalls stats
    /\ (forall name n,
          In (name, n) (toolCallsByName stats) ->
          n = Z.of_nat (count_occ string_dec
                          (map ToolCallRecord.name calls) name))
    /\ (forall state n,
          In (state, n) (toolCallsByState stats) ->
          n = Z.of_nat (count_occ string_dec
                          (map ToolCallRecord.state calls) state)).
Proof.
  apply (aggregateStats_counts "agt:pg_test004" store_with_two_agents).
  - vm_compute. reflexivity.
  - vm_compute. reflexivity.
Defined.

(** ** The further properties *)

Lemma store_with_history_reachable : reachable store_with_history.
Proof.
  unfold store_with_history, store_with_agent, ready_store.
  apply reach_saveSnapshot, reach_saveToolCallRecords, reach_saveMessages,
    reach_saveInfo, reach_settle, reach_new.
Qed.

Lemma store_with_two_agents_reachable : reachable store_with_two_agents.
Proof.
  unfold store_with_two_agents, store_with_second_agent.
  apply reach_saveSnapshot, reach_saveToolCallRecords, reach_saveMessages,
    reach_saveInfo, store_with_history_reachable.
Qed.

Lemma reachable_keys_unique_witness :
  NoDup (map AgentRow.agent_id (agents (pool store_with_history)))
  /\ NoDup (map MessageRow.id (messages (pool store_with_history)))
  /\ NoDup (map ToolCallRow.id (tool_calls (pool store_with_history)))
  /\ NoDup (map snapshot_id_of (snapshots (pool store_with_history)))
  /\ NoDup (map agent_seq (messages (pool store_with_history))).
Proof.
  apply (reachable_keys_unique store_with_history).
  exact store_with_history_reachable.
Defined.

Lemma reachable_initialize_succeeds_witness :
  fst (initialize store_with_history) = Ok tt
  /\ init (settle store_with_history) = InitDone.
Proof.
  apply (reachable_initialize_succeeds store_with_history).
  exact store_with_history_reachable.
Defined.

Lemma reachable_foreign_keys_witness : fk_ok (pool store_with_history) = true.
Proof.
  apply (reachable_foreign_keys store_with_history).
  exact store_with_history_reachable.
Defined.

Lemma saveToolCallRecords_ids_are_global_witness :
  map ToolCallRow.id (tool_calls (pool store_with_second_agent))
  = ["call_pg_001"]
  /\ NoDup (map ToolCallRecord.id [grep_record; write_record])
  /\ (forall c, In c (tool_calls (pool store_with_second_agent)) ->
                ToolCallRow.agent_id c <> "agt:pg_test004" ->
                ~ In (ToolCallRow.id c)
                     (map ToolCallRecord.id [grep_record; write_record])).
Proof.
  split; [reflexivity|].
  apply (saveToolCallRecords_ids_are_global "agt:pg_test004"
           [grep_record; write_record] store_with_second_agent
           (snd (saveToolCallRecords "agt:pg_test004"
                   [grep_record; write_record] store_with_second_agent))).
  vm_compute. reflexivity.
Defined.


Lemma saveMessages_frame_witness :
  let st := snd (saveInfo "agt:pg_test004" other_info store_with_history) in
  let st' := snd (saveMessages other_env "agt:pg_test004" other_messages st) in
  (forall other, other <> "agt:pg_test004" ->
     fst (loadMessages other st') = fst (loadMessages other st)
     /\ fst (loadInfo other st') = fst (loadInfo other st))
  /\ (forall any,
        fst (loadToolCallRecords any st') = fst (loadToolCallRecords any st)
        /\ fst (listSnapshots any st') = fst (listSnapshots any st))
  /\ fst (loadInfo "agt:pg_test004" st')
     = match fst (loadInfo "agt:pg_test004" st) with
       | Ok (Some info) =>
           Ok (Some (with_messageCount
                       (Z.of_nat (List.length other_messages)) info))
       | other => other
       end.
Proof.
  apply (saveMessages_frame other_env "agt:pg_test004" other_messages
           (snd (saveInfo "agt:pg_test004" other_info store_with_history))).
  vm_compute. reflexivity.
Defined.

Lemma saveSnapshot_loadSnapshot_witness :
  exists loaded listed,
    fst (loadSnapshot "agt:pg_test003" (Snapshot.id other_snapshot)
           (snd (saveSnapshot "agt:pg_test003" other_snapshot
                   store_with_history))) = Ok (Some loaded)
    /\ snapshot_eqv loaded other_snapshot
    /\ fst (listSnapshots "agt:pg_test003"
              (snd (saveSnapshot "agt:pg_test003" other_snapshot
                      store_with_history))) = Ok listed
    /\ In loaded listed.
Proof.
  apply (saveSnapshot_loadSnapshot "agt:pg_test003" other_snapshot
           store_with_history).
  - reflexivity.
  - vm_compute. reflexivity.
Defined.

Lemma writes_need_the_agent_witness :
  (forall env msg msgs,
      exists e, saveMessages env "agt:pg_absent" (msg :: msgs) store_with_agent
                = (Throw e, store_with_agent))
  /\ (forall record records,
      exists e,
        saveToolCallRecords "agt:pg_absent" (record :: records)
          store_with_agent = (Throw e, store_with_agent))
  /\ (forall snapshot,
      exists e, saveSnapshot "agt:pg_absent" snapshot store_with_agent
                = (Throw e, store_with_agent)).
Proof.
  apply (writes_need_the_agent "agt:pg_absent" store_with_agent).
  - vm_compute. reflexivity.
  - vm_compute. reflexivity.
Defined.

Lemma reads_of_an_absent_agent_witness :
  fst (exists_ "agt:pg_absent" store_with_history) = Ok false
  /\ fst (loadInfo "agt:pg_absent" store_with_history) = Ok None
  /\ fst (loadMessages "agt:pg_absent" store_with_history) = Ok []
  /\ fst (loadToolCallRecords "agt:pg_absent" store_with_history) = Ok []
  /\ fst (listSnapshots "agt:pg_absent" store_with_history) = Ok []
  /\ (forall snapshotId,
        fst (loadSnapshot "agt:pg_absent" snapshotId store_with_history)
        = Ok None)
  /\ fst (aggregateStats "agt:pg_absent" store_with_history)
     = Ok (mkAgentStats 0 0 0 0 [] [])
  /\ delete "agt:pg_absent" store_with_history = (Ok tt, store_with_history).
Proof.
  apply (reads_of_an_absent_agent "agt:pg_absent" store_with_history).
  - vm_compute. reflexivity.
  - vm_compute. reflexivity.
  - vm_compute. reflexivity.
Defined.

Lemma delete_frame_witness :
  let st' := snd (delete "agt:pg_test003" store_with_two_agents) in
  fst (exists_ "agt:pg_test003" st') = Ok false
  /\ map Message.role
       match fst (loadMessages "agt:pg_test004" st') with
       | Ok msgs => msgs
       | Throw _ => []
       end = ["user"; "assistant"]
  /\ fst (loadInfo "agt:pg_test004" st')
     = fst (loadInfo "agt:pg_test004" store_with_two_agents)
  /\ fst (loadMessages "agt:pg_test004" st')
     = fst (loadMessages "agt:pg_test004" store_with_two_agents)
  /\ fst (loadToolCallRecords "agt:pg_test004" st')
     = fst (loadToolCallRecords "agt:pg_test004" store_with_two_agents)
  /\ fst (listSnapshots "agt:pg_test004" st')
     = fst (listSnapshots "agt:pg_test004" store_with_two_agents).
Proof.
  split; [reflexivity|]. split; [reflexivity|].
  apply (delete_frame "agt:pg_test003" store_with_two_agents
           (snd (delete "agt:pg_test003" store_with_two_agents))).
  - vm_compute. reflexivity.
  - discriminate.
Defined.

Lemma saving_nothing_witness :
  (forall env,
      let st' := snd (saveMessages env "agt:pg_test003" [] store_with_history) in
      fst (saveMessages env "agt:pg_test003" [] store_with_history) = Ok tt
      /\ fst (loadMessages "agt:pg_test003" st') = Ok []
      /\ fst (exists_ "agt:pg_test003" st')
         = fst (exists_ "agt:pg_test003" store_with_history))
  /\ (let st' :=
        snd (saveToolCallRecords "agt:pg_test003" [] store_with_history) in
      fst (saveToolCallRecords "agt:pg_test003" [] store_with_history) = Ok tt
      /\ fst (loadToolCallRecords "agt:pg_test003" st') = Ok []
      /\ fst (exists_ "agt:pg_test003" st')
         = fst (exists_ "agt:pg_test003" store_with_history)).
Proof.
  apply (saving_nothing "agt:pg_test003" store_with_history).
  vm_compute. reflexivity.
Defined.

Lemma list_returns_every_agent_witness :
  exists rows,
    fst (list_ None store_with_two_agents) = Ok (map AgentRow.agent_id rows)
    /\ Permutation rows (agents (pool store_with_two_agents))
    /\ Sorted newest_first rows
    /\ list_ (Some "") store_with_two_agents
       = list_ None store_with_two_agents.
Proof.
  apply (list_returns_every_agent store_with_two_agents).
  vm_compute. reflexivity.
Defined.

Lemma list_with_a_literal_prefix_witness :
  exists rows,
    fst (list_ (Some "agt:pg") store_with_two_agents)
    = Ok (map AgentRow.agent_id rows)
    /\ Permutation rows
         (filter (fun a => String.prefix "agt:pg" (AgentRow.agent_id a))
                 (agents (pool store_with_two_agents)))
    /\ Sorted newest_first rows.
Proof.
  apply (list_with_a_literal_prefix "agt:pg" store_with_two_agents).
  - reflexivity.
  - vm_compute. reflexivity.
Defined.

Lemma saveInfo_touches_one_agent_witness :
  let st' := snd (saveInfo "agt:pg_test004" other_info store_with_history) in
  fst (exists_ (AgentInfo.agentId other_info) st') = Ok true
  /\ (exists ids, fst (list_ None st') = Ok ids
                  /\ In (AgentInfo.agentId other_info) ids)
  /\ (forall other, other <> AgentInfo.agentId other_info ->
        fst (loadInfo other st') = fst (loadInfo other store_with_history))
  /\ (forall any,
        fst (loadMessages any st') = fst (loadMessages any store_with_history)
        /\ fst (loadToolCallRecords any st')
           = fst (loadToolCallRecords any store_with_history)
        /\ fst (listSnapshots any st')
           = fst (listSnapshots any store_with_history)).
Proof.
  apply (saveInfo_touches_one_agent "agt:pg_test004" other_info
           store_with_history
           (snd (saveInfo "agt:pg_test004" other_info store_with_history))).
  vm_compute. reflexivity.
Defined.

Lemma queryMessages_page_witness :
  let f := MessageFilters.mk (Some "agt:pg_test003") None None None
             (Some 2) (Some 1) in
  exists rows,
    Permutation rows
      (filter (message_matches f) (messages (pool store_with_history)))
    /\ Sorted newest_message_first rows
    /\ queryMessages f store_with_history
       = Return (map message_of_row
                   (firstn (Z.to_nat 2) (skipn (Z.to_nat 1) rows)))
    /\ (List.length (firstn (Z.to_nat 2) (skipn (Z.to_nat 1) rows))
        <= Z.to_nat 2)%nat.
Proof.
  apply (queryMessages_page
           (MessageFilters.mk (Some "agt:pg_test003") None None None
              (Some 2) (Some 1)) 2 1 store_with_history);
    try reflexivity; try lia.
Defined.

Lemma queryMessages_without_limit_witness :
  let f := MessageFilters.mk (Some "agt:pg_test003") (Some "user") None None
             (Some 0) (Some 5) in
  exists rows,
    Permutation rows
      (filter (message_matches f) (messages (pool store_with_history)))
    /\ Sorted newest_message_first rows
    /\ queryMessages f store_with_history = Return (map message_of_row rows).
Proof.
  apply (queryMessages_without_limit
           (MessageFilters.mk (Some "agt:pg_test003") (Some "user") None None
              (Some 0) (Some 5)) store_with_history).
  - right. reflexivity.
  - reflexivity.
  - reflexivity.
  - vm_compute. reflexivity.
Defined.

Lemma queryMessages_of_one_agent_witness :
  match queryMessages
          (MessageFilters.mk (Some "agt:pg_test003") None None None None None)
          store_with_history,
        fst (loadMessages "agt:pg_test003" store_with_history) with
  | Return found, Ok loaded => Permutation found loaded
  | Raise (server_error e), Throw e' => e = e'
  | _, _ => False
  end
  /\ match queryMessages
             (MessageFilters.mk None None None None None None)
             store_with_history with
     | Return found =>
         Permutation found
           (map message_of_row (messages (pool store_with_history)))
     | Raise e => e = server_error (undefined_table messages_rel)
     end.
Proof.
  apply (queryMessages_of_one_agent "agt:pg_test003" store_with_history).
  discriminate.
Defined.

Lemma queryToolCalls_sound_witness :
  let f := ToolCallFilters.mk (Some "agt:pg_test003") (Some "fs_read")
             (Some "COMPLETED") (Some 1714557600000) None None None in
  let record := tool_call_of_row (tool_call_row "agt:pg_test003" test_record) in
  (forall v, ToolCallFilters.toolName f = Some v -> v <> "" ->
     ToolCallRecord.name record = v)
  /\ (forall v, ToolCallFilters.state f = Some v -> v <> "" ->
        ToolCallRecord.state record = v)
  /\ (forall t, ToolCallFilters.startDate f = Some t -> t <> 0 ->
        t <= number_of (ToolCallRecord.createdAt record))
  /\ (forall t, ToolCallFilters.endDate f = Some t -> t <> 0 ->
        number_of (ToolCallRecord.createdAt record) <= t)
  /\ (forall v, ToolCallFilters.agentId f = Some v -> v <> "" ->
        exists loaded,
          fst (loadToolCallRecords v store_with_two_agents) = Ok loaded
          /\ In record loaded).
Proof.
  apply (queryToolCalls_sound
           (ToolCallFilters.mk (Some "agt:pg_test003") (Some "fs_read")
              (Some "COMPLETED") (Some 1714557600000) None None None)
           store_with_two_agents
           [tool_call_of_row (tool_call_row "agt:pg_test003" test_record)]).
  - vm_compute. reflexivity.
  - simpl. left. reflexivity.
Defined.

Lemma querySessions_order_witness :
  let f := SessionFilters.mk None None None None None None
             (Some sort_message_count) (Some asc) in
  let sessions :=
    [ SessionInfo.mk "agt:pg_test004" "test-template"
        (local_time "2024-05-02T10:00:00.000Z") 2 (-1) None;
      SessionInfo.mk "agt:pg_test003" "test-template"
        (local_time "2024-05-01T10:00:00.000Z") 3 (-1) None ] in
  map AgentRow.agent_id (agents (pool store_with_two_agents))
  = ["agt:pg_test003"; "agt:pg_test004"]
  /\ querySessions f store_with_two_agents = Return sessions
  /\ SessionFilters.sortBy f <> Some sort_updated_at
  /\ Sorted (session_sorted (SessionFilters.sortBy f)
                            (SessionFilters.sortOrder f)) sessions.
Proof.
  split; [reflexivity|]. split; [reflexivity|].
  apply (querySessions_order
           (SessionFilters.mk None None None None None None
              (Some sort_message_count) (Some asc)) store_with_two_agents).
  vm_compute. reflexivity.
Defined.

Lemma querySessions_invalid_date_witness :
  querySessions
    (SessionFilters.mk None None (Some 8640000000000001) None None None
       None None) store_with_history
  = Raise RangeError.
Proof.
  apply (querySessions_invalid_date
           (SessionFilters.mk None None (Some 8640000000000001) None None None
              None None) store_with_history 8640000000000001).
  - left. reflexivity.
  - reflexivity.
Defined.

Lemma querySessions_sort_by_updated_at_witness :
  querySessions
    (SessionFilters.mk None None None None None None (Some sort_updated_at)
       None) store_with_history
  = Raise (undefined_column "updated_at").
Proof.
  apply (querySessions_sort_by_updated_at
           (SessionFilters.mk None None None None None None
              (Some sort_updated_at) None) store_with_history).
  - reflexivity.
  - reflexivity.
  - reflexivity.
  - vm_compute. reflexivity.
Defined.

Lemma querySessions_agrees_with_loadInfo_witness :
  let s := SessionInfo.mk "agt:pg_test003" "test-template"
             (local_time "2024-05-01T10:00:00.000Z") 3 (-1) None in
  exists info,
    fst (loadInfo (SessionInfo.agentId s) store_with_two_agents)
    = Ok (Some info)
    /\ AgentInfo.agentId info = SessionInfo.agentId s
    /\ AgentInfo.templateId info = SessionInfo.templateId s
    /\ AgentInfo.createdAt info = SessionInfo.createdAt s
    /\ AgentInfo.messageCount info = SessionInfo.messageCount s
    /\ AgentInfo.lastSfpIndex info = SessionInfo.lastSfpIndex s
    /\ AgentInfo.breakpoint info = or_null_str (SessionInfo.breakpoint s).
Proof.
  apply (querySessions_agrees_with_loadInfo
           (SessionFilters.mk (Some "agt:pg_test003") None None None None None
              None None)
           store_with_two_agents
           [SessionInfo.mk "agt:pg_test003" "test-template"
              (local_time "2024-05-01T10:00:00.000Z") 3 (-1) None]).
  - exact store_with_two_agents_reachable.
  - vm_compute. reflexivity.
  - simpl. left. reflexivity.
Defined.
